(** * GPS: NMEA sentence decoding (gps/gps.py)

    A shallow embedding of the classes of [gps/gps.py] -- [Value] and its
    subclasses, [Location] and the sentence handling of [Data] -- together
    with the properties of the decoder that the design document states.

    Conventions of the embedding:
    - Python [int] is [Z]; in the decoder a Python [float] is an exact
      rational [Q], without rounding, infinities or NaN; the two unit
      conversions of [Speed], where rounding decides, are given as well on
      binary64 floats ([Speed64], over the primitive floats and their
      specification in the Standard Library);
    - [str] is [string], [bytes] is [list byte];
    - the module imports [machine] and reads a UART, it is written for
      MicroPython; where that interpreter and CPython differ (adding a
      str to a bytes object), MicroPython is followed;
    - a method of [Location] or [Data] is a computation over the object's
      state that either returns or raises; assignments made before an
      exception are kept, as in Python;
    - the builtins [int(str)] and [float(str)] are an interface
      ([Builtins]); one instance, for plain decimal literals, is given to
      run the model on concrete sentences. *)

From Stdlib Require Import ZArith QArith Qpower Qabs Lqa String Ascii Strings.Byte List Bool Lia.
From Stdlib Require Import Floats.
Import ListNotations.

Local Open Scope string_scope.
Local Open Scope Z_scope.

(* Decimal literals of floats stand for the nearest binary64 number. *)
Set Warnings "-inexact-float".

(** ** Exceptions and computations *)

Inductive exn : Type := ValueError | IndexError | TypeError.

Inductive outcome (A : Type) : Type :=
| Return (a : A)
| Raise (e : exn).

Arguments Return {A} a.
Arguments Raise {A} e.

Definition obind {A B : Type} (o : outcome A) (k : A -> outcome B) : outcome B :=
  match o with
  | Return a => k a
  | Raise e => Raise e
  end.

(** A method body over an object of type [S]: the state after the call is
    returned also when the call raises. *)
Definition M (S A : Type) : Type := S -> S * outcome A.

Definition ret {S A : Type} (a : A) : M S A := fun s => (s, Return a).

Definition bind {S A B : Type} (m : M S A) (k : A -> M S B) : M S B :=
  fun s =>
    match m s with
    | (s', Return a) => k a s'
    | (s', Raise e) => (s', Raise e)
    end.

Definition get {S : Type} : M S S := fun s => (s, Return s).

Definition modify {S : Type} (f : S -> S) : M S unit := fun s => (f s, Return tt).

Definition lift {S A : Type} (o : outcome A) : M S A := fun s => (s, o).

Definition raise {S A : Type} (e : exn) : M S A := lift (Raise e).

Definition when {S : Type} (b : bool) (m : M S unit) : M S unit :=
  if b then m else ret tt.

Declare Scope py_scope.
Delimit Scope py_scope with py.

Notation "x <- m ;; k" := (bind m (fun x => k))
  (at level 61, m at next level, right associativity) : py_scope.
Notation "m ;; k" := (bind m (fun _ => k))
  (at level 61, right associativity) : py_scope.
Notation "x <~ o ;; k" := (obind o (fun x => k))
  (at level 61, o at next level, right associativity) : py_scope.

Local Open Scope py_scope.

(** ** Strings and bytes as the program uses them *)

Definition bytes : Type := list byte.

(** [s[n:]] on a string, [n >= 0]. *)
Fixpoint drop (n : nat) (s : string) : string :=
  match n, s with
  | O, _ => s
  | S n', String _ s' => drop n' s'
  | S _, EmptyString => EmptyString
  end.

(** [s[:n]] on a string, [n >= 0]. *)
Fixpoint take (n : nat) (s : string) : string :=
  match n, s with
  | O, _ => EmptyString
  | S n', String c s' => String c (take n' s')
  | S _, EmptyString => EmptyString
  end.

(** Bound of a slice against a sequence of length [n]: a negative bound
    counts from the end, every bound is clipped to [0 .. n]. *)
Definition clip (n i : Z) : Z :=
  if i <? 0 then Z.max 0 (n + i) else Z.min i n.

(** [s[a:b]] on a string. *)
Definition substr (s : string) (a b : Z) : string :=
  let n := Z.of_nat (String.length s) in
  let a' := clip n a in
  let b' := clip n b in
  take (Z.to_nat (b' - a')) (drop (Z.to_nat a') s).

(** [s[a:]] on a string. *)
Definition substr_from (s : string) (a : Z) : string :=
  let n := Z.of_nat (String.length s) in
  drop (Z.to_nat (clip n a)) s.

(** [d[a:b]] on bytes. *)
Definition bslice (d : bytes) (a b : Z) : bytes :=
  let n := Z.of_nat (List.length d) in
  let a' := clip n a in
  let b' := clip n b in
  firstn (Z.to_nat (b' - a')) (skipn (Z.to_nat a') d).

Fixpoint bytes_eqb (a b : bytes) : bool :=
  match a, b with
  | [], [] => true
  | x :: a', y :: b' => Byte.eqb x y && bytes_eqb a' b'
  | _, _ => false
  end.

(** [segment.split(sep)] for a one-character separator. *)
Fixpoint split (sep : ascii) (s : string) : list string :=
  match s with
  | EmptyString => [EmptyString]
  | String c s' =>
      if Ascii.eqb c sep then EmptyString :: split sep s'
      else match split sep s' with
           | f :: fs => String c f :: fs
           | [] => [String c EmptyString]
           end
  end.

(** [c in s] for a one-character [c]. *)
Fixpoint contains (c : ascii) (s : string) : bool :=
  match s with
  | EmptyString => false
  | String x s' => Ascii.eqb x c || contains c s'
  end.

(** [s in (t1, t2, ...)]. *)
Definition str_in (s : string) (ts : list string) : bool :=
  existsb (String.eqb s) ts.

(** [bs in (b1, b2, ...)]. *)
Definition bytes_in (b : bytes) (bs : list bytes) : bool :=
  existsb (bytes_eqb b) bs.

(** [d[i]] on a list: IndexError out of range. *)
Definition item (d : list string) (i : nat) : outcome string :=
  match nth_error d i with
  | Some s => Return s
  | None => Raise IndexError
  end.

Definition CR : byte := x0d.
Definition LF : byte := x0a.
Definition quote1 : byte := x27.
Definition quote2 : byte := x22.
Definition backslash : byte := x5c.

Definition hex_digit (n : N) : ascii :=
  match String.get (N.to_nat n) "0123456789abcdef" with
  | Some c => c
  | None => "0"%char
  end.

(** One byte inside the repr of a bytes object delimited by [q]. *)
Definition repr_byte (q : byte) (b : byte) : string :=
  let c := ascii_of_byte b in
  let n := Byte.to_N b in
  if Byte.eqb b q || Byte.eqb b backslash then String "\"%char (String c EmptyString)
  else if Byte.eqb b x09 then "\t"
  else if Byte.eqb b LF then "\n"
  else if Byte.eqb b CR then "\r"
  else if (n <? 32)%N || (127 <=? n)%N then
    String "\"%char (String "x"%char
      (String (hex_digit (n / 16)) (String (hex_digit (n mod 16)) EmptyString)))
  else String c EmptyString.

(** [str(d)] (also what the format [%s] produces) for a bytes object: the
    letter b, a quote, the escaped bytes, the quote.  The quote is the
    double one only when [d] holds a single quote and no double quote. *)
Definition bytes_str (d : bytes) : string :=
  let q := if existsb (Byte.eqb quote1) d && negb (existsb (Byte.eqb quote2) d)
           then quote2 else quote1 in
  String "b"%char (String (ascii_of_byte q)
    (String.append (String.concat EmptyString (map (repr_byte q) d))
       (String (ascii_of_byte q) EmptyString))).

(** [d + s] for bytes [d] and str [s], as MicroPython evaluates it: the
    right operand is read through the buffer protocol, which a str
    supports there, and its bytes are appended.  (CPython raises TypeError
    on these operands; a [Data] object cannot be built there at all, for
    want of the module machine.) *)
Definition bytes_add_str (d : bytes) (s : string) : outcome bytes :=
  Return (d ++ list_byte_of_string s)%list.

(** ** The builtins int() and float() on strings *)

Class Builtins : Type := {
  py_int : string -> option Z;
  py_float : string -> option Q
}.

Definition digit_of (c : ascii) : option Z :=
  let n := nat_of_ascii c in
  if (48 <=? n)%nat && (n <=? 57)%nat then Some (Z.of_nat (n - 48)) else None.

(** Reads a run of decimal digits: the number read so far, how many digits
    were read, and the rest of the string. *)
Fixpoint digits (s : string) (acc : Z) (k : nat) : Z * nat * string :=
  match s with
  | EmptyString => (acc, k, s)
  | String c s' =>
      match digit_of c with
      | Some d => digits s' (10 * acc + d) (S k)
      | None => (acc, k, s)
      end
  end.

Definition signed (s : string) : bool * string :=
  match s with
  | String "-" s' => (true, s')
  | String "+" s' => (false, s')
  | _ => (false, s)
  end.

(** [int(s)] for an optional sign followed by one or more digits. *)
Definition decimal_int (s : string) : option Z :=
  let '(neg, body) := signed s in
  match digits body 0 0 with
  | (n, S _, EmptyString) => Some (if neg then - n else n)
  | _ => None
  end.

(** [float(s)] for an optional sign, digits, and an optional point followed
    by digits, with at least one digit in all. *)
Definition decimal_float (s : string) : option Q :=
  let '(neg, body) := signed s in
  let '(n, k, rest) := digits body 0 0 in
  let result (num : Z) (scale : nat) : option Q :=
    let q := Qred (inject_Z num / inject_Z (10 ^ Z.of_nat scale)) in
    Some (if neg then Qopp q else q) in
  match rest with
  | EmptyString => match k with O => None | S _ => result n O end
  | String "." frac =>
      match digits frac n 0 with
      | (m, j, EmptyString) =>
          match (k + j)%nat with O => None | S _ => result m j end
      | _ => None
      end
  | _ => None
  end.

#[export] Instance decimal : Builtins := {
  py_int := decimal_int;
  py_float := decimal_float
}.

(** ** Measurement times *)

(** The tuple (hour, minute, second) of a measurement. *)
Definition timestamp : Type := (Z * Z * Q)%type.

(** The default [t=(0, 0, 0.0)]. *)
Definition zero_time : timestamp := (0, 0, 0%Q).

(** [a < b] on floats. *)
Definition Qlt_bool (a b : Q) : bool := negb (Qle_bool b a).

(** [a < b] on two time tuples: the first position where the tuples differ
    decides; equal tuples are not smaller. *)
Definition time_lt (a b : timestamp) : bool :=
  let '(h1, m1, s1) := a in
  let '(h2, m2, s2) := b in
  if negb (h1 =? h2) then h1 <? h2
  else if negb (m1 =? m2) then m1 <? m2
  else if negb (Qeq_bool s1 s2) then Qlt_bool s1 s2
  else false.

(** ** class Value and its subclasses *)

Module Value.

Inductive kind : Type := IsValue | IsDistance | IsPosition | IsSpeed | IsHDOP | IsCourse.

(** An instance: its class and the attributes __val, __unit, __time. *)
Record obj : Type := make {
  cls : kind;
  value : Q;
  unit : string;
  time : timestamp
}.

(** What a caller passes as [v]: a field of a sentence or a number. *)
Inductive arg : Type :=
| Str (s : string)
| Num (q : Q).

(** [float(v)] *)
Definition float `{Builtins} (v : arg) : outcome Q :=
  match v with
  | Str s => match py_float s with
             | Some q => Return q
             | None => Raise ValueError
             end
  | Num q => Return q
  end.

(** [int(s)] *)
Definition int `{Builtins} (s : string) : outcome Z :=
  match py_int s with
  | Some n => Return n
  | None => Raise ValueError
  end.

(** [Value.__init__(self, v, u, t)] for an instance of class [k]. *)
Definition init `{Builtins} (k : kind) (v : arg) (u : string) (t : timestamp)
  : outcome obj :=
  q <~ float v ;;
  Return (make k q u t).

End Value.

(** [Distance(v, u, t)] *)
Definition Distance `{Builtins} (v : Value.arg) (u : string) (t : timestamp)
  : outcome Value.obj :=
  Value.init Value.IsDistance v u t.

(** [Position(v, u, t)]: [v if u in ("N", "E") else -v]; the negation is
    defined on numbers only. *)
Definition Position `{Builtins} (v : Value.arg) (u : string) (t : timestamp)
  : outcome Value.obj :=
  if str_in u ["N"; "E"] then Value.init Value.IsPosition v u t
  else match v with
       | Value.Num q => Value.init Value.IsPosition (Value.Num (- q)%Q) u t
       | Value.Str _ => Raise TypeError
       end.

(** [Course(v, t)] *)
Definition Course `{Builtins} (v : Value.arg) (t : timestamp) : outcome Value.obj :=
  Value.init Value.IsCourse v "D" t.

Module Speed.

(** [Speed(v, u, t)] *)
Definition init `{Builtins} (v : Value.arg) (u : string) (t : timestamp)
  : outcome Value.obj :=
  Value.init Value.IsSpeed v u t.

(** The literal 1.85200. *)
Definition factor : Q := 1.85200%Q.

Definition to_kmh `{Builtins} (self : Value.obj) : outcome Value.obj :=
  if str_in (Value.unit self) ["knot"; "N"] then
    init (Value.Num (Value.value self * factor)%Q) "kmh" (Value.time self)
  else Return self.

Definition to_knot `{Builtins} (self : Value.obj) : outcome Value.obj :=
  if str_in (Value.unit self) ["kmh"; "K"] then
    init (Value.Num (Value.value self / factor)%Q) "knot" (Value.time self)
  else Return self.

End Speed.

Module HDOP.

(** [HDOP(v, t)] *)
Definition init `{Builtins} (v : Value.arg) (t : timestamp) : outcome Value.obj :=
  Value.init Value.IsHDOP v EmptyString t.

(** [HDOP.__str__] *)
Definition str (self : Value.obj) : string :=
  if Qlt_bool (Value.value self) 1 then "Ide."
  else if Qle_bool (Value.value self) 2 then "Exe."
  else if Qle_bool (Value.value self) 5 then "Good"
  else if Qle_bool (Value.value self) 10 then "Mod."
  else if Qle_bool (Value.value self) 20 then "Fair"
  else "Poor".

End HDOP.

(** ** class Speed over binary64

    Whether a conversion there and back returns the value is a question of
    rounding, which the rationals above do not show.  The two conversions
    of [Speed] are therefore given once more, on the binary64 numbers that
    a Python float holds. *)

Module Speed64.

(** An instance of [Speed]: the attributes __val, __unit, __time. *)
Record obj : Type := make {
  value : float;
  unit : string;
  time : timestamp
}.

(** [Speed(v, u, t)] for a float [v]: [float(v)] is [v] itself. *)
Definition init (v : float) (u : string) (t : timestamp) : obj := make v u t.

(** The literal 1.85200: the nearest binary64 number. *)
Definition factor : float := 1.85200%float.

Definition to_kmh (self : obj) : obj :=
  if str_in (unit self) ["knot"; "N"] then
    init (value self * factor)%float "kmh" (time self)
  else self.

Definition to_knot (self : obj) : obj :=
  if str_in (unit self) ["kmh"; "K"] then
    init (value self / factor)%float "knot" (time self)
  else self.

End Speed64.

(** ** class Location *)

(** What an accessor hands out: the reading, or Python's [False] when the
    attribute is not set. *)
Inductive reading (A : Type) : Type :=
| Got (a : A)
| NotSet.

Arguments Got {A} a.
Arguments NotSet {A}.

(** The sentence identifiers compared against [msgid]. *)
Definition GPGGA : bytes := list_byte_of_string "$GPGGA".
Definition GPGLL : bytes := list_byte_of_string "$GPGLL".
Definition GPRMC : bytes := list_byte_of_string "$GPRMC".
Definition GPVTG : bytes := list_byte_of_string "$GPVTG".
Definition GPGSV : bytes := list_byte_of_string "$GPGSV".
Definition GPMSS : bytes := list_byte_of_string "$GPMSS".

(** [x is None] *)
Definition is_None {A : Type} (x : option A) : bool :=
  match x with
  | None => true
  | Some _ => false
  end.

(** A call that passes more positional arguments than the method has
    parameters. *)
Definition too_many_arguments {S A : Type} : M S A := raise TypeError.

Module Location.

(** The attributes __valid, __lat, __long, __alt, __height, __speed,
    __course, __satellites and __hdop; [None] is Python's None. *)
Record obj : Type := make {
  _valid : bool;
  _lat : option Value.obj;
  _long : option Value.obj;
  _alt : option Value.obj;
  _height : option Value.obj;
  _speed : option Value.obj;
  _course : option Value.obj;
  _satellites : Z;
  _hdop : option Value.obj
}.

(** [Location()] *)
Definition init : obj :=
  make false None None None None None None (-1) None.

Definition with_valid (b : bool) (self : obj) : obj :=
  make b (_lat self) (_long self) (_alt self) (_height self) (_speed self)
    (_course self) (_satellites self) (_hdop self).

Definition with_lat (x : option Value.obj) (self : obj) : obj :=
  make (_valid self) x (_long self) (_alt self) (_height self) (_speed self)
    (_course self) (_satellites self) (_hdop self).

Definition with_long (x : option Value.obj) (self : obj) : obj :=
  make (_valid self) (_lat self) x (_alt self) (_height self) (_speed self)
    (_course self) (_satellites self) (_hdop self).

Definition with_alt (x : option Value.obj) (self : obj) : obj :=
  make (_valid self) (_lat self) (_long self) x (_height self) (_speed self)
    (_course self) (_satellites self) (_hdop self).

Definition with_height (x : option Value.obj) (self : obj) : obj :=
  make (_valid self) (_lat self) (_long self) (_alt self) x (_speed self)
    (_course self) (_satellites self) (_hdop self).

Definition with_speed (x : option Value.obj) (self : obj) : obj :=
  make (_valid self) (_lat self) (_long self) (_alt self) (_height self) x
    (_course self) (_satellites self) (_hdop self).

Definition with_course (x : option Value.obj) (self : obj) : obj :=
  make (_valid self) (_lat self) (_long self) (_alt self) (_height self)
    (_speed self) x (_satellites self) (_hdop self).

Definition with_satellites (n : Z) (self : obj) : obj :=
  make (_valid self) (_lat self) (_long self) (_alt self) (_height self)
    (_speed self) (_course self) n (_hdop self).

Definition with_hdop (x : option Value.obj) (self : obj) : obj :=
  make (_valid self) (_lat self) (_long self) (_alt self) (_height self)
    (_speed self) (_course self) (_satellites self) x.

(** [valid()] *)
Definition valid (self : obj) : bool := _valid self.

(** [__seg_set(d, i)]: the index is read only once the length test has
    passed, so the default of [nth] is never looked at. *)
Definition seg_set (d : list string) (i : nat) : bool :=
  (i + 1 <=? List.length d)%nat
  && negb (String.length (nth i d EmptyString) =? 0)%nat
  && negb (contains "*" (nth i d EmptyString)).

(** The test [field is None or field.time() < t] of the five setters. *)
Definition unset_or_older (field : option Value.obj) (t : timestamp) : bool :=
  match field with
  | None => true
  | Some x => time_lt (Value.time x) t
  end.

(** [__set_hdop(v, t)] *)
Definition set_hdop `{Builtins} (v : string) (t : timestamp) : M obj unit :=
  if (String.length v =? 0)%nat then ret tt
  else
    self <- get ;;
    when (unset_or_older (_hdop self) t) (
      h <- lift (HDOP.init (Value.Str v) t) ;;
      modify (with_hdop (Some h))).

(** [__set_speed(v, u, t)] *)
Definition set_speed `{Builtins} (v u : string) (t : timestamp) : M obj unit :=
  if (String.length v =? 0)%nat then ret tt
  else
    self <- get ;;
    when (unset_or_older (_speed self) t) (
      s <- lift (Speed.init (Value.Str v) u t) ;;
      modify (with_speed (Some s))).

(** [__set_course(v, t)] *)
Definition set_course `{Builtins} (v : string) (t : timestamp) : M obj unit :=
  if (String.length v =? 0)%nat then ret tt
  else
    self <- get ;;
    when (unset_or_older (_course self) t) (
      c <- lift (Course (Value.Str v) t) ;;
      modify (with_course (Some c))).

(** [__set_lat(v, d, t)]: two digits of degrees, then minutes. *)
Definition set_lat `{Builtins} (v d : string) (t : timestamp) : M obj unit :=
  if (String.length v =? 0)%nat then ret tt
  else
    self <- get ;;
    when (unset_or_older (_lat self) t) (
      deg <- lift (Value.float (Value.Str (substr v 0 2))) ;;
      mnt <- lift (Value.float (Value.Str (substr_from v 2))) ;;
      p <- lift (Position (Value.Num (deg + mnt / 60)%Q) d t) ;;
      modify (with_lat (Some p))).

(** [__set_long(v, d, t)]: three digits of degrees, then minutes. *)
Definition set_long `{Builtins} (v d : string) (t : timestamp) : M obj unit :=
  if (String.length v =? 0)%nat then ret tt
  else
    self <- get ;;
    when (unset_or_older (_long self) t) (
      deg <- lift (Value.float (Value.Str (substr v 0 3))) ;;
      mnt <- lift (Value.float (Value.Str (substr_from v 3))) ;;
      p <- lift (Position (Value.Num (deg + mnt / 60)%Q) d t) ;;
      modify (with_long (Some p))).

(** [__time_from_seg(ts)] *)
Definition time_from_seg `{Builtins} (ts : string) : outcome timestamp :=
  h <~ Value.int (substr ts 0 2) ;;
  m <~ Value.int (substr ts 2 4) ;;
  s <~ Value.float (Value.Str (substr_from ts 4)) ;;
  Return (h, m, s).

(** The guards of the five handlers of [set], on the split payload. *)
Definition gga_ok (data : list string) : bool :=
  (6 <=? List.length data)%nat && str_in (nth 5 data EmptyString) ["1"; "2"; "6"].

Definition gll_ok (data : list string) : bool :=
  (6 <=? List.length data)%nat && String.eqb (nth 5 data EmptyString) "A".

Definition rmc_ok (data : list string) : bool :=
  (6 <=? List.length data)%nat && String.eqb (nth 1 data EmptyString) "A".

Definition vtg_ok (data : list string) : bool :=
  (7 <=? List.length data)%nat && String.eqb (nth 2 data EmptyString) "T".

Definition gsv_ok (data : list string) : bool :=
  seg_set data 2 && String.eqb (nth 0 data EmptyString) (nth 1 data EmptyString).

(** [data[i]] inside a method body. *)
Notation "d [[ i ]]" := (lift (item d i)) (at level 1, format "d [[ i ]]") : py_scope.

(** The handler for $GPGGA. *)
Definition gga `{Builtins} (data : list string) : M obj unit :=
  when (gga_ok data) (
    ts <- data[[0]] ;;
    t <- lift (time_from_seg ts) ;;
    v <- data[[1]] ;; d <- data[[2]] ;;
    set_lat v d t ;;
    v <- data[[3]] ;; d <- data[[4]] ;;
    set_long v d t ;;
    self <- get ;;
    when ((_satellites self <? 0) && seg_set data 6) (
      s <- data[[6]] ;;
      n <- lift (Value.int s) ;;
      modify (with_satellites n)) ;;
    when (seg_set data 7) (
      v <- data[[7]] ;;
      set_hdop v t) ;;
    when (seg_set data 8) (
      v <- data[[8]] ;;
      u <- (if negb (seg_set data 9) then ret "M" else data[[9]]) ;;
      a <- lift (Distance (Value.Str v) u t) ;;
      modify (with_alt (Some a))) ;;
    when (seg_set data 10) (
      v <- data[[10]] ;;
      u <- (if negb (seg_set data 11) then ret "M" else data[[10]]) ;;
      h <- lift (Distance (Value.Str v) u t) ;;
      modify (with_height (Some h)))).

(** The handler for $GPGLL. *)
Definition gll `{Builtins} (data : list string) : M obj unit :=
  when (gll_ok data) (
    ts <- data[[4]] ;;
    t <- lift (time_from_seg ts) ;;
    v <- data[[0]] ;; d <- data[[1]] ;;
    set_lat v d t ;;
    v <- data[[2]] ;; d <- data[[3]] ;;
    set_long v d t).

(** The handler for $GPRMC. *)
Definition rmc `{Builtins} (data : list string) : M obj unit :=
  when (rmc_ok data) (
    ts <- data[[0]] ;;
    t <- lift (time_from_seg ts) ;;
    v <- data[[2]] ;; d <- data[[3]] ;;
    set_lat v d t ;;
    v <- data[[4]] ;; d <- data[[5]] ;;
    set_long v d t ;;
    v <- data[[6]] ;;
    set_speed v "N" t ;;
    v <- data[[7]] ;;
    set_course v t).

(** The handler for $GPVTG.  The source calls
    [self.__set_course(data[5], data[0], (0, 0, 0.0))]: the arguments are
    evaluated, then the call fails, [__set_course] having two parameters
    besides [self]. *)
Definition vtg `{Builtins} (data : list string) : M obj unit :=
  when (vtg_ok data) (
    v <- data[[4]] ;; u <- data[[6]] ;;
    set_speed v u zero_time ;;
    _ <- data[[5]] ;; _ <- data[[0]] ;;
    too_many_arguments).

(** The handler for $GPGSV. *)
Definition gsv `{Builtins} (data : list string) : M obj unit :=
  when (gsv_ok data) (
    s <- data[[2]] ;;
    n <- lift (Value.int s) ;;
    modify (with_satellites n)).

(** [set(msgid, segment)] *)
Definition set `{Builtins} (msgid : bytes) (segment : string) : M obj bool :=
  let data := split "," segment in
  (if bytes_eqb msgid GPGGA then gga data
   else if bytes_eqb msgid GPGLL then gll data
   else if bytes_eqb msgid GPRMC then rmc data
   else if bytes_eqb msgid GPVTG then vtg data
   else if bytes_eqb msgid GPGSV then gsv data
   else if bytes_eqb msgid GPMSS then ret tt
   else ret tt) ;;
  modify (fun self =>
    with_valid
      (if is_None (_lat self) || is_None (_long self) then false else true)
      self) ;;
  self <- get ;;
  ret (valid self).

(** The accessors, as written: [longitude] reads __lat and [latitude]
    reads __long. *)
Definition longitude (self : obj) : reading Q :=
  match _lat self with Some x => Got (Value.value x) | None => NotSet end.

Definition latitude (self : obj) : reading Q :=
  match _long self with Some x => Got (Value.value x) | None => NotSet end.

Definition altitude (self : obj) : reading Q :=
  match _alt self with Some x => Got (Value.value x) | None => NotSet end.

Definition height (self : obj) : reading Q :=
  match _height self with Some x => Got (Value.value x) | None => NotSet end.

Definition speed (self : obj) : reading Q :=
  match _speed self with Some x => Got (Value.value x) | None => NotSet end.

Definition course (self : obj) : reading Q :=
  match _course self with Some x => Got (Value.value x) | None => NotSet end.

Definition satellites (self : obj) : reading Z :=
  if 0 <=? _satellites self then Got (_satellites self) else NotSet.

Definition hdop (self : obj) : reading Value.obj :=
  match _hdop self with Some x => Got x | None => NotSet end.

End Location.

(** ** class Data: framing and dispatch *)

(** What is printed: a line of text, or the repr of a location. *)
Inductive output : Type :=
| Text (s : string)
| Repr (l : Location.obj).

Module Data.

(** The attributes __data and __last_update, and what was printed so far.
    [__data] exists from the first call of [new_location] on; the serial
    port is the list of lines handed to [new_location], the clock is its
    argument [now]. *)
Record obj : Type := make {
  _data : Location.obj;
  _last_update : Q;
  printed : list output
}.

Definition with_data (l : Location.obj) (self : obj) : obj :=
  make l (_last_update self) (printed self).

Definition with_last_update (t : Q) (self : obj) : obj :=
  make (_data self) t (printed self).

Definition print (o : output) : M obj unit :=
  modify (fun self => make (_data self) (_last_update self) (printed self ++ [o])%list).

(** A method call on the attribute [__data]. *)
Definition on_data {A : Type} (m : M Location.obj A) : M obj A :=
  fun self =>
    let '(l, r) := m (_data self) in
    (with_data l self, r).

(** [d[len(d)-1:len(d)]] *)
Definition last_byte (d : bytes) : bytes :=
  bslice d (Z.of_nat (List.length d) - 1) (Z.of_nat (List.length d)).

(** [__update(data)]; Python's None and False are both [false] here, the
    callers drop the result. *)
Definition update `{Builtins} (now : Q) (data : list bytes) : M obj bool :=
  if (List.length data =? 0)%nat then ret false
  else
    let data := List.concat data in
    if negb (bytes_in (last_byte data) [[LF]; [CR]]) then
      print (Text (String.append "False data: " (bytes_str data))) ;;
      ret false
    else
      data <- (if negb (bytes_eqb (last_byte data) [LF])
               then lift (bytes_add_str data (String (ascii_of_byte LF) EmptyString))
               else ret data) ;;
      ok <- on_data (Location.set (bslice data 0 6)
                       (substr (bytes_str (bslice data 7 (Z.of_nat (List.length data) - 2)))
                               2 (-1))) ;;
      when ok (modify (with_last_update now)) ;;
      ret false.

(** The loop of [new_location] over the lines the port delivers; [data] is
    the sentence being assembled. *)
Fixpoint read_lines `{Builtins} (now : Q) (lines : list bytes) (data : list bytes)
  : M obj (list bytes) :=
  match lines with
  | [] => ret data
  | tmp_data :: rest =>
      if bytes_eqb (bslice tmp_data 0 1) [x24] then
        update now data ;;
        read_lines now rest [tmp_data]
      else if negb (List.length data =? 0)%nat then
        read_lines now rest (data ++ [tmp_data])%list
      else read_lines now rest data
  end.

(** [new_location(ttw)] *)
Definition new_location `{Builtins} (now : Q) (lines : list bytes) (ttw : Q)
  : M obj bool :=
  self <- get ;;
  if Qlt_bool (now - (_last_update self + ttw)) 0 then ret false
  else
    modify (with_data Location.init) ;;
    data <- read_lines now lines [] ;;
    update now data ;;
    self <- get ;;
    when (Location.valid (_data self)) (print (Repr (_data self))) ;;
    self <- get ;;
    ret (Location.valid (_data self)).

(** [get_location()] *)
Definition get_location (self : obj) : Location.obj := _data self.

End Data.

(** The sentence of the end-to-end example, as the port delivers it. *)
Definition gga_example : bytes :=
  (list_byte_of_string
     "$GPGGA,123519,4807.038,N,01131.000,E,1,08,0.9,545.4,M,46.9,M,,*47"
   ++ [CR; LF])%list.

(** The payload of that sentence, as [__update] hands it to [set]. *)
Definition gga_fields : string :=
  "123519,4807.038,N,01131.000,E,1,08,0.9,545.4,M,46.9,M,,*47".

(** The same sentence cut after the height, and with a garbled altitude. *)
Definition gga_short : string :=
  "123519,4807.038,N,01131.000,E,1,08,0.9,545.4,M,46.9".

Definition gga_garbled : string :=
  "123519,4807.038,N,01131.000,E,1,08,0.9,54x.4,M,46.9,M,,*47".

(** A VTG payload that passes the guard of its handler. *)
Definition vtg_fields : string := "054.7,M,T,034.4,005.5,054.7,N".

(** The garbled sentence and a sentence that ends in CR only, as the port
    delivers them. *)
Definition gga_garbled_line : bytes :=
  (list_byte_of_string "$GPGGA," ++ list_byte_of_string gga_garbled ++ [CR; LF])%list.

Definition cr_only_line : bytes :=
  (list_byte_of_string "$GPGGA," ++ list_byte_of_string gga_fields ++ [CR])%list.

Definition unterminated_line : bytes :=
  (list_byte_of_string "$GPGGA," ++ list_byte_of_string gga_fields)%list.

(** Speeds held as binary64 numbers: one in km/h, one as the RMC handler
    stores it, and two of a magnitude that no receiver reports. *)
Definition kmh_10 : Speed64.obj := Speed64.make 10 "kmh" zero_time.
Definition knots_22 : Speed64.obj := Speed64.make 22.4 "N" (12, 35, 19%Q).
Definition kmh_9e15 : Speed64.obj := Speed64.make 9e15 "kmh" zero_time.
Definition knots_123456789012 : Speed64.obj :=
  Speed64.make 123456789012.3 "knot" zero_time.

(** An RMC payload of six fields, a line that starts no sentence, the
    example sentence cut in two lines, a GLL sentence, and a sentence that
    ends in LF alone. *)
Definition rmc_short : string := "123519,A,4807.038,N,01131.000,E".

Definition junk_line : bytes := (list_byte_of_string "garbage" ++ [CR; LF])%list.

Definition gga_head : bytes := list_byte_of_string "$GPGGA,123519,4807.038,N,".

Definition gga_tail : bytes :=
  (list_byte_of_string "01131.000,E,1,08,0.9,545.4,M,46.9,M,,*47" ++ [CR; LF])%list.

Definition gll_line : bytes :=
  (list_byte_of_string "$GPGLL,4916.45,N,12311.12,W,225444,A,*1D" ++ [CR; LF])%list.

Definition lf_only_line : bytes := (list_byte_of_string "$GPGSV,1,1,05" ++ [LF])%list.

(** A [Data] object before its first decode cycle. *)
Definition fresh : Data.obj := Data.make Location.init 0 [].

(** ** Vocabulary of the properties *)

(** Lexicographic order on (hour, minute, second). *)
Definition lex_lt (a b : timestamp) : Prop :=
  let '(h1, m1, s1) := a in
  let '(h2, m2, s2) := b in
  h1 < h2 \/ (h1 = h2 /\ (m1 < m2 \/ (m1 = m2 /\ (s1 < s2)%Q))).

(** What a setter called with time [t] may do to a field: leave it, or
    store a measurement of time [t] over nothing or over a strictly older
    one. *)
Definition merged_at (t : timestamp) (old new : option Value.obj) : Prop :=
  new = old \/
  exists n, new = Some n /\ Value.time n = t /\
    (old = None \/ exists o, old = Some o /\ lex_lt (Value.time o) t).

(** The same across a whole sentence, whatever its time. *)
Definition merged (old new : option Value.obj) : Prop :=
  new = old \/
  exists n, new = Some n /\
    match old with
    | None => True
    | Some o => lex_lt (Value.time o) (Value.time n)
    end.

(** The recency rule on the five mergeable fields of a location. *)
Definition recency (s s' : Location.obj) : Prop :=
  merged (Location._lat s) (Location._lat s') /\
  merged (Location._long s) (Location._long s') /\
  merged (Location._speed s) (Location._speed s') /\
  merged (Location._course s) (Location._course s') /\
  merged (Location._hdop s) (Location._hdop s').

(** A count that is set stays as it is. *)
Definition count_kept (s s' : Location.obj) : Prop :=
  0 <= Location._satellites s -> Location._satellites s' = Location._satellites s.

(** The course is the same object before and after. *)
Definition course_kept (s s' : Location.obj) : Prop :=
  Location._course s' = Location._course s.

(** Altitude and height are the same objects before and after. *)
Definition alt_height_kept (s s' : Location.obj) : Prop :=
  Location._alt s' = Location._alt s /\ Location._height s' = Location._height s.

(** Whether [set] runs the body of a handler on this sentence. *)
Definition accepts (msgid : bytes) (data : list string) : bool :=
  if bytes_eqb msgid GPGGA then Location.gga_ok data
  else if bytes_eqb msgid GPGLL then Location.gll_ok data
  else if bytes_eqb msgid GPRMC then Location.rmc_ok data
  else if bytes_eqb msgid GPVTG then Location.vtg_ok data
  else if bytes_eqb msgid GPGSV then Location.gsv_ok data
  else false.

(** What [set] leaves behind when no handler body runs: only the validity
    flag is computed again. *)
Definition revalidated (self : Location.obj) : Location.obj :=
  Location.with_valid
    (if is_None (Location._lat self) || is_None (Location._long self)
     then false else true) self.

(** The payload that [__update] hands to [set] for a joined buffer. *)
Definition payload (data : bytes) : string :=
  substr (bytes_str (bslice data 7 (Z.of_nat (List.length data) - 2))) 2 (-1).

(** A computation relates every state to the state it leaves, also when
    it raises. *)
Definition keeps {S A : Type} (R : S -> S -> Prop) (m : M S A) : Prop :=
  forall s, R s (fst (m s)).

(** *** Vocabulary of the further properties *)

(** The part of [set] that runs the handler of the sentence. *)
Definition dispatch `{Builtins} (msgid : bytes) (data : list string)
  : M Location.obj unit :=
  if bytes_eqb msgid GPGGA then Location.gga data
  else if bytes_eqb msgid GPGLL then Location.gll data
  else if bytes_eqb msgid GPRMC then Location.rmc data
  else if bytes_eqb msgid GPVTG then Location.vtg data
  else if bytes_eqb msgid GPGSV then Location.gsv data
  else if bytes_eqb msgid GPMSS then ret tt
  else ret tt.

(** What is seen of a location through [view] is the same before and
    after. *)
Definition unchanged {A : Type} (view : Location.obj -> A) (s s' : Location.obj)
  : Prop :=
  view s' = view s.

(** No measurement that is set becomes unset. *)
Definition never_unset (s s' : Location.obj) : Prop :=
  (Location._lat s <> None -> Location._lat s' <> None) /\
  (Location._long s <> None -> Location._long s' <> None) /\
  (Location._alt s <> None -> Location._alt s' <> None) /\
  (Location._height s <> None -> Location._height s' <> None) /\
  (Location._speed s <> None -> Location._speed s' <> None) /\
  (Location._course s <> None -> Location._course s' <> None) /\
  (Location._hdop s <> None -> Location._hdop s' <> None).

(** A location flagged valid has both coordinates. *)
Definition coords_if_valid (s : Location.obj) : Prop :=
  Location._valid s = true ->
  Location._lat s <> None /\ Location._long s <> None.

(** A field holds nothing or an instance of class [k]. *)
Definition has_class (k : Value.kind) (field : option Value.obj) : Prop :=
  match field with
  | None => True
  | Some x => Value.cls x = k
  end.

(** Every measurement of a location is an instance of the class of its
    field. *)
Definition classes_ok (s : Location.obj) : Prop :=
  has_class Value.IsPosition (Location._lat s) /\
  has_class Value.IsPosition (Location._long s) /\
  has_class Value.IsDistance (Location._alt s) /\
  has_class Value.IsDistance (Location._height s) /\
  has_class Value.IsSpeed (Location._speed s) /\
  has_class Value.IsCourse (Location._course s) /\
  has_class Value.IsHDOP (Location._hdop s).

(** A line that starts a sentence: [tmp_data[0:1] == b'$']. *)
Definition is_start (line : bytes) : bool :=
  bytes_eqb (bslice line 0 1) [x24].

(** A byte that the repr of a bytes object shows as itself, whatever the
    quote: printable ASCII other than the single quote and the backslash. *)
Definition plain_byte (b : byte) : bool :=
  (32 <=? Byte.to_N b)%N && (Byte.to_N b <? 127)%N
  && negb (Byte.eqb b quote1) && negb (Byte.eqb b backslash).

(** [__update] on every buffer of a list, in order. *)
Fixpoint each_update `{Builtins} (now : Q) (buffers : list bytes) : M Data.obj unit :=
  match buffers with
  | [] => ret tt
  | b :: rest => Data.update now [b] ;; each_update now rest
  end.

(** *** Vocabulary of the rounding analysis *)

(** Two to the power [e]. *)
Definition bpow (e : Z) : Q := (2 ^ e)%Q.

Definition sgn (s : bool) : Q := if s then (- (1))%Q else 1%Q.

(** The rational that a finite binary64 number stands for (0 for an
    infinity and for NaN), on the specification of the format and on the
    floats themselves. *)
Definition SF2Q (x : spec_float) : Q :=
  match x with
  | S754_finite s m e => (sgn s * (inject_Z (Zpos m) * bpow e))%Q
  | _ => 0%Q
  end.

Definition SFfinite (x : spec_float) : bool :=
  match x with
  | S754_finite _ _ _ | S754_zero _ => true
  | _ => false
  end.

Definition to_Q (x : float) : Q := SF2Q (Prim2SF x).

(** A mantissa with its round and sticky bits brackets the real [x]: the
    two bits say whether [x] is the mantissa, below the middle to the next
    integer, the middle, or above it. *)
Definition locates (mrs : shr_record) (x : Q) : Prop :=
  let m := inject_Z (shr_m mrs) in
  match shr_r mrs, shr_s mrs with
  | false, false => (x == m)%Q
  | false, true => (m < x /\ x < m + (1 # 2))%Q
  | true, false => (x == m + (1 # 2))%Q
  | true, true => (m + (1 # 2) < x /\ x < m + 1)%Q
  end.

(** The same at exponent [e]: the bracketed real is [X / 2^e]. *)
Definition locates_at (mrs : shr_record) (e : Z) (X : Q) : Prop :=
  locates mrs (X * bpow (- e)).

(** ** Rounding of a product and of a quotient in binary64

    The operations on floats are specified by [SFmul] and [SFdiv] of the
    Standard Library (precision 53, largest exponent 1024).  Both round a
    mantissa with [binary_round_aux]; this part bounds the error of that
    rounding by half a unit in the last place. *)

(** *** Powers of two *)

Lemma two_nonzero : ~ (2 == 0)%Q.
Proof. discriminate. Qed.

Lemma bpow_pos e : (0 < bpow e)%Q.
Proof. unfold bpow. apply Qpower_0_lt. reflexivity. Qed.

Lemma bpow_add a b : (bpow (a + b) == bpow a * bpow b)%Q.
Proof. unfold bpow. apply Qpower_plus. exact two_nonzero. Qed.

Lemma bpow_le a b : a <= b -> (bpow a <= bpow b)%Q.
Proof. intros H. unfold bpow. apply Qpower_le_compat_l; [exact H | discriminate]. Qed.

Lemma bpow_Z n : 0 <= n -> (bpow n == inject_Z (2 ^ n))%Q.
Proof. intros H. unfold bpow. symmetry. apply (Zpower_Qpower 2 n H). Qed.

Lemma bpow_succ e : (bpow (e + 1) == 2 * bpow e)%Q.
Proof. rewrite bpow_add. change (bpow 1) with 2%Q. ring. Qed.

Lemma bpow_pred e : (bpow (e - 1) == (1 # 2) * bpow e)%Q.
Proof.
  replace e with ((e - 1) + 1) at 2 by ring. rewrite bpow_succ. field.
Qed.

Lemma bpow_opp_mul e : (bpow e * bpow (- e) == 1)%Q.
Proof. rewrite <- bpow_add. replace (e + - e) with 0 by ring. reflexivity. Qed.

(** *** Shifting a mantissa to the right *)

Lemma locates_ext mrs x y : (x == y)%Q -> locates mrs x -> locates mrs y.
Proof.
  intros E. unfold locates. destruct (shr_r mrs), (shr_s mrs); cbv zeta; intros H; lra.
Qed.

Lemma locates_range mrs x :
  locates mrs x -> (inject_Z (shr_m mrs) <= x /\ x < inject_Z (shr_m mrs) + 1)%Q.
Proof.
  unfold locates. destruct (shr_r mrs), (shr_s mrs); cbv zeta; intros H; lra.
Qed.

Lemma inject_xO p : (inject_Z (Zpos p~0) == 2 * inject_Z (Zpos p))%Q.
Proof. rewrite Pos2Z.inj_xO, inject_Z_mult. reflexivity. Qed.

Lemma inject_xI p : (inject_Z (Zpos p~1) == 2 * inject_Z (Zpos p) + 1)%Q.
Proof. rewrite Pos2Z.inj_xI, inject_Z_plus, inject_Z_mult. reflexivity. Qed.

Lemma shr_1_locates mrs x :
  0 <= shr_m mrs -> locates mrs x ->
  locates (shr_1 mrs) (x * (1 # 2)) /\ 0 <= shr_m (shr_1 mrs).
Proof.
  destruct mrs as [m r s]. cbn [shr_m]. intros Hm H.
  destruct m as [| [p | p |] | p]; [| | | | lia].
  - split; [| cbn; lia].
    unfold locates in *. cbn [shr_1 shr_m shr_r shr_s] in *.
    change (inject_Z 0) with 0%Q in *.
    destruct r, s; cbn [orb]; lra.
  - split; [| cbn; lia].
    unfold locates in *. cbn [shr_1 shr_m shr_r shr_s] in *.
    pose proof (inject_xI p) as E.
    destruct r, s; cbn [orb]; lra.
  - split; [| cbn; lia].
    unfold locates in *. cbn [shr_1 shr_m shr_r shr_s] in *.
    pose proof (inject_xO p) as E.
    destruct r, s; cbn [orb]; lra.
  - split; [| cbn; lia].
    unfold locates in *. cbn [shr_1 shr_m shr_r shr_s] in *.
    change (inject_Z 1) with 1%Q in *. change (inject_Z 0) with 0%Q.
    destruct r, s; cbn [orb]; lra.
Qed.

Lemma bpow_neg_xO p : (bpow (- Zpos p~0) == bpow (- Zpos p) * bpow (- Zpos p))%Q.
Proof. rewrite <- bpow_add. replace (- Zpos p~0) with (- Zpos p + - Zpos p) by lia. reflexivity. Qed.

Lemma bpow_neg_xI p :
  (bpow (- Zpos p~1) == (1 # 2) * (bpow (- Zpos p) * bpow (- Zpos p)))%Q.
Proof.
  rewrite <- bpow_add.
  replace (- Zpos p~1) with ((- Zpos p + - Zpos p) - 1) by lia.
  apply bpow_pred.
Qed.

Lemma iter_shr_1_locates p : forall mrs x,
  0 <= shr_m mrs -> locates mrs x ->
  locates (iter_pos shr_1 p mrs) (x * bpow (- Zpos p)) /\
  0 <= shr_m (iter_pos shr_1 p mrs).
Proof.
  induction p as [p IH | p IH |]; intros mrs x Hm H; cbn [iter_pos].
  - destruct (shr_1_locates mrs x Hm H) as [H1 Hm1].
    destruct (IH _ _ Hm1 H1) as [H2 Hm2].
    destruct (IH _ _ Hm2 H2) as [H3 Hm3].
    split; [| exact Hm3].
    eapply locates_ext; [| exact H3]. rewrite bpow_neg_xI. ring.
  - destruct (IH _ _ Hm H) as [H2 Hm2].
    destruct (IH _ _ Hm2 H2) as [H3 Hm3].
    split; [| exact Hm3].
    eapply locates_ext; [| exact H3]. rewrite bpow_neg_xO. ring.
  - destruct (shr_1_locates mrs x Hm H) as [H1 Hm1].
    split; [| exact Hm1].
    eapply locates_ext; [| exact H1]. reflexivity.
Qed.

Lemma shr_locates mrs e n X :
  0 <= shr_m mrs -> locates_at mrs e X ->
  locates_at (fst (shr mrs e n)) (snd (shr mrs e n)) X /\
  0 <= shr_m (fst (shr mrs e n)) /\
  snd (shr mrs e n) = e + Z.max n 0 /\
  (n <= 0 -> fst (shr mrs e n) = mrs).
Proof.
  intros Hm H. unfold shr. destruct n as [| p | p]; cbn [fst snd].
  - split; [exact H |]. split; [exact Hm |]. split; [lia | reflexivity].
  - destruct (iter_shr_1_locates p mrs _ Hm H) as [H1 Hm1].
    split; [| split; [exact Hm1 | split; [lia | lia]]].
    unfold locates_at. eapply locates_ext; [| exact H1].
    replace (- (e + Zpos p)) with (- e + - Zpos p) by lia. rewrite bpow_add. ring.
  - split; [exact H |]. split; [exact Hm |]. split; [lia | reflexivity].
Qed.

(** *** Number of digits, rounding to nearest even *)

Lemma digits2_size p : digits2_pos p = Pos.size p.
Proof. induction p; cbn; congruence. Qed.

Lemma digits2_bounds p :
  2 ^ (Zpos (digits2_pos p) - 1) <= Zpos p < 2 ^ Zpos (digits2_pos p).
Proof.
  rewrite digits2_size. split.
  - pose proof (Pos.size_le p) as H.
    assert (H' : 2 ^ Zpos (Pos.size p) <= 2 * Zpos p).
    { rewrite <- Pos2Z.inj_pow. change 2 with (Zpos 2) at 1.
      change (Zpos 2 * Zpos p) with (Zpos (p~0)). apply Pos2Z.pos_le_pos. exact H. }
    replace (Zpos (Pos.size p)) with (Z.succ (Zpos (Pos.size p) - 1)) in H' by lia.
    rewrite Z.pow_succ_r in H' by lia. lia.
  - pose proof (Pos.size_gt p) as H.
    rewrite <- Pos2Z.inj_pow. apply Pos2Z.pos_lt_pos. exact H.
Qed.

Lemma round_nearest_even_spec mrs x :
  locates mrs x ->
  let m1 := round_nearest_even (shr_m mrs) (loc_of_shr_record mrs) in
  (Qabs (inject_Z m1 - x) <= 1 # 2)%Q /\
  shr_m mrs <= m1 <= shr_m mrs + 1 /\
  (shr_r mrs = false -> shr_s mrs = false -> m1 = shr_m mrs).
Proof.
  destruct mrs as [m r s]. unfold locates. cbn [shr_m shr_r shr_s loc_of_shr_record].
  intros H.
  destruct r, s; cbn [round_nearest_even]; cbv zeta.
  - split; [| split; [lia | discriminate]].
    rewrite inject_Z_plus. change (inject_Z 1) with 1%Q.
    apply Qabs_Qle_condition. lra.
  - split; [| split; [| discriminate]].
    + destruct (Z.even m).
      * apply Qabs_Qle_condition. lra.
      * rewrite inject_Z_plus. change (inject_Z 1) with 1%Q.
        apply Qabs_Qle_condition. lra.
    + destruct (Z.even m); lia.
  - split; [| split; [lia | discriminate]].
    apply Qabs_Qle_condition. lra.
  - split; [| split; [lia | reflexivity]].
    apply Qabs_Qle_condition. lra.
Qed.

Lemma shr_m_of_loc m l : shr_m (shr_record_of_loc m l) = m.
Proof. destruct l as [| []]; reflexivity. Qed.

Lemma Zdigits2_bounds m : 0 <= m -> 0 <= Zdigits2 m /\ m + 1 <= 2 ^ Zdigits2 m.
Proof.
  intros Hm. destruct m as [| p | p]; [cbn; lia | | lia].
  cbn [Zdigits2]. pose proof (digits2_bounds p). lia.
Qed.

Lemma Zdigits2_lower m : 0 < m -> 2 ^ (Zdigits2 m - 1) <= m.
Proof.
  intros Hm. destruct m as [| p | p]; [lia | | lia].
  cbn [Zdigits2]. pose proof (digits2_bounds p). lia.
Qed.

Lemma inject_Z_lt_bpow m n : 0 <= n -> (inject_Z m < bpow n)%Q -> m < 2 ^ n.
Proof. intros Hn H. rewrite (bpow_Z n Hn) in H. rewrite Zlt_Qlt. exact H. Qed.

Lemma fexp_ge e : e - 53 <= fexp prec emax e /\ -1074 <= fexp prec emax e.
Proof. unfold fexp, SpecFloat.emin, prec, emax. lia. Qed.

Lemma fexp_cases e :
  (fexp prec emax e = e - 53 /\ -1074 <= e - 53) \/ (fexp prec emax e = -1074 /\ e - 53 <= -1074).
Proof. unfold fexp, SpecFloat.emin, prec, emax. lia. Qed.

(** The second shift of [binary_round_aux] only renormalises: it moves the
    mantissa 2^53, which rounding up can produce, to 2^52. *)
Lemma second_shift m1 e1 :
  0 <= m1 <= 2 ^ 53 -> -1074 <= e1 ->
  let r := shr_fexp prec emax m1 e1 loc_Exact in
  0 <= shr_m (fst r) /\
  (inject_Z (shr_m (fst r)) * bpow (snd r) == inject_Z m1 * bpow e1)%Q /\
  snd r <= e1 + 1.
Proof.
  intros Hm He. unfold shr_fexp. cbn [shr_record_of_loc].
  destruct (Z.eq_dec m1 (2 ^ 53)) as [-> | Hne].
  - replace (fexp prec emax (Zdigits2 (2 ^ 53) + e1) - e1) with 1
      by (change (Zdigits2 (2 ^ 53)) with 54; destruct (fexp_cases (54 + e1)); lia).
    cbv zeta. cbn [shr fst snd iter_pos].
    change (shr_1 {| shr_m := 2 ^ 53; shr_r := false; shr_s := false |})
      with {| shr_m := 2 ^ 52; shr_r := false; shr_s := false |}.
    cbn [shr_m]. split; [lia |]. split; [| lia].
    rewrite bpow_succ. change (inject_Z (2 ^ 53)) with (2 * inject_Z (2 ^ 52))%Q. ring.
  - assert (Hd : Zdigits2 m1 <= 53).
    { destruct (Z.eq_dec m1 0) as [-> | Hz]; [cbn; lia |].
      pose proof (Zdigits2_lower m1 ltac:(lia)) as Hl.
      destruct (Z.le_gt_cases (Zdigits2 m1) 53) as [Hle | Hgt]; [exact Hle |].
      assert (2 ^ 53 <= 2 ^ (Zdigits2 m1 - 1)) by (apply Z.pow_le_mono_r; lia).
      lia. }
    destruct (shr_locates {| shr_m := m1; shr_r := false; shr_s := false |} e1
                (fexp prec emax (Zdigits2 m1 + e1) - e1) (inject_Z m1 * bpow e1))
      as (_ & _ & Hsnd & Hfst).
    + cbn; lia.
    + unfold locates_at, locates. cbn [shr_m shr_r shr_s].
      rewrite <- Qmult_assoc, bpow_opp_mul. ring.
    + assert (Hn : fexp prec emax (Zdigits2 m1 + e1) - e1 <= 0)
        by (destruct (fexp_cases (Zdigits2 m1 + e1)); lia).
      cbv zeta. rewrite Hsnd, (Hfst Hn). cbn [shr_m].
      replace (e1 + Z.max (fexp prec emax (Zdigits2 m1 + e1) - e1) 0) with e1 by lia.
      split; [lia |]. split; [reflexivity | lia].
Qed.

Lemma Qmult_lt_r' a b c : (0 < c)%Q -> (a < b)%Q -> (a * c < b * c)%Q.
Proof. intros Hc H. apply Qmult_lt_compat_r; assumption. Qed.

Lemma Qmult_le_r' a b c : (0 <= c)%Q -> (a <= b)%Q -> (a * c <= b * c)%Q.
Proof. intros Hc H. apply Qmult_le_compat_r; assumption. Qed.

(** [binary_round_aux] on a mantissa that brackets [X] at exponent [ex]
    gives a finite number [m1 * 2^E] with [m1] within one half of
    [X / 2^E], and [X] itself when nothing had to be shifted out. *)
Lemma binary_round_aux_spec sx mx ex lx X :
  0 <= mx ->
  locates_at (shr_record_of_loc mx lx) ex X ->
  Z.max (fexp prec emax (Zdigits2 mx + ex)) ex + 1 <= 971 ->
  SFfinite (binary_round_aux prec emax sx mx ex lx) = true /\
  exists m1 : Z,
    (SF2Q (binary_round_aux prec emax sx mx ex lx)
     == sgn sx * (inject_Z m1 * bpow (Z.max (fexp prec emax (Zdigits2 mx + ex)) ex)))%Q /\
    (Qabs (inject_Z m1 - X * bpow (- Z.max (fexp prec emax (Zdigits2 mx + ex)) ex))
     <= 1 # 2)%Q /\
    (fexp prec emax (Zdigits2 mx + ex) <= ex -> lx = loc_Exact ->
     (inject_Z m1 == X * bpow (- ex))%Q).
Proof.
  intros Hmx Hloc Hov.
  set (E := Z.max (fexp prec emax (Zdigits2 mx + ex)) ex) in *.
  remember (binary_round_aux prec emax sx mx ex lx) as z eqn:Hz.
  unfold binary_round_aux in Hz. unfold shr_fexp at 1 in Hz.
  set (n := fexp prec emax (Zdigits2 mx + ex) - ex) in *.
  revert Hz.
  destruct (shr_locates (shr_record_of_loc mx lx) ex n X) as (Hl1 & Hm1 & He1 & Hsame);
    [rewrite shr_m_of_loc; exact Hmx | exact Hloc |].
  destruct (shr (shr_record_of_loc mx lx) ex n) as [mrs1 e1].
  cbn [fst snd] in Hl1, Hm1, He1, Hsame.
  assert (HeE : e1 = E) by (unfold E, n in *; lia).
  clear He1. subst e1.
  destruct (Zdigits2_bounds mx Hmx) as [Hd0 Hd1].
  destruct (fexp_ge (Zdigits2 mx + ex)) as [Hf1 Hf2].
  (* the shifted mantissa has at most 53 digits *)
  assert (Hm1' : shr_m mrs1 < 2 ^ 53).
  { apply inject_Z_lt_bpow; [lia |].
    destruct (locates_range _ _ Hl1) as [Hlo _].
    destruct (locates_range _ _ Hloc) as [_ Hhi]. rewrite shr_m_of_loc in Hhi.
    assert (Hx : (X * bpow (- ex) < bpow (Zdigits2 mx))%Q).
    { rewrite (bpow_Z _ Hd0).
      eapply Qlt_le_trans; [exact Hhi |].
      change 1%Q with (inject_Z 1). rewrite <- inject_Z_plus. rewrite <- Zle_Qle. exact Hd1. }
    assert (Hx' : (X * bpow (- E) < bpow (Zdigits2 mx + ex - E))%Q).
    { replace (- E) with (- ex + (ex - E)) by lia.
      replace (Zdigits2 mx + ex - E) with (Zdigits2 mx + (ex - E)) by lia.
      rewrite !bpow_add, Qmult_assoc.
      apply Qmult_lt_r'; [apply bpow_pos | exact Hx]. }
    eapply Qle_lt_trans; [exact Hlo |].
    eapply Qlt_le_trans; [exact Hx' |].
    apply bpow_le. unfold E. lia. }
  destruct (round_nearest_even_spec mrs1 _ Hl1) as (Hr1 & Hr2 & Hr3).
  set (m1 := round_nearest_even (shr_m mrs1) (loc_of_shr_record mrs1)) in *.
  destruct (second_shift m1 E) as (Hs1 & Hs2 & Hs3); [lia | unfold E; lia |].
  destruct (shr_fexp prec emax m1 E loc_Exact) as [mrs2 e2].
  cbn [fst snd] in Hs1, Hs2, Hs3.
  assert (Hexact : fexp prec emax (Zdigits2 mx + ex) <= ex -> lx = loc_Exact ->
                   (inject_Z m1 == X * bpow (- ex))%Q).
  { intros Hle Hlx. assert (Hn : n <= 0) by (unfold n; lia).
    rewrite (Hsame Hn) in *. subst lx. cbn [shr_record_of_loc shr_r shr_s shr_m] in *.
    rewrite (Hr3 eq_refl eq_refl).
    unfold locates_at, locates in Hloc. cbn [shr_r shr_s shr_m] in Hloc.
    symmetry. exact Hloc. }
  destruct (shr_m mrs2) as [| p | p] eqn:Hm2; [| | lia].
  - intros ->. split; [reflexivity |]. exists m1.
    split; [| split; [exact Hr1 | exact Hexact]].
    cbn [SF2Q]. change (inject_Z 0) with 0%Q in Hs2. rewrite <- Hs2. ring.
  - assert (He2 : (e2 <=? emax - prec) = true) by (apply Z.leb_le; unfold emax, prec; lia).
    rewrite He2. intros ->. split; [reflexivity |]. exists m1.
    split; [| split; [exact Hr1 | exact Hexact]].
    cbn [SF2Q]. rewrite Hs2. reflexivity.
Qed.

(** *** The error relative to the exact result *)

Lemma Qabs_sgn s a : (Qabs (sgn s * a) == Qabs a)%Q.
Proof.
  destruct s; unfold sgn.
  - setoid_replace (- (1) * a)%Q with (- a)%Q by ring. apply Qabs_opp.
  - setoid_replace (1 * a)%Q with a by ring. reflexivity.
Qed.

Lemma sgn_xorb a b : (sgn (xorb a b) == sgn a * sgn b)%Q.
Proof. destruct a, b; reflexivity. Qed.

Lemma bpow_lt_inv a b : (bpow a < bpow b)%Q -> a < b.
Proof.
  intros H. destruct (Z.lt_ge_cases a b) as [Hlt | Hge]; [exact Hlt |].
  apply bpow_le in Hge. lra.
Qed.

Lemma mantissa_lower m e : 0 < m -> (bpow (Zdigits2 m - 1 + e) <= inject_Z m * bpow e)%Q.
Proof.
  intros Hm. pose proof (Zdigits2_lower m Hm) as Hl.
  destruct (Zdigits2_bounds m ltac:(lia)) as [Hd0 _].
  assert (Hd : 0 <= Zdigits2 m - 1).
  { destruct m as [| p | p]; [lia | | lia]. cbn [Zdigits2]. lia. }
  rewrite bpow_add. apply Qmult_le_r'; [apply Qlt_le_weak, bpow_pos |].
  rewrite (bpow_Z _ Hd). rewrite <- Zle_Qle. exact Hl.
Qed.

(** Half a unit in the last place, relative to the rounded quantity. *)
Lemma half_ulp_rel E X :
  (0 <= X)%Q ->
  E <= -1074 \/ (bpow (E + 52) <= X)%Q ->
  (bpow (E - 1) <= bpow (-53) * X + bpow (-1075))%Q.
Proof.
  intros HX [Hsub | Hnorm].
  - assert (H : (bpow (E - 1) <= bpow (-1075))%Q) by (apply bpow_le; lia).
    pose proof (bpow_pos (-53)) as Hu.
    assert (0 <= bpow (-53) * X)%Q by (apply Qmult_le_0_compat; lra).
    lra.
  - assert (H : (bpow (E - 1) == bpow (-53) * bpow (E + 52))%Q).
    { rewrite <- bpow_add. replace (-53 + (E + 52)) with (E - 1) by lia. reflexivity. }
    pose proof (bpow_pos (-1075)) as Heta.
    assert (bpow (-53) * bpow (E + 52) <= bpow (-53) * X)%Q.
    { rewrite !(Qmult_comm (bpow (-53))).
      apply Qmult_le_r'; [apply Qlt_le_weak, bpow_pos | exact Hnorm]. }
    lra.
Qed.

Lemma round_error m1 E X :
  (Qabs (inject_Z m1 - X * bpow (- E)) <= 1 # 2)%Q ->
  (Qabs (inject_Z m1 * bpow E - X) <= bpow (E - 1))%Q.
Proof.
  intros H.
  assert (HE : (inject_Z m1 * bpow E - X == (inject_Z m1 - X * bpow (- E)) * bpow E)%Q).
  { setoid_replace ((inject_Z m1 - X * bpow (- E)) * bpow E)%Q
      with (inject_Z m1 * bpow E - X * (bpow E * bpow (- E)))%Q by ring.
    rewrite bpow_opp_mul. ring. }
  rewrite HE, Qabs_Qmult.
  rewrite (Qabs_pos (bpow E)) by (apply Qlt_le_weak, bpow_pos).
  rewrite bpow_pred.
  apply Qmult_le_r'; [apply Qlt_le_weak, bpow_pos | exact H].
Qed.

(** The rounding error is at most 2^-53 of the exact result, or 2^-1075
    where the result is subnormal. *)
Lemma binary_round_aux_rel sx mx ex lx X :
  0 <= mx -> (0 <= X)%Q ->
  locates_at (shr_record_of_loc mx lx) ex X ->
  Z.max (fexp prec emax (Zdigits2 mx + ex)) ex + 1 <= 971 ->
  (Z.max (fexp prec emax (Zdigits2 mx + ex)) ex <= -1074 \/
   (bpow (Z.max (fexp prec emax (Zdigits2 mx + ex)) ex + 52) <= X)%Q) \/
  (fexp prec emax (Zdigits2 mx + ex) <= ex /\ lx = loc_Exact) ->
  SFfinite (binary_round_aux prec emax sx mx ex lx) = true /\
  (Qabs (SF2Q (binary_round_aux prec emax sx mx ex lx) - sgn sx * X)
   <= bpow (-53) * X + bpow (-1075))%Q.
Proof.
  intros Hmx HX Hloc Hov Hcase.
  destruct (binary_round_aux_spec sx mx ex lx X Hmx Hloc Hov) as (Hfin & m1 & Hv & Herr & Hex).
  split; [exact Hfin |].
  set (E := Z.max (fexp prec emax (Zdigits2 mx + ex)) ex) in *.
  rewrite Hv.
  setoid_replace (sgn sx * (inject_Z m1 * bpow E) - sgn sx * X)%Q
    with (sgn sx * (inject_Z m1 * bpow E - X))%Q by ring.
  rewrite Qabs_sgn.
  destruct Hcase as [Hrel | [Hle Hlx]].
  - eapply Qle_trans; [apply round_error; exact Herr |].
    apply half_ulp_rel; assumption.
  - assert (HEx : E = ex) by (unfold E; lia).
    specialize (Hex Hle Hlx).
    assert (Hz : (inject_Z m1 * bpow E - X == 0)%Q).
    { rewrite HEx, Hex. rewrite <- Qmult_assoc.
      rewrite (Qmult_comm (bpow (- ex))), bpow_opp_mul. ring. }
    rewrite Hz. cbn [Qabs Z.abs Qnum Qden].
    pose proof (bpow_pos (-53)). pose proof (bpow_pos (-1075)).
    assert (0 <= bpow (-53) * X)%Q by (apply Qmult_le_0_compat; lra).
    change (Qabs 0) with 0%Q. lra.
Qed.

(** *** Product and quotient *)

Lemma zero_within X : (0 <= X)%Q -> (Qabs (0 - 0) <= bpow (-53) * X + bpow (-1075))%Q.
Proof.
  intros HX. pose proof (bpow_pos (-53)). pose proof (bpow_pos (-1075)).
  assert (0 <= bpow (-53) * X)%Q by (apply Qmult_le_0_compat; lra).
  change (Qabs (0 - 0)) with 0%Q. lra.
Qed.

Lemma SFmul_err x y :
  SFfinite x = true -> SFfinite y = true ->
  (Qabs (SF2Q x * SF2Q y) < bpow 970)%Q ->
  SFfinite (SFmul prec emax x y) = true /\
  (Qabs (SF2Q (SFmul prec emax x y) - SF2Q x * SF2Q y)
   <= bpow (-53) * Qabs (SF2Q x * SF2Q y) + bpow (-1075))%Q.
Proof.
  intros Hx Hy Hbound.
  destruct x as [sx | sx | | sx mx ex]; try discriminate Hx;
    destruct y as [sy | sy | | sy my ey]; try discriminate Hy; cbn [SFmul].
  - split; [reflexivity |]. cbn [SF2Q].
    setoid_replace (0 * 0)%Q with 0%Q by ring. apply zero_within; exact (Qabs_nonneg 0).
  - split; [reflexivity |]. cbn [SF2Q].
    setoid_replace (0 * (sgn sy * (inject_Z (Zpos my) * bpow ey)))%Q with 0%Q by ring.
    apply zero_within; exact (Qabs_nonneg 0).
  - split; [reflexivity |]. cbn [SF2Q].
    setoid_replace (sgn sx * (inject_Z (Zpos mx) * bpow ex) * 0)%Q with 0%Q by ring.
    apply zero_within; exact (Qabs_nonneg 0).
  - set (X := (inject_Z (Zpos (mx * my)) * bpow (ex + ey))%Q).
    assert (HXpos : (0 < X)%Q).
    { unfold X. apply Qmult_lt_0_compat; [| apply bpow_pos].
      change 0%Q with (inject_Z 0). rewrite <- Zlt_Qlt. lia. }
    assert (Hprod : (SF2Q (S754_finite sx mx ex) * SF2Q (S754_finite sy my ey)
                     == sgn (xorb sx sy) * X)%Q).
    { cbn [SF2Q]. unfold X. rewrite sgn_xorb, Pos2Z.inj_mul, inject_Z_mult, bpow_add. ring. }
    rewrite Hprod in *. rewrite Qabs_sgn in *.
    rewrite (Qabs_pos X) in * by lra.
    pose proof (mantissa_lower (Zpos (mx * my)) (ex + ey) ltac:(lia)) as Hlow.
    fold X in Hlow.
    set (d := Zdigits2 (Zpos (mx * my))) in *.
    assert (Hd : 1 <= d) by (unfold d; cbn [Zdigits2]; lia).
    assert (Hmag : d - 1 + (ex + ey) < 970) by (apply bpow_lt_inv; lra).
    destruct (fexp_cases (d + (ex + ey))) as [[Hf Hn] | [Hf Hn]].
    + apply binary_round_aux_rel.
      * lia.
      * lra.
      * unfold locates_at, locates. cbn [shr_record_of_loc shr_m shr_r shr_s].
        unfold X. rewrite <- Qmult_assoc, bpow_opp_mul. ring.
      * fold d. lia.
      * fold d. destruct (Z.le_gt_cases (fexp prec emax (d + (ex + ey))) (ex + ey)) as [Hle | Hgt].
        -- right. split; [exact Hle | reflexivity].
        -- left. right. eapply Qle_trans; [| exact Hlow].
           apply bpow_le. lia.
    + apply binary_round_aux_rel.
      * lia.
      * lra.
      * unfold locates_at, locates. cbn [shr_record_of_loc shr_m shr_r shr_s].
        unfold X. rewrite <- Qmult_assoc, bpow_opp_mul. ring.
      * fold d. lia.
      * fold d. destruct (Z.le_gt_cases (fexp prec emax (d + (ex + ey))) (ex + ey)) as [Hle | Hgt].
        -- right. split; [exact Hle | reflexivity].
        -- left. left. lia.
Qed.

Lemma inject_Z_pos_lt m : 0 < m -> (0 < inject_Z m)%Q.
Proof. intros H. change 0%Q with (inject_Z 0). rewrite <- Zlt_Qlt. exact H. Qed.

(** Quotient and remainder of the integer division bracket the exact
    quotient. *)
Lemma new_location_locates q r m :
  0 <= r < m ->
  locates (shr_record_of_loc q (SpecFloat.new_location m r)) (inject_Z q + inject_Z r / inject_Z m).
Proof.
  intros Hr.
  assert (HM : (0 < inject_Z m)%Q) by (apply inject_Z_pos_lt; lia).
  assert (Hlt : 2 * r < m -> (inject_Z r / inject_Z m < 1 # 2)%Q).
  { intros H. apply Qlt_shift_div_r; [exact HM |].
    assert (H' : (inject_Z (2 * r) < inject_Z m)%Q) by (rewrite <- Zlt_Qlt; exact H).
    rewrite inject_Z_mult in H'. change (inject_Z 2) with 2%Q in H'. lra. }
  assert (Hgt : m < 2 * r -> ((1 # 2) < inject_Z r / inject_Z m)%Q).
  { intros H. apply Qlt_shift_div_l; [exact HM |].
    assert (H' : (inject_Z m < inject_Z (2 * r))%Q) by (rewrite <- Zlt_Qlt; exact H).
    rewrite inject_Z_mult in H'. change (inject_Z 2) with 2%Q in H'. lra. }
  assert (Heq : 2 * r = m -> (inject_Z r / inject_Z m == 1 # 2)%Q).
  { intros H. rewrite <- H. rewrite inject_Z_mult. change (inject_Z 2) with 2%Q.
    assert (Hr0 : 0 < r) by lia. apply inject_Z_pos_lt in Hr0.
    field. lra. }
  assert (Hpos : 0 < r -> (0 < inject_Z r / inject_Z m)%Q).
  { intros H. apply Qlt_shift_div_l; [exact HM |]. apply inject_Z_pos_lt in H. lra. }
  assert (Hone : (inject_Z r / inject_Z m < 1)%Q).
  { apply Qlt_shift_div_r; [exact HM |].
    assert (H' : (inject_Z r < inject_Z m)%Q) by (rewrite <- Zlt_Qlt; lia). lra. }
  unfold SpecFloat.new_location, new_location_even, new_location_odd.
  destruct (Z.even m) eqn:Hev.
  - destruct (Z.eqb_spec r 0) as [-> | Hnz].
    + unfold locates. cbn [shr_record_of_loc shr_m shr_r shr_s].
      change (inject_Z 0) with 0%Q. unfold Qdiv. ring.
    + destruct (Z.compare_spec (2 * r) m) as [H | H | H];
        unfold locates; cbn [shr_record_of_loc shr_m shr_r shr_s].
      * specialize (Heq H). lra.
      * specialize (Hlt H). specialize (Hpos ltac:(lia)). lra.
      * specialize (Hgt H). lra.
  - assert (Hodd : 2 * r <> m).
    { intros H. rewrite <- H in Hev. rewrite Z.even_mul in Hev. discriminate Hev. }
    destruct (Z.eqb_spec r 0) as [-> | Hnz].
    + unfold locates. cbn [shr_record_of_loc shr_m shr_r shr_s].
      change (inject_Z 0) with 0%Q. unfold Qdiv. ring.
    + destruct (Z.compare_spec (2 * r + 1) m) as [H | H | H];
        unfold locates; cbn [shr_record_of_loc shr_m shr_r shr_s].
      * specialize (Hlt ltac:(lia)). specialize (Hpos ltac:(lia)). lra.
      * specialize (Hlt ltac:(lia)). specialize (Hpos ltac:(lia)). lra.
      * specialize (Hgt ltac:(lia)). lra.
Qed.

Lemma div_core_mantissa mx s :
  0 <= s ->
  match s with
  | Zpos _ => Z.shiftl (Zpos mx) s
  | Z0 => Zpos mx
  | Zneg _ => 0
  end = Zpos mx * 2 ^ s.
Proof.
  intros Hs. destruct s as [| p | p]; [cbn; lia | | lia].
  apply Z.shiftl_mul_pow2. lia.
Qed.

Lemma SFdiv_err x sy my ey :
  SFfinite x = true ->
  (Qabs (SF2Q x / SF2Q (S754_finite sy my ey)) < bpow 970)%Q ->
  SFfinite (SFdiv prec emax x (S754_finite sy my ey)) = true /\
  (Qabs (SF2Q (SFdiv prec emax x (S754_finite sy my ey))
         - SF2Q x / SF2Q (S754_finite sy my ey))
   <= bpow (-53) * Qabs (SF2Q x / SF2Q (S754_finite sy my ey)) + bpow (-1075))%Q.
Proof.
  intros Hx Hbound.
  destruct x as [sx | sx | | sx mx ex]; try discriminate Hx; cbn [SFdiv].
  - split; [reflexivity |]. cbn [SF2Q].
    assert (H0 : (0 / (sgn sy * (inject_Z (Zpos my) * bpow ey)) == 0)%Q)
      by (unfold Qdiv; ring).
    rewrite H0. apply zero_within; exact (Qabs_nonneg 0).
  - pose proof (inject_Z_pos_lt (Zpos mx) ltac:(lia)) as HMx.
    pose proof (inject_Z_pos_lt (Zpos my) ltac:(lia)) as HMy.
    pose proof (bpow_pos ex) as Hbx. pose proof (bpow_pos ey) as Hby.
    set (X := ((inject_Z (Zpos mx) * bpow ex) / (inject_Z (Zpos my) * bpow ey))%Q).
    assert (HYpos : (0 < inject_Z (Zpos my) * bpow ey)%Q)
      by (apply Qmult_lt_0_compat; assumption).
    assert (HXpos : (0 < X)%Q).
    { unfold X. apply Qlt_shift_div_l; [exact HYpos |].
      assert (0 < inject_Z (Zpos mx) * bpow ex)%Q by (apply Qmult_lt_0_compat; assumption).
      lra. }
    assert (Hquot : (SF2Q (S754_finite sx mx ex) / SF2Q (S754_finite sy my ey)
                     == sgn (xorb sx sy) * X)%Q).
    { cbn [SF2Q]. unfold X. rewrite sgn_xorb.
      destruct sx, sy; unfold sgn; field; lra. }
    rewrite Hquot in *. rewrite Qabs_sgn in *. rewrite (Qabs_pos X) in * by lra.
    unfold SFdiv_core_binary.
    set (d1 := Zdigits2 (Zpos mx)). set (d2 := Zdigits2 (Zpos my)).
    set (e' := Z.min (fexp prec emax (d1 + ex - (d2 + ey))) (ex - ey)).
    set (s := ex - ey - e').
    assert (Hs : 0 <= s) by (unfold s, e'; lia).
    rewrite (div_core_mantissa mx s Hs).
    pose proof (Z_div_mod (Zpos mx * 2 ^ s) (Zpos my) ltac:(lia)) as Hdm.
    destruct (Z.div_eucl (Zpos mx * 2 ^ s) (Zpos my)) as [q r].
    destruct Hdm as [Hdm Hr].
    assert (Hpow : 0 < 2 ^ s) by (apply Z.pow_pos_nonneg; lia).
    assert (Hq : 0 <= q) by nia.
    (* the quotient and remainder bracket X at exponent e' *)
    assert (Hval : (X * bpow (- e') == inject_Z q + inject_Z r / inject_Z (Zpos my))%Q).
    { assert (Hm' : (inject_Z (Zpos mx) * bpow s
                     == inject_Z (Zpos my) * inject_Z q + inject_Z r)%Q).
      { rewrite (bpow_Z s Hs), <- !inject_Z_mult, <- inject_Z_plus, Hdm. reflexivity. }
      assert (Hsplit : (bpow ex == bpow ey * bpow s * bpow e')%Q).
      { rewrite <- !bpow_add. replace (ey + s + e') with ex by (unfold s; lia). reflexivity. }
      pose proof (bpow_opp_mul e') as He'.
      unfold X. rewrite Hsplit.
      setoid_replace (inject_Z (Zpos mx) * (bpow ey * bpow s * bpow e')
                      / (inject_Z (Zpos my) * bpow ey) * bpow (- e'))%Q
        with ((inject_Z (Zpos mx) * bpow s) / inject_Z (Zpos my)
              * (bpow e' * bpow (- e')))%Q by (field; lra).
      rewrite He', Hm'. field. lra. }
    assert (Hloc : locates_at (shr_record_of_loc q (SpecFloat.new_location (Zpos my) r)) e' X).
    { unfold locates_at. eapply locates_ext; [symmetry; exact Hval |].
      apply new_location_locates. exact Hr. }
    (* lower bounds of X *)
    assert (HXq : (inject_Z q * bpow e' <= X)%Q).
    { assert (Ht : (0 <= inject_Z r / inject_Z (Zpos my))%Q).
      { apply Qle_shift_div_l; [exact HMy |].
        assert (0 <= inject_Z r)%Q by (change 0%Q with (inject_Z 0); rewrite <- Zle_Qle; lia).
        lra. }
      assert (Hx1 : (X == (X * bpow (- e')) * bpow e')%Q).
      { rewrite <- Qmult_assoc, (Qmult_comm (bpow (- e'))), bpow_opp_mul. ring. }
      rewrite Hx1. apply Qmult_le_r'; [apply Qlt_le_weak, bpow_pos |]. lra. }
    assert (HXd : (bpow (d1 - 1 + ex - (d2 + ey)) <= X)%Q).
    { pose proof (mantissa_lower (Zpos mx) ex ltac:(lia)) as Hlow. fold d1 in Hlow.
      destruct (Zdigits2_bounds (Zpos my) ltac:(lia)) as [Hd2 Hup]. fold d2 in Hd2, Hup.
      assert (Hmy : (inject_Z (Zpos my) * bpow ey <= bpow (d2 + ey))%Q).
      { rewrite bpow_add. apply Qmult_le_r'; [lra |].
        rewrite (bpow_Z d2 Hd2), <- Zle_Qle. lia. }
      unfold X. apply Qle_shift_div_l; [exact HYpos |].
      eapply Qle_trans; [| exact Hlow].
      assert (Hsum : (bpow (d1 - 1 + ex)
                      == bpow (d1 - 1 + ex - (d2 + ey)) * bpow (d2 + ey))%Q).
      { rewrite <- bpow_add. replace (d1 - 1 + ex - (d2 + ey) + (d2 + ey))
          with (d1 - 1 + ex) by lia. reflexivity. }
      rewrite Hsum.
      rewrite !(Qmult_comm (bpow (d1 - 1 + ex - (d2 + ey)))).
      apply Qmult_le_r'; [apply Qlt_le_weak, bpow_pos | exact Hmy]. }
    set (dq := Zdigits2 q).
    assert (Hcases :
      Z.max (fexp prec emax (dq + e')) e' <= -1074 \/
      (bpow (Z.max (fexp prec emax (dq + e')) e' + 52) <= X)%Q).
    { destruct (Z.le_gt_cases (fexp prec emax (dq + e')) e') as [Hle | Hgt].
      - destruct (Z.le_gt_cases e' (-1074)) as [Hsub | Hnorm]; [left; lia |].
        right. rewrite Z.max_r by lia.
        eapply Qle_trans; [| exact HXd]. apply bpow_le.
        destruct (fexp_cases (d1 + ex - (d2 + ey))); unfold e' in *; lia.
      - destruct (fexp_cases (dq + e')) as [[Hf Hn] | [Hf Hn]]; [| left; lia].
        right. rewrite Z.max_l by lia.
        assert (Hqpos : 0 < q).
        { destruct (Z.eq_dec q 0) as [Hz | Hz]; [| lia].
          exfalso. unfold dq in *. rewrite Hz in *. cbn [Zdigits2] in *. lia. }
        pose proof (mantissa_lower q e' Hqpos) as Hlow. fold dq in Hlow.
        eapply Qle_trans; [| exact HXq]. eapply Qle_trans; [| exact Hlow].
        apply bpow_le. lia. }
    assert (Hov : Z.max (fexp prec emax (dq + e')) e' + 1 <= 971).
    { destruct Hcases as [Hc | Hc]; [lia |].
      assert (Z.max (fexp prec emax (dq + e')) e' + 52 < 970) by (apply bpow_lt_inv; lra).
      lia. }
    apply binary_round_aux_rel.
    + exact Hq.
    + lra.
    + exact Hloc.
    + exact Hov.
    + left. exact Hcases.
Qed.

(** *** The factor 1.85200, and the conversions there and back *)

Lemma factor_spec : Prim2SF Speed64.factor = S754_finite false 8340666509890159 (-52).
Proof. vm_compute. reflexivity. Qed.

Lemma factor_value : (to_Q Speed64.factor == 8340666509890159 # 4503599627370496)%Q.
Proof. unfold to_Q. rewrite factor_spec. vm_compute. reflexivity. Qed.

Lemma u_value : (bpow (-53) == 1 # 9007199254740992)%Q.
Proof. vm_compute. reflexivity. Qed.

Lemma eta_small : (bpow (-1075) <= 1 # 1000000000000000000000000000000)%Q.
Proof.
  eapply Qle_trans; [apply (bpow_le (-1075) (-100)); lia |].
  vm_compute. discriminate.
Qed.

Lemma bpow_970_big : (10000000000000 <= bpow 970)%Q.
Proof.
  eapply Qle_trans; [| apply (bpow_le 50 970); lia].
  vm_compute. discriminate.
Qed.

Lemma Qabs_cases t : ((0 <= t)%Q /\ (Qabs t == t)%Q) \/ ((t <= 0)%Q /\ (Qabs t == - t)%Q).
Proof.
  destruct (Qlt_le_dec t 0) as [H | H].
  - right. split; [lra |]. apply Qabs_neg. lra.
  - left. split; [exact H |]. apply Qabs_pos. exact H.
Qed.

Lemma div_factor_err v :
  SFfinite (Prim2SF v) = true -> (Qabs (to_Q v) <= 1000000000000)%Q ->
  SFfinite (Prim2SF (v / Speed64.factor)) = true /\
  (Qabs (to_Q (v / Speed64.factor) - to_Q v / to_Q Speed64.factor)
   <= bpow (-53) * Qabs (to_Q v / to_Q Speed64.factor) + bpow (-1075))%Q.
Proof.
  intros Hv HB. unfold to_Q in *. rewrite div_spec. unfold SF64div.
  rewrite factor_spec. apply SFdiv_err; [exact Hv |].
  rewrite <- factor_spec. fold (to_Q Speed64.factor). fold (to_Q v) in *.
  rewrite factor_value.
  pose proof bpow_970_big.
  destruct (Qabs_cases (to_Q v)) as [[H0 HA] | [H0 HA]]; rewrite HA in HB.
  - rewrite Qabs_pos.
    + apply Qlt_shift_div_r; [reflexivity |]. lra.
    + apply Qle_shift_div_l; [reflexivity |]. lra.
  - rewrite Qabs_neg.
    + setoid_replace (- (to_Q v / (8340666509890159 # 4503599627370496)))%Q
        with ((- to_Q v) / (8340666509890159 # 4503599627370496))%Q by (field; discriminate).
      apply Qlt_shift_div_r; [reflexivity |]. lra.
    + apply Qle_shift_div_r; [reflexivity |]. lra.
Qed.

Lemma mul_factor_err v :
  SFfinite (Prim2SF v) = true -> (Qabs (to_Q v) <= 1000000000000)%Q ->
  SFfinite (Prim2SF (v * Speed64.factor)) = true /\
  (Qabs (to_Q (v * Speed64.factor) - to_Q v * to_Q Speed64.factor)
   <= bpow (-53) * Qabs (to_Q v * to_Q Speed64.factor) + bpow (-1075))%Q.
Proof.
  intros Hv HB. unfold to_Q in *. rewrite mul_spec. unfold SF64mul.
  apply SFmul_err; [exact Hv | rewrite factor_spec; reflexivity |].
  fold (to_Q Speed64.factor). fold (to_Q v) in *.
  rewrite factor_value.
  pose proof bpow_970_big.
  destruct (Qabs_cases (to_Q v)) as [[H0 HA] | [H0 HA]]; rewrite HA in HB.
  - rewrite Qabs_pos; lra.
  - rewrite Qabs_neg; lra.
Qed.

Lemma Qabs_times_factor k :
  (Qabs (k * (8340666509890159 # 4503599627370496))
   == Qabs k * (8340666509890159 # 4503599627370496))%Q.
Proof. rewrite Qabs_Qmult. reflexivity. Qed.

(** Dividing by 1.85200 and multiplying by it again, and the other way
    round, on a finite float of magnitude at most 4e9. *)
Lemma round_trip_kmh_spec v :
  SFfinite (Prim2SF v) = true -> (Qabs (to_Q v) <= 4000000000)%Q ->
  SFfinite (Prim2SF (v / Speed64.factor * Speed64.factor)) = true /\
  (Qabs (to_Q (v / Speed64.factor * Speed64.factor) - to_Q v) <= 1 # 1000000)%Q.
Proof.
  intros Hv HB.
  destruct (div_factor_err v Hv) as [Hk H1]; [lra |].
  pose proof eta_small as Heta. pose proof (bpow_pos (-1075)) as Heta0.
  rewrite factor_value, u_value in H1.
  set (V := to_Q v) in *. set (K := to_Q (v / Speed64.factor)) in *.
  set (W := (V / (8340666509890159 # 4503599627370496))%Q) in *.
  assert (HW : (W * (8340666509890159 # 4503599627370496) == V)%Q)
    by (unfold W; field; discriminate).
  clearbody W. set (eta := bpow (-1075)) in *.
  apply Qabs_Qle_condition in H1.
  assert (HK : (Qabs K <= 1000000000000)%Q).
  { apply Qabs_Qle_condition.
    destruct (Qabs_cases V) as [[? HA] | [? HA]]; rewrite HA in HB;
      destruct (Qabs_cases W) as [[? HA'] | [? HA']]; rewrite HA' in H1; lra. }
  destruct (mul_factor_err (v / Speed64.factor) Hk HK) as [Hr H2].
  split; [exact Hr |].
  rewrite factor_value, u_value in H2. fold K in H2.
  set (R := to_Q (v / Speed64.factor * Speed64.factor)) in *. clearbody R K V.
  rewrite Qabs_times_factor in H2.
  apply Qabs_Qle_condition in H2. apply Qabs_Qle_condition.
  change (bpow (-1075)) with eta in H2. clearbody eta.
  destruct (Qabs_cases V) as [[? HA] | [? HA]]; rewrite HA in HB;
    destruct (Qabs_cases W) as [[? HA'] | [? HA']]; rewrite HA' in H1;
    destruct (Qabs_cases K) as [[? HA''] | [? HA'']]; rewrite HA'' in H2; lra.
Qed.

Lemma round_trip_knot_spec v :
  SFfinite (Prim2SF v) = true -> (Qabs (to_Q v) <= 4000000000)%Q ->
  SFfinite (Prim2SF (v * Speed64.factor / Speed64.factor)) = true /\
  (Qabs (to_Q (v * Speed64.factor / Speed64.factor) - to_Q v) <= 1 # 1000000)%Q.
Proof.
  intros Hv HB.
  destruct (mul_factor_err v Hv) as [Hk H1]; [lra |].
  pose proof eta_small as Heta. pose proof (bpow_pos (-1075)) as Heta0.
  rewrite factor_value, u_value in H1.
  set (V := to_Q v) in *. set (K := to_Q (v * Speed64.factor)) in *.
  set (eta := bpow (-1075)) in *.
  rewrite Qabs_times_factor in H1.
  apply Qabs_Qle_condition in H1.
  assert (HK : (Qabs K <= 1000000000000)%Q).
  { apply Qabs_Qle_condition.
    destruct (Qabs_cases V) as [[? HA] | [? HA]]; rewrite HA in HB, H1; lra. }
  destruct (div_factor_err (v * Speed64.factor) Hk HK) as [Hr H2].
  split; [exact Hr |].
  rewrite factor_value, u_value in H2. fold K in H2.
  set (R := to_Q (v * Speed64.factor / Speed64.factor)) in *.
  set (W := (K / (8340666509890159 # 4503599627370496))%Q) in *.
  assert (HW : (W * (8340666509890159 # 4503599627370496) == K)%Q)
    by (unfold W; field; discriminate).
  clearbody W R K V. change (bpow (-1075)) with eta in H2. clearbody eta.
  apply Qabs_Qle_condition in H2. apply Qabs_Qle_condition.
  destruct (Qabs_cases V) as [[? HA] | [? HA]]; rewrite HA in HB, H1;
    destruct (Qabs_cases W) as [[? HA'] | [? HA']]; rewrite HA' in H2; lra.
Qed.

Lemma SFcompare_refl x : x <> S754_nan -> SFcompare x x = Some Eq.
Proof.
  destruct x as [s | s | | s m e]; intros Hx; cbn [SFcompare].
  - reflexivity.
  - destruct s; reflexivity.
  - contradiction.
  - rewrite Z.compare_refl, Pos.compare_cont_refl. destruct s; reflexivity.
Qed.

(** The test [is_finite] on a float reads off the specification. *)
Lemma is_finite_spec f : is_finite f = SFfinite (Prim2SF f).
Proof.
  unfold is_finite, is_nan, is_infinity. rewrite !FloatAxioms.eqb_spec, abs_spec.
  change (Prim2SF infinity) with (S754_infinity false).
  destruct (Prim2SF f) as [s | s | | s m e] eqn:Hf.
  - reflexivity.
  - destruct s; reflexivity.
  - reflexivity.
  - unfold SFeqb. rewrite SFcompare_refl by discriminate. reflexivity.
Qed.

(** ** Properties *)

Section Properties.

Context {B : Builtins}.

(** *** Computations *)

Lemma bind_returns {S X Y : Type} (m : M S X) (k : X -> M S Y) s s' y :
  bind m k s = (s', Return y) ->
  exists x s1, m s = (s1, Return x) /\ k x s1 = (s', Return y).
Proof.
  unfold bind. destruct (m s) as [s1 [x | e]]; intros E.
  - exists x, s1. split; [reflexivity | exact E].
  - discriminate E.
Qed.

Lemma bind_eq_raise {S X Y : Type} (m : M S X) (k : X -> M S Y) s s1 e :
  m s = (s1, Raise e) -> bind m k s = (s1, Raise e).
Proof. unfold bind. intros ->. reflexivity. Qed.

Lemma keeps_ret {S X : Type} (R : S -> S -> Prop) (x : X) :
  (forall s, R s s) -> keeps R (ret x).
Proof. intros Hrefl s. apply Hrefl. Qed.

Lemma keeps_lift {S X : Type} (R : S -> S -> Prop) (o : outcome X) :
  (forall s, R s s) -> keeps R (lift o).
Proof. intros Hrefl s. apply Hrefl. Qed.

Lemma keeps_bind {S X Y : Type} (R : S -> S -> Prop) (m : M S X) (k : X -> M S Y) :
  (forall a b c, R a b -> R b c -> R a c) ->
  keeps R m -> (forall x, keeps R (k x)) -> keeps R (bind m k).
Proof.
  intros Htrans Hm Hk s. unfold bind.
  specialize (Hm s). destruct (m s) as [s1 [x | e]]; simpl in *.
  - apply Htrans with s1; [exact Hm | apply Hk].
  - exact Hm.
Qed.

Lemma keeps_get {S Y : Type} (R : S -> S -> Prop) (k : S -> M S Y) :
  (forall s, R s (fst (k s s))) -> keeps R (bind get k).
Proof. intros Hk s. apply Hk. Qed.

Lemma keeps_when {S : Type} (R : S -> S -> Prop) (b : bool) (m : M S unit) :
  (forall s, R s s) -> (b = true -> keeps R m) -> keeps R (when b m).
Proof.
  intros Hrefl Hm. destruct b; simpl.
  - apply Hm. reflexivity.
  - apply keeps_ret, Hrefl.
Qed.

(** *** Order of measurement times *)

Lemma Qlt_bool_iff (a b : Q) : Qlt_bool a b = true <-> (a < b)%Q.
Proof.
  unfold Qlt_bool. rewrite negb_true_iff. split.
  - intros H. apply Qnot_le_lt. intros Hle.
    apply Qle_bool_iff in Hle. congruence.
  - intros H. destruct (Qle_bool b a) eqn:E; [| reflexivity].
    apply Qle_bool_iff in E. exfalso. exact (Qlt_not_le _ _ H E).
Qed.

Lemma time_lt_lex (a b : timestamp) : time_lt a b = true <-> lex_lt a b.
Proof.
  destruct a as [[h1 m1] s1], b as [[h2 m2] s2]. unfold time_lt, lex_lt.
  destruct (Z.eqb_spec h1 h2) as [Hh | Hh]; simpl.
  - destruct (Z.eqb_spec m1 m2) as [Hm | Hm]; simpl.
    + destruct (Qeq_bool s1 s2) eqn:Hs; simpl.
      * apply Qeq_bool_iff in Hs. split; [discriminate |].
        intros [H | [_ [H | [_ H]]]]; try lia.
        rewrite Hs in H. exfalso. exact (Qlt_irrefl _ H).
      * rewrite Qlt_bool_iff. split; [intros H; right; split; [exact Hh | right; split; [exact Hm | exact H]] |].
        intros [H | [_ [H | [_ H]]]]; try lia. exact H.
    + rewrite Z.ltb_lt. split; [intros H; right; split; [exact Hh | left; exact H] |].
      intros [H | [_ [H | [H _]]]]; try lia.
  - rewrite Z.ltb_lt. split; [intros H; left; exact H |].
    intros [H | [H _]]; [exact H | contradiction].
Qed.

Lemma lex_lt_trans (a b c : timestamp) : lex_lt a b -> lex_lt b c -> lex_lt a c.
Proof.
  destruct a as [[h1 m1] s1], b as [[h2 m2] s2], c as [[h3 m3] s3].
  unfold lex_lt. intros [H1 | [E1 [H1 | [F1 H1]]]] [H2 | [E2 [H2 | [F2 H2]]]];
    try (left; lia); try (right; split; [lia | left; lia]).
  right. split; [lia |]. right. split; [lia |]. exact (Qlt_trans _ _ _ H1 H2).
Qed.

(** *** Constructors *)

Lemma init_returns k v u t x :
  Value.init k v u t = Return x ->
  Value.float v = Return (Value.value x) /\ x = Value.make k (Value.value x) u t.
Proof.
  unfold Value.init, obind. destruct (Value.float v) as [q | e]; intros E.
  - inversion E. subst x. simpl. split; reflexivity.
  - discriminate E.
Qed.

Lemma init_time k v u t x : Value.init k v u t = Return x -> Value.time x = t.
Proof. intros E. apply init_returns in E. destruct E as [_ ->]. reflexivity. Qed.

Lemma Position_time v u t x : Position v u t = Return x -> Value.time x = t.
Proof.
  unfold Position. destruct (str_in u ["N"; "E"]).
  - apply init_time.
  - destruct v as [s | q]; [discriminate | apply init_time].
Qed.

(** *** What one setter does to the location *)

Lemma unset_or_older_spec field t :
  Location.unset_or_older field t = true ->
  field = None \/ exists o, field = Some o /\ lex_lt (Value.time o) t.
Proof.
  destruct field as [o |]; simpl; intros H.
  - right. exists o. split; [reflexivity | apply time_lt_lex; exact H].
  - left. reflexivity.
Qed.

Lemma set_lat_effect v d t s :
  fst (Location.set_lat v d t s) = s \/
  exists x, fst (Location.set_lat v d t s) = Location.with_lat (Some x) s /\
    Value.time x = t /\ Location.unset_or_older (Location._lat s) t = true.
Proof.
  unfold Location.set_lat. destruct (String.length v =? 0)%nat; [left; reflexivity |].
  unfold bind, get, when, lift, modify, ret.
  destruct (Location.unset_or_older (Location._lat s) t) eqn:Ht; [| left; reflexivity].
  destruct (Value.float (Value.Str (substr v 0 2))) as [deg | e]; [| left; reflexivity].
  destruct (Value.float (Value.Str (substr_from v 2))) as [mnt | e]; [| left; reflexivity].
  destruct (Position _ d t) as [x | e] eqn:Hp; [| left; reflexivity].
  right. exists x. simpl. apply Position_time in Hp. auto.
Qed.

Lemma set_long_effect v d t s :
  fst (Location.set_long v d t s) = s \/
  exists x, fst (Location.set_long v d t s) = Location.with_long (Some x) s /\
    Value.time x = t /\ Location.unset_or_older (Location._long s) t = true.
Proof.
  unfold Location.set_long. destruct (String.length v =? 0)%nat; [left; reflexivity |].
  unfold bind, get, when, lift, modify, ret.
  destruct (Location.unset_or_older (Location._long s) t) eqn:Ht; [| left; reflexivity].
  destruct (Value.float (Value.Str (substr v 0 3))) as [deg | e]; [| left; reflexivity].
  destruct (Value.float (Value.Str (substr_from v 3))) as [mnt | e]; [| left; reflexivity].
  destruct (Position _ d t) as [x | e] eqn:Hp; [| left; reflexivity].
  right. exists x. simpl. apply Position_time in Hp. auto.
Qed.

Lemma set_speed_effect v u t s :
  fst (Location.set_speed v u t s) = s \/
  exists x, fst (Location.set_speed v u t s) = Location.with_speed (Some x) s /\
    Value.time x = t /\ Location.unset_or_older (Location._speed s) t = true.
Proof.
  unfold Location.set_speed. destruct (String.length v =? 0)%nat; [left; reflexivity |].
  unfold bind, get, when, lift, modify, ret.
  destruct (Location.unset_or_older (Location._speed s) t) eqn:Ht; [| left; reflexivity].
  destruct (Speed.init _ u t) as [x | e] eqn:Hp; [| left; reflexivity].
  right. exists x. simpl. apply init_time in Hp. auto.
Qed.

Lemma set_course_effect v t s :
  fst (Location.set_course v t s) = s \/
  exists x, fst (Location.set_course v t s) = Location.with_course (Some x) s /\
    Value.time x = t /\ Location.unset_or_older (Location._course s) t = true.
Proof.
  unfold Location.set_course. destruct (String.length v =? 0)%nat; [left; reflexivity |].
  unfold bind, get, when, lift, modify, ret.
  destruct (Location.unset_or_older (Location._course s) t) eqn:Ht; [| left; reflexivity].
  destruct (Course _ t) as [x | e] eqn:Hp; [| left; reflexivity].
  right. exists x. simpl. apply init_time in Hp. auto.
Qed.

Lemma set_hdop_effect v t s :
  fst (Location.set_hdop v t s) = s \/
  exists x, fst (Location.set_hdop v t s) = Location.with_hdop (Some x) s /\
    Value.time x = t /\ Location.unset_or_older (Location._hdop s) t = true.
Proof.
  unfold Location.set_hdop. destruct (String.length v =? 0)%nat; [left; reflexivity |].
  unfold bind, get, when, lift, modify, ret.
  destruct (Location.unset_or_older (Location._hdop s) t) eqn:Ht; [| left; reflexivity].
  destruct (HDOP.init _ t) as [x | e] eqn:Hp; [| left; reflexivity].
  right. exists x. simpl. apply init_time in Hp. auto.
Qed.

(** *** The recency rule as a relation between locations *)

Lemma merged_refl x : merged x x.
Proof. left. reflexivity. Qed.

Lemma merged_at_merged t old new : merged_at t old new -> merged old new.
Proof.
  intros [E | [n [En [Ht Hold]]]]; [left; exact E |].
  right. exists n. split; [exact En |].
  destruct Hold as [-> | [o [-> Ho]]]; [exact I |]. rewrite Ht. exact Ho.
Qed.

Lemma merged_trans a b c : merged a b -> merged b c -> merged a c.
Proof.
  intros [Eb | [n [En Hn]]] [Ec | [n' [En' Hn']]].
  - left. congruence.
  - right. exists n'. subst b. split; [exact En' | exact Hn'].
  - right. exists n. split; [congruence | exact Hn].
  - right. exists n'. split; [exact En' |]. subst b.
    destruct a as [o |]; [| exact I].
    apply lex_lt_trans with (Value.time n); assumption.
Qed.

Lemma setter_merged t field x :
  Value.time x = t -> Location.unset_or_older field t = true ->
  merged_at t field (Some x).
Proof.
  intros Ht Hf. right. exists x. split; [reflexivity |]. split; [exact Ht |].
  apply unset_or_older_spec. exact Hf.
Qed.

Lemma recency_refl s : recency s s.
Proof. repeat split; apply merged_refl. Qed.

Lemma recency_trans a b c : recency a b -> recency b c -> recency a c.
Proof.
  intros (A1 & A2 & A3 & A4 & A5) (B1 & B2 & B3 & B4 & B5).
  repeat split; eapply merged_trans; eassumption.
Qed.

Ltac by_effect H :=
  let x := fresh "x" in
  let Ht := fresh "Ht" in
  let Hf := fresh "Hf" in
  destruct H as [-> | [x [-> [Ht Hf]]]];
  [ apply recency_refl
  | repeat split; simpl;
    first [ apply merged_refl
          | apply merged_at_merged with (t := Value.time x);
            apply setter_merged; [reflexivity | rewrite Ht; exact Hf] ] ].

Lemma recency_set_lat v d t : keeps recency (Location.set_lat v d t).
Proof. intros s. pose proof (set_lat_effect v d t s) as H. by_effect H. Qed.

Lemma recency_set_long v d t : keeps recency (Location.set_long v d t).
Proof. intros s. pose proof (set_long_effect v d t s) as H. by_effect H. Qed.

Lemma recency_set_speed v u t : keeps recency (Location.set_speed v u t).
Proof. intros s. pose proof (set_speed_effect v u t s) as H. by_effect H. Qed.

Lemma recency_set_course v t : keeps recency (Location.set_course v t).
Proof. intros s. pose proof (set_course_effect v t s) as H. by_effect H. Qed.

Lemma recency_set_hdop v t : keeps recency (Location.set_hdop v t).
Proof. intros s. pose proof (set_hdop_effect v t s) as H. by_effect H. Qed.

Lemma recency_with_satellites n : keeps recency (modify (Location.with_satellites n)).
Proof. intros s. repeat split; apply merged_refl. Qed.

Lemma recency_with_alt x : keeps recency (modify (Location.with_alt x)).
Proof. intros s. repeat split; apply merged_refl. Qed.

Lemma recency_with_height x : keeps recency (modify (Location.with_height x)).
Proof. intros s. repeat split; apply merged_refl. Qed.

Lemma recency_revalidated : keeps recency (modify revalidated).
Proof. intros s. repeat split; apply merged_refl. Qed.

Lemma keeps_get0 {S : Type} (R : S -> S -> Prop) :
  (forall s, R s s) -> keeps R (@get S).
Proof. intros Hrefl s. apply Hrefl. Qed.

Ltac walk Hrefl Htrans leaf :=
  repeat first
    [ apply keeps_ret; exact Hrefl
    | apply keeps_lift; exact Hrefl
    | apply keeps_get0; exact Hrefl
    | apply keeps_when; [exact Hrefl | intros _]
    | leaf
    | apply keeps_bind; [exact Htrans | | intros ?]
    | match goal with
      | |- keeps _ (if ?b then _ else _) => destruct b
      end ].

Ltac recency_leaf :=
  first [ apply recency_set_lat | apply recency_set_long | apply recency_set_speed
        | apply recency_set_course | apply recency_set_hdop
        | apply recency_with_satellites | apply recency_with_alt
        | apply recency_with_height | apply recency_revalidated ].

Lemma recency_set msgid segment : keeps recency (Location.set msgid segment).
Proof.
  unfold Location.set, Location.gga, Location.gll, Location.rmc, Location.vtg,
    Location.gsv, too_many_arguments, raise.
  fold revalidated.
  walk recency_refl recency_trans recency_leaf.
Qed.

(** C7.  Every mergeable field follows the recency rule.  Each of the five
    setters [__set_lat], [__set_long], [__set_speed], [__set_course] and
    [__set_hdop], called with time [t], either leaves its field as it was or
    stores a measurement of time [t], and stores it only over an unset field
    or over one whose time is strictly smaller in the lexicographic order on
    (hour, minute, second); hence a measurement of earlier or equal time
    never replaces a stored one.  The same holds for what a whole call of
    [Location.set] does to the five fields, whether it returns or raises. *)
Theorem recency_merge (msgid : bytes) (segment v u : string) (t : timestamp)
    (self : Location.obj) :
  merged_at t (Location._lat self)
    (Location._lat (fst (Location.set_lat v u t self))) /\
  merged_at t (Location._long self)
    (Location._long (fst (Location.set_long v u t self))) /\
  merged_at t (Location._speed self)
    (Location._speed (fst (Location.set_speed v u t self))) /\
  merged_at t (Location._course self)
    (Location._course (fst (Location.set_course v t self))) /\
  merged_at t (Location._hdop self)
    (Location._hdop (fst (Location.set_hdop v t self))) /\
  recency self (fst (Location.set msgid segment self)).
Proof.
  split; [| split; [| split; [| split; [| split]]]].
  - destruct (set_lat_effect v u t self) as [-> | [x [-> [Ht Hf]]]];
      [left; reflexivity | apply setter_merged; assumption].
  - destruct (set_long_effect v u t self) as [-> | [x [-> [Ht Hf]]]];
      [left; reflexivity | apply setter_merged; assumption].
  - destruct (set_speed_effect v u t self) as [-> | [x [-> [Ht Hf]]]];
      [left; reflexivity | apply setter_merged; assumption].
  - destruct (set_course_effect v t self) as [-> | [x [-> [Ht Hf]]]];
      [left; reflexivity | apply setter_merged; assumption].
  - destruct (set_hdop_effect v t self) as [-> | [x [-> [Ht Hf]]]];
      [left; reflexivity | apply setter_merged; assumption].
  - apply recency_set.
Qed.

(** A stored measurement that is not older than the incoming time stays. *)
Lemma merged_at_not_older t old new o :
  merged_at t old new -> old = Some o -> ~ lex_lt (Value.time o) t -> new = Some o.
Proof.
  intros [E | [n [_ [_ [E | [o' [E Hlt]]]]]]] Ho Hn; rewrite Ho in E.
  - exact E.
  - discriminate E.
  - inversion E. subst o'. contradiction.
Qed.

(** *** Indexing the split payload *)

Lemma item_nth (d : list string) (i : nat) :
  (i < List.length d)%nat -> item d i = Return (nth i d EmptyString).
Proof.
  intros Hi. unfold item.
  rewrite (nth_error_nth' d EmptyString Hi). reflexivity.
Qed.

Lemma seg_set_length d i : Location.seg_set d i = true -> (i < List.length d)%nat.
Proof.
  unfold Location.seg_set. intros H.
  apply andb_prop in H. destruct H as [H _].
  apply andb_prop in H. destruct H as [H _].
  apply Nat.leb_le in H. lia.
Qed.

Lemma vtg_ok_length d : Location.vtg_ok d = true -> (7 <= List.length d)%nat.
Proof.
  unfold Location.vtg_ok. intros H. apply andb_prop in H. destruct H as [H _].
  apply Nat.leb_le in H. exact H.
Qed.

Lemma gga_ok_length d : Location.gga_ok d = true -> (6 <= List.length d)%nat.
Proof.
  unfold Location.gga_ok. intros H. apply andb_prop in H. destruct H as [H _].
  apply Nat.leb_le in H. exact H.
Qed.

(** *** The satellite count *)

Lemma count_kept_refl s : count_kept s s.
Proof. intros _. reflexivity. Qed.

Lemma count_kept_trans a b c : count_kept a b -> count_kept b c -> count_kept a c.
Proof. unfold count_kept. intros Hab Hbc Ha. rewrite <- (Hab Ha). apply Hbc. rewrite (Hab Ha). exact Ha. Qed.

Ltac frame H := destruct H as [-> | [? [-> _]]]; reflexivity.

Lemma count_set_lat v d t : keeps count_kept (Location.set_lat v d t).
Proof. intros s _. pose proof (set_lat_effect v d t s) as H. frame H. Qed.

Lemma count_set_long v d t : keeps count_kept (Location.set_long v d t).
Proof. intros s _. pose proof (set_long_effect v d t s) as H. frame H. Qed.

Lemma count_set_speed v u t : keeps count_kept (Location.set_speed v u t).
Proof. intros s _. pose proof (set_speed_effect v u t s) as H. frame H. Qed.

Lemma count_set_course v t : keeps count_kept (Location.set_course v t).
Proof. intros s _. pose proof (set_course_effect v t s) as H. frame H. Qed.

Lemma count_set_hdop v t : keeps count_kept (Location.set_hdop v t).
Proof. intros s _. pose proof (set_hdop_effect v t s) as H. frame H. Qed.

Lemma count_with_alt x : keeps count_kept (modify (Location.with_alt x)).
Proof. intros s _. reflexivity. Qed.

Lemma count_with_height x : keeps count_kept (modify (Location.with_height x)).
Proof. intros s _. reflexivity. Qed.

Lemma count_revalidated : keeps count_kept (modify revalidated).
Proof. intros s _. reflexivity. Qed.

(** The count is assigned by the GGA handler only under the test
    [self.__satellites < 0]. *)
Lemma count_gga_assignment data (rest : M Location.obj unit) :
  keeps count_kept rest ->
  keeps count_kept
    (self <- get ;;
     when ((Location._satellites self <? 0) && Location.seg_set data 6) (
       s <- lift (item data 6) ;;
       n <- lift (Value.int s) ;;
       modify (Location.with_satellites n)) ;;
     rest).
Proof.
  intros Hrest. apply keeps_get. intros s.
  destruct (Z.ltb_spec (Location._satellites s) 0) as [Hneg | Hpos].
  - intros Hs. lia.
  - simpl. apply Hrest.
Qed.

Ltac count_leaf :=
  first [ apply count_set_lat | apply count_set_long | apply count_set_speed
        | apply count_set_course | apply count_set_hdop
        | apply count_with_alt | apply count_with_height
        | apply count_revalidated | apply count_gga_assignment ].

Lemma count_set msgid segment :
  bytes_eqb msgid GPGSV = false -> keeps count_kept (Location.set msgid segment).
Proof.
  intros Hid.
  unfold Location.set, Location.gga, Location.gll, Location.rmc, Location.vtg,
    too_many_arguments, raise.
  rewrite Hid. fold revalidated.
  walk count_kept_refl count_kept_trans count_leaf.
Qed.

Lemma GPGSV_dispatch :
  bytes_eqb GPGSV GPGGA = false /\ bytes_eqb GPGSV GPGLL = false /\
  bytes_eqb GPGSV GPRMC = false /\ bytes_eqb GPGSV GPVTG = false /\
  bytes_eqb GPGSV GPGSV = true.
Proof. repeat split; reflexivity. Qed.

Lemma gsv_assigns segment self n :
  Location.gsv_ok (split "," segment) = true ->
  py_int (nth 2 (split "," segment) EmptyString) = Some n ->
  Location.set GPGSV segment self =
    (revalidated (Location.with_satellites n self),
     Return (Location.valid (revalidated (Location.with_satellites n self)))).
Proof.
  intros Hok Hint. unfold Location.set.
  destruct GPGSV_dispatch as (-> & -> & -> & -> & ->).
  unfold Location.gsv. rewrite Hok. simpl when.
  assert (Hlen : (2 < List.length (split "," segment))%nat).
  { apply seg_set_length. unfold Location.gsv_ok in Hok.
    apply andb_prop in Hok. apply Hok. }
  unfold bind at 2. unfold bind at 2. unfold lift.
  rewrite (item_nth _ _ Hlen). unfold Value.int. rewrite Hint.
  reflexivity.
Qed.

(** C4, as the code has it.  A satellite count that is set (not negative)
    is left as it is by every sentence other than $GPGSV: the GGA handler
    assigns the count only while it is negative, the other handlers never
    assign it.  A $GPGSV sentence that passes its guard (field[2] present and
    field[0] == field[1]) assigns int(field[2]) whatever the count was. *)
Theorem satellites_kept_except_gsv (msgid : bytes) (segment : string)
    (self : Location.obj) :
  (bytes_eqb msgid GPGSV = false -> 0 <= Location._satellites self ->
   Location._satellites (fst (Location.set msgid segment self))
   = Location._satellites self) /\
  (forall n, Location.gsv_ok (split "," segment) = true ->
   py_int (nth 2 (split "," segment) EmptyString) = Some n ->
   Location._satellites (fst (Location.set GPGSV segment self)) = n).
Proof.
  split.
  - intros Hid Hset. exact (count_set msgid segment Hid self Hset).
  - intros n Hok Hint. rewrite (gsv_assigns segment self n Hok Hint). reflexivity.
Qed.

(** *** The course in the VTG handler *)

Lemma course_kept_refl s : course_kept s s.
Proof. reflexivity. Qed.

Lemma course_kept_trans a b c : course_kept a b -> course_kept b c -> course_kept a c.
Proof. unfold course_kept. intros Hab Hbc. rewrite Hbc. exact Hab. Qed.

Lemma course_set_speed v u t : keeps course_kept (Location.set_speed v u t).
Proof. intros s. pose proof (set_speed_effect v u t s) as H. unfold course_kept. frame H. Qed.

Lemma course_revalidated : keeps course_kept (modify revalidated).
Proof. intros s. reflexivity. Qed.

Lemma set_speed_outcome v u t s :
  snd (Location.set_speed v u t s) = Return tt \/
  snd (Location.set_speed v u t s) = Raise ValueError.
Proof.
  unfold Location.set_speed. destruct (String.length v =? 0)%nat; [left; reflexivity |].
  unfold bind, get, when, lift, modify, ret.
  destruct (Location.unset_or_older (Location._speed s) t); [| left; reflexivity].
  unfold Speed.init, Value.init, Value.float, obind.
  destruct (py_float v); [left | right]; reflexivity.
Qed.

Lemma GPVTG_dispatch :
  bytes_eqb GPVTG GPGGA = false /\ bytes_eqb GPVTG GPGLL = false /\
  bytes_eqb GPVTG GPRMC = false /\ bytes_eqb GPVTG GPVTG = true.
Proof. repeat split; reflexivity. Qed.

Lemma vtg_run data s :
  Location.vtg_ok data = true ->
  Location.vtg data s =
    (fst (Location.set_speed (nth 4 data EmptyString) (nth 6 data EmptyString)
            zero_time s),
     match snd (Location.set_speed (nth 4 data EmptyString) (nth 6 data EmptyString)
                  zero_time s) with
     | Return _ => Raise TypeError
     | Raise e => Raise e
     end).
Proof.
  intros Hok. pose proof (vtg_ok_length _ Hok) as Hlen.
  unfold Location.vtg. rewrite Hok. unfold when, too_many_arguments, raise.
  cbv [bind lift]. rewrite !item_nth by lia.
  destruct (Location.set_speed _ _ zero_time s) as [s1 [[] | e]]; reflexivity.
Qed.

(** C2, as the code has it.  A $GPVTG sentence with at least 7 fields and
    field[2] == T never updates the course: [set] hands field[4] with unit
    field[6] and the zero time tuple to [__set_speed], then calls
    [__set_course] with one argument too many, so the call raises TypeError
    (or ValueError already, when field[4] is not a number) and the course is
    the one stored before. *)
Theorem vtg_raises_before_course (segment : string) (self : Location.obj) :
  Location.vtg_ok (split "," segment) = true ->
  (snd (Location.set GPVTG segment self) = Raise TypeError \/
   snd (Location.set GPVTG segment self) = Raise ValueError) /\
  Location._course (fst (Location.set GPVTG segment self)) = Location._course self /\
  fst (Location.set GPVTG segment self)
  = fst (Location.set_speed (nth 4 (split "," segment) EmptyString)
           (nth 6 (split "," segment) EmptyString) zero_time self).
Proof.
  intros Hok.
  unfold Location.set. destruct GPVTG_dispatch as (-> & -> & -> & ->).
  set (data := split "," segment) in *.
  pose proof (vtg_run data self Hok) as Hrun.
  pose proof (set_speed_outcome (nth 4 data EmptyString) (nth 6 data EmptyString)
                zero_time self) as Hout.
  pose proof (course_set_speed (nth 4 data EmptyString) (nth 6 data EmptyString)
                zero_time self) as Hcourse.
  destruct (Location.set_speed (nth 4 data EmptyString) (nth 6 data EmptyString)
              zero_time self) as [s1 r].
  simpl in Hrun, Hout, Hcourse.
  destruct Hout as [-> | ->];
    rewrite (bind_eq_raise _ _ _ _ _ Hrun); simpl; auto.
Qed.

(** *** Position, Speed and HDOP *)

Lemma str_in_N_E u : u <> "N" -> u <> "E" -> str_in u ["N"; "E"] = false.
Proof.
  intros HN HE. unfold str_in. simpl.
  apply String.eqb_neq in HN. apply String.eqb_neq in HE.
  rewrite HN, HE. reflexivity.
Qed.

(** C10.  [Position(v, u, t)] holds [-v] for every direction tag [u] other
    than exactly N or E, the empty tag and unknown tags included, not only
    for S and W.  So [__set_lat] and [__set_long], given a sentence whose
    hemisphere field is missing or garbled, store the negated coordinate
    and return normally. *)
Theorem position_negated_unless_N_or_E (v : Q) (u : string) (t : timestamp) :
  u <> "N" -> u <> "E" ->
  Position (Value.Num v) u t = Return (Value.make Value.IsPosition (- v) u t) /\
  (forall self s deg mnt,
     s <> EmptyString ->
     Location.unset_or_older (Location._lat self) t = true ->
     py_float (substr s 0 2) = Some deg ->
     py_float (substr_from s 2) = Some mnt ->
     Location.set_lat s u t self =
       (Location.with_lat
          (Some (Value.make Value.IsPosition (- (deg + mnt / 60)) u t)) self,
        Return tt)) /\
  (forall self s deg mnt,
     s <> EmptyString ->
     Location.unset_or_older (Location._long self) t = true ->
     py_float (substr s 0 3) = Some deg ->
     py_float (substr_from s 3) = Some mnt ->
     Location.set_long s u t self =
       (Location.with_long
          (Some (Value.make Value.IsPosition (- (deg + mnt / 60)) u t)) self,
        Return tt)).
Proof.
  intros HN HE. pose proof (str_in_N_E u HN HE) as Hin.
  split; [| split].
  - unfold Position. rewrite Hin. reflexivity.
  - intros self s deg mnt Hs Hold Hdeg Hmnt.
    unfold Location.set_lat. destruct s as [| c s']; [contradiction |].
    cbv [String.length Nat.eqb bind get when lift modify].
    rewrite Hold. unfold Value.float. rewrite Hdeg, Hmnt.
    unfold Position. rewrite Hin. reflexivity.
  - intros self s deg mnt Hs Hold Hdeg Hmnt.
    unfold Location.set_long. destruct s as [| c s']; [contradiction |].
    cbv [String.length Nat.eqb bind get when lift modify].
    rewrite Hold. unfold Value.float. rewrite Hdeg, Hmnt.
    unfold Position. rewrite Hin. reflexivity.
Qed.

(** C9, for binary64 floats.  [to_kmh] on a speed in knots multiplies by
    1.85200 and [to_knot] on a speed in km/h divides by it (kmh = knot x
    1.85200); converting to the unit already held returns the speed
    itself; and converting there and back gives a value within 1e-6 of the
    one held, provided that one is finite and at most 4e9 in magnitude.
    Knots are the units knot and N, km/h the units kmh and K. *)
Theorem speed_conversion (s : Speed64.obj) :
  (str_in (Speed64.unit s) ["knot"; "N"] = true ->
   Speed64.to_kmh s
   = Speed64.make (Speed64.value s * 1.85200)%float "kmh" (Speed64.time s)) /\
  (str_in (Speed64.unit s) ["kmh"; "K"] = true ->
   Speed64.to_knot s
   = Speed64.make (Speed64.value s / 1.85200)%float "knot" (Speed64.time s)) /\
  (str_in (Speed64.unit s) ["knot"; "N"] = false -> Speed64.to_kmh s = s) /\
  (str_in (Speed64.unit s) ["kmh"; "K"] = false -> Speed64.to_knot s = s) /\
  (str_in (Speed64.unit s) ["kmh"; "K"] = true ->
   is_finite (Speed64.value s) = true ->
   (Qabs (to_Q (Speed64.value s)) <= 4000000000)%Q ->
   Speed64.unit (Speed64.to_kmh (Speed64.to_knot s)) = "kmh" /\
   is_finite (Speed64.value (Speed64.to_kmh (Speed64.to_knot s))) = true /\
   (Qabs (to_Q (Speed64.value (Speed64.to_kmh (Speed64.to_knot s)))
          - to_Q (Speed64.value s)) <= 1 # 1000000)%Q) /\
  (str_in (Speed64.unit s) ["knot"; "N"] = true ->
   is_finite (Speed64.value s) = true ->
   (Qabs (to_Q (Speed64.value s)) <= 4000000000)%Q ->
   Speed64.unit (Speed64.to_knot (Speed64.to_kmh s)) = "knot" /\
   is_finite (Speed64.value (Speed64.to_knot (Speed64.to_kmh s))) = true /\
   (Qabs (to_Q (Speed64.value (Speed64.to_knot (Speed64.to_kmh s)))
          - to_Q (Speed64.value s)) <= 1 # 1000000)%Q).
Proof.
  split; [| split; [| split; [| split; [| split]]]].
  - intros Hu. unfold Speed64.to_kmh. rewrite Hu. reflexivity.
  - intros Hu. unfold Speed64.to_knot. rewrite Hu. reflexivity.
  - intros Hu. unfold Speed64.to_kmh. rewrite Hu. reflexivity.
  - intros Hu. unfold Speed64.to_knot. rewrite Hu. reflexivity.
  - intros Hu Hfin Hmag. rewrite is_finite_spec in Hfin.
    destruct (round_trip_kmh_spec (Speed64.value s) Hfin Hmag) as [Hr Herr].
    assert (Hrt : Speed64.to_kmh (Speed64.to_knot s)
                  = Speed64.make (Speed64.value s / Speed64.factor * Speed64.factor)%float
                      "kmh" (Speed64.time s)).
    { unfold Speed64.to_knot. rewrite Hu. reflexivity. }
    rewrite Hrt. cbn [Speed64.unit Speed64.value]. rewrite is_finite_spec.
    split; [reflexivity |]. split; [exact Hr | exact Herr].
  - intros Hu Hfin Hmag. rewrite is_finite_spec in Hfin.
    destruct (round_trip_knot_spec (Speed64.value s) Hfin Hmag) as [Hr Herr].
    assert (Hrt : Speed64.to_knot (Speed64.to_kmh s)
                  = Speed64.make (Speed64.value s * Speed64.factor / Speed64.factor)%float
                      "knot" (Speed64.time s)).
    { unfold Speed64.to_kmh. rewrite Hu. reflexivity. }
    rewrite Hrt. cbn [Speed64.unit Speed64.value]. rewrite is_finite_spec.
    split; [reflexivity |]. split; [exact Hr | exact Herr].
Qed.

(** C8, with the labels the code returns.  [HDOP.__str__] classifies the
    value by fixed thresholds, each bucket closed at its upper end: below 1
    it is Ide., from 1 to 2 Exe., above 2 up to 5 Good, above 5 up to 10
    Mod., above 10 up to 20 Fair, above 20 Poor; so 0.99 gives Ide., 1.0
    and 2.0 give Exe., 2.01 and 5.0 give Good, 10.0 gives Mod., 20.0 gives
    Fair and 20.01 gives Poor. *)
Theorem hdop_str_thresholds (h : Value.obj) :
  ((Value.value h < 1)%Q -> HDOP.str h = "Ide.") /\
  ((1 <= Value.value h)%Q -> (Value.value h <= 2)%Q -> HDOP.str h = "Exe.") /\
  ((2 < Value.value h)%Q -> (Value.value h <= 5)%Q -> HDOP.str h = "Good") /\
  ((5 < Value.value h)%Q -> (Value.value h <= 10)%Q -> HDOP.str h = "Mod.") /\
  ((10 < Value.value h)%Q -> (Value.value h <= 20)%Q -> HDOP.str h = "Fair") /\
  ((20 < Value.value h)%Q -> HDOP.str h = "Poor") /\
  map (fun v => HDOP.str (Value.make Value.IsHDOP v EmptyString (Value.time h)))
    [0.99; 1.0; 2.0; 2.01; 5.0; 10.0; 20.0; 20.01]%Q
  = ["Ide."; "Exe."; "Exe."; "Good"; "Good"; "Mod."; "Fair"; "Poor"].
Proof.
  unfold HDOP.str, Qlt_bool.
  repeat split; try reflexivity; intros;
    repeat match goal with
    | |- context [Qle_bool ?a ?b] =>
        let E := fresh "E" in
        destruct (Qle_bool a b) eqn:E;
        [apply Qle_bool_iff in E
        | assert (~ (a <= b)%Q) by (rewrite <- Qle_bool_iff; congruence); clear E]
    end; simpl; try reflexivity; exfalso; lra.
Qed.

(** *** Altitude and height in the GGA handler *)

Lemma lift_returns {S X : Type} (o : outcome X) (s s' : S) x :
  lift o s = (s', Return x) -> s' = s /\ o = Return x.
Proof. unfold lift. intros E. inversion E. split; reflexivity. Qed.

Lemma alt_height_set_lat v d t : keeps alt_height_kept (Location.set_lat v d t).
Proof. intros s. pose proof (set_lat_effect v d t s) as H. split; frame H. Qed.

Lemma alt_height_set_long v d t : keeps alt_height_kept (Location.set_long v d t).
Proof. intros s. pose proof (set_long_effect v d t s) as H. split; frame H. Qed.

Lemma alt_height_set_hdop v t : keeps alt_height_kept (Location.set_hdop v t).
Proof. intros s. pose proof (set_hdop_effect v t s) as H. split; frame H. Qed.

Lemma alt_height_count data (c : bool) :
  keeps alt_height_kept
    (when c (s <- lift (item data 6) ;;
             n <- lift (Value.int s) ;;
             modify (Location.with_satellites n))).
Proof.
  intros s. destruct c; [| split; reflexivity].
  cbv [when bind lift modify]. destruct (item data 6) as [x | e]; [| split; reflexivity].
  destruct (Value.int x) as [n | e]; split; reflexivity.
Qed.

Lemma Distance_returns v u t x :
  Distance (Value.Str v) u t = Return x ->
  py_float v = Some (Value.value x) /\
  x = Value.make Value.IsDistance (Value.value x) u t.
Proof.
  unfold Distance. intros E. apply init_returns in E. destruct E as [Hf Hx].
  split; [| exact Hx]. unfold Value.float in Hf.
  destruct (py_float v) as [q |]; [| discriminate Hf].
  inversion Hf. reflexivity.
Qed.

Ltac step H x s1 Hm :=
  apply bind_returns in H; destruct H as (x & s1 & Hm & H).

Ltac step_item H Hlen :=
  let x := fresh "x" in
  let s1 := fresh "s" in
  let Hm := fresh "Hm" in
  step H x s1 Hm; rewrite item_nth in Hm by Hlen;
  apply lift_returns in Hm; destruct Hm as [-> Hm]; inversion Hm; subst x; clear Hm.

Ltac step_kept H lemma Hk :=
  let x := fresh "x" in
  let s1 := fresh "s" in
  let Hm := fresh "Hm" in
  step H x s1 Hm;
  match type of Hm with
  | ?m ?s = _ => pose proof (lemma s) as Hk; rewrite Hm in Hk; simpl fst in Hk
  end; clear Hm.

Lemma alt_height_kept_refl s : alt_height_kept s s.
Proof. split; reflexivity. Qed.

Lemma alt_height_kept_trans a b c :
  alt_height_kept a b -> alt_height_kept b c -> alt_height_kept a c.
Proof. unfold alt_height_kept. intros [A1 A2] [B1 B2]. split; congruence. Qed.

Lemma alt_height_hdop data t (c : bool) :
  keeps alt_height_kept (when c (v <- lift (item data 7) ;; Location.set_hdop v t)).
Proof.
  walk alt_height_kept_refl alt_height_kept_trans
    ltac:(apply alt_height_set_hdop).
Qed.

Lemma get_returns {S : Type} (s s' x : S) : get s = (s', Return x) -> s' = s /\ x = s.
Proof. unfold get. intros E. inversion E. split; reflexivity. Qed.

Lemma distance_block_returns data t (i j k : nat)
    (upd : option Value.obj -> Location.obj -> Location.obj) s s' r :
  (Location.seg_set data j = true -> (k < List.length data)%nat) ->
  when (Location.seg_set data i)
    (v <- lift (item data i) ;;
     u <- (if negb (Location.seg_set data j) then ret "M" else lift (item data k)) ;;
     a <- lift (Distance (Value.Str v) u t) ;;
     modify (upd (Some a))) s = (s', Return r) ->
  (Location.seg_set data i = true ->
   exists a, py_float (nth i data EmptyString) = Some a /\
     s' = upd (Some (Value.make Value.IsDistance a
                       (if Location.seg_set data j then nth k data EmptyString else "M")
                       t)) s) /\
  (Location.seg_set data i = false -> s' = s).
Proof.
  intros Hk H.
  destruct (Location.seg_set data i) eqn:Ei; split; try discriminate.
  - intros _. pose proof (seg_set_length _ _ Ei) as Li.
    unfold when in H. step_item H ltac:(lia).
    step H u s1 Hu.
    assert (Hu' : s1 = s /\
              u = if Location.seg_set data j then nth k data EmptyString else "M").
    { destruct (Location.seg_set data j) eqn:Ej; simpl in Hu.
      - rewrite item_nth in Hu by (apply Hk; reflexivity).
        apply lift_returns in Hu. destruct Hu as [-> Hu]. inversion Hu.
        split; reflexivity.
      - inversion Hu. split; reflexivity. }
    destruct Hu' as [-> ->].
    step H a s2 Ha. apply lift_returns in Ha. destruct Ha as [-> Ha].
    apply Distance_returns in Ha. destruct Ha as [Hf Ha].
    exists (Value.value a). split; [exact Hf |].
    rewrite <- Ha. inversion H. reflexivity.
  - intros _. inversion H. reflexivity.
Qed.

Lemma gga_returns data s s' :
  Location.gga_ok data = true ->
  Location.gga data s = (s', Return tt) ->
  exists t, Location.time_from_seg (nth 0 data EmptyString) = Return t /\
    (Location.seg_set data 8 = true ->
     exists a, py_float (nth 8 data EmptyString) = Some a /\
       Location._alt s' =
         Some (Value.make Value.IsDistance a
                 (if Location.seg_set data 9 then nth 9 data EmptyString else "M") t)) /\
    (Location.seg_set data 8 = false -> Location._alt s' = Location._alt s) /\
    (Location.seg_set data 10 = true ->
     exists h, py_float (nth 10 data EmptyString) = Some h /\
       Location._height s' =
         Some (Value.make Value.IsDistance h
                 (if Location.seg_set data 11 then nth 10 data EmptyString else "M") t)) /\
    (Location.seg_set data 10 = false -> Location._height s' = Location._height s).
Proof.
  intros Hok H. pose proof (gga_ok_length _ Hok) as Hlen.
  unfold Location.gga in H. rewrite Hok in H. unfold when at 1 in H.
  step_item H ltac:(lia).
  step H t s1 Ht. apply lift_returns in Ht. destruct Ht as [-> Ht].
  exists t. split; [exact Ht |]. clear Ht.
  step_item H ltac:(lia). step_item H ltac:(lia).
  step_kept H (alt_height_set_lat (nth 1 data EmptyString) (nth 2 data EmptyString) t) K1.
  step_item H ltac:(lia). step_item H ltac:(lia).
  step_kept H (alt_height_set_long (nth 3 data EmptyString) (nth 4 data EmptyString) t) K2.
  step H self s2 Hg. apply get_returns in Hg. destruct Hg as [-> ->].
  step_kept H (alt_height_count data
                 ((Location._satellites s1 <? 0) && Location.seg_set data 6)) K3.
  step_kept H (alt_height_hdop data t (Location.seg_set data 7)) K4.
  assert (K : alt_height_kept s s3).
  { repeat (eapply alt_height_kept_trans; [eassumption |]). apply alt_height_kept_refl. }
  clear K1 K2 K3 K4. destruct K as [Kalt Kheight].
  step H x3 s4 Halt.
  apply (distance_block_returns data t 8 9 9 Location.with_alt) in Halt;
    [| apply seg_set_length].
  apply (distance_block_returns data t 10 11 10 Location.with_height) in H;
    [| intros E; apply seg_set_length in E; lia].
  destruct Halt as [Halt1 Halt0], H as [Hh1 Hh0].
  assert (Hkeep : Location._height s4 = Location._height s).
  { destruct (Location.seg_set data 8).
    - destruct (Halt1 eq_refl) as [a [_ ->]]. exact Kheight.
    - rewrite (Halt0 eq_refl). exact Kheight. }
  split; [| split; [| split]].
  - intros E8. destruct (Halt1 E8) as [a [Hf Hs4]]. exists a. split; [exact Hf |].
    destruct (Location.seg_set data 10).
    + destruct (Hh1 eq_refl) as [h [_ ->]]. rewrite Hs4. reflexivity.
    + rewrite (Hh0 eq_refl), Hs4. reflexivity.
  - intros E8. rewrite <- Kalt, <- (Halt0 E8).
    destruct (Location.seg_set data 10).
    + destruct (Hh1 eq_refl) as [h [_ ->]]. reflexivity.
    + rewrite (Hh0 eq_refl). reflexivity.
  - intros E10. destruct (Hh1 E10) as [h [Hf ->]]. exists h. split; [exact Hf |].
    reflexivity.
  - intros E10. rewrite (Hh0 E10). exact Hkeep.
Qed.

Lemma set_returns msgid segment s s' b :
  Location.set msgid segment s = (s', Return b) ->
  exists s1,
    (if bytes_eqb msgid GPGGA then Location.gga (split "," segment)
     else if bytes_eqb msgid GPGLL then Location.gll (split "," segment)
     else if bytes_eqb msgid GPRMC then Location.rmc (split "," segment)
     else if bytes_eqb msgid GPVTG then Location.vtg (split "," segment)
     else if bytes_eqb msgid GPGSV then Location.gsv (split "," segment)
     else if bytes_eqb msgid GPMSS then ret tt
     else ret tt) s = (s1, Return tt) /\
    s' = revalidated s1 /\ b = Location.valid (revalidated s1).
Proof.
  unfold Location.set. intros H. step H x s1 Hm. destruct x.
  exists s1. split; [exact Hm |].
  cbv [bind modify get ret] in H. inversion H. split; reflexivity.
Qed.

(** C5, as the code has it.  When the GGA handler runs to its end on a
    sentence that passes its guard, with [t] the time of the sentence:
    if field[8] is present the altitude is Distance(field[8], unit, t) with
    unit field[9] when field[9] is present and M otherwise; if field[10] is
    present the height is Distance(field[10], unit, t) with unit M when
    field[11] is absent and field[10] itself (the height string) when
    field[11] is present.  A field that is absent leaves its attribute as
    it was. *)
Theorem gga_altitude_height (segment : string) (self self' : Location.obj) (b : bool) :
  Location.gga_ok (split "," segment) = true ->
  Location.set GPGGA segment self = (self', Return b) ->
  exists t,
    Location.time_from_seg (nth 0 (split "," segment) EmptyString) = Return t /\
    (Location.seg_set (split "," segment) 8 = true ->
     exists a, py_float (nth 8 (split "," segment) EmptyString) = Some a /\
       Location._alt self' =
         Some (Value.make Value.IsDistance a
                 (if Location.seg_set (split "," segment) 9
                  then nth 9 (split "," segment) EmptyString else "M") t)) /\
    (Location.seg_set (split "," segment) 8 = false ->
     Location._alt self' = Location._alt self) /\
    (Location.seg_set (split "," segment) 10 = true ->
     exists h, py_float (nth 10 (split "," segment) EmptyString) = Some h /\
       Location._height self' =
         Some (Value.make Value.IsDistance h
                 (if Location.seg_set (split "," segment) 11
                  then nth 10 (split "," segment) EmptyString else "M") t)) /\
    (Location.seg_set (split "," segment) 10 = false ->
     Location._height self' = Location._height self).
Proof.
  intros Hok H. apply set_returns in H. destruct H as (s1 & Hg & -> & _).
  change (bytes_eqb GPGGA GPGGA) with true in Hg. cbv iota in Hg.
  destruct (gga_returns _ _ _ Hok Hg) as (t & Ht & H8 & H8' & H10 & H10').
  exists t. split; [exact Ht |]. auto.
Qed.

(** *** Exceptions leave [set] and the decode cycle *)

Lemma set_without_handler msgid segment self :
  accepts msgid (split "," segment) = false ->
  Location.set msgid segment self
  = (revalidated self, Return (Location.valid (revalidated self))).
Proof.
  unfold accepts, Location.set, Location.gga, Location.gll, Location.rmc,
    Location.vtg, Location.gsv.
  intros H.
  repeat match type of H with
         | (if ?c then _ else _) = false => destruct c
         end;
    try rewrite H; try destruct (bytes_eqb msgid GPMSS); reflexivity.
Qed.

Lemma update_runs_set now (lines : list bytes) d :
  (List.length lines =? 0)%nat = false ->
  bytes_eqb (Data.last_byte (List.concat lines)) [LF] = true ->
  Data.update now lines d =
    (ok <- Data.on_data (Location.set (bslice (List.concat lines) 0 6)
                           (payload (List.concat lines))) ;;
     when ok (modify (Data.with_last_update now)) ;;
     ret false) d.
Proof.
  intros Hlen Hlf. unfold Data.update. rewrite Hlen.
  unfold bytes_in, existsb. rewrite Hlf. simpl negb. cbv iota.
  reflexivity.
Qed.

(** C3, as the code has it.  [Location.set] has no exception handling.  It
    returns without raising, and touches nothing but the validity flag,
    for every sentence on which no handler body runs: an identifier
    without handler ($GPMSS and unknown ones) or a sentence that fails the
    guard of its handler.  An exception raised inside a handler leaves
    [set]; it also leaves [__update], with the location as the handler
    left it, and ends the loop of [new_location] before the next sentence
    is read. *)
Theorem set_raises_only_in_handlers (msgid : bytes) (segment : string)
    (self : Location.obj) :
  (accepts msgid (split "," segment) = false ->
   Location.set msgid segment self
   = (revalidated self, Return (Location.valid (revalidated self)))) /\
  (forall e, snd (Location.set msgid segment self) = Raise e ->
   accepts msgid (split "," segment) = true) /\
  (forall e now (lines : list bytes) d,
     snd (Location.set msgid segment self) = Raise e ->
     Data._data d = self ->
     (List.length lines =? 0)%nat = false ->
     bytes_eqb (Data.last_byte (List.concat lines)) [LF] = true ->
     bslice (List.concat lines) 0 6 = msgid ->
     payload (List.concat lines) = segment ->
     Data.update now lines d
     = (Data.with_data (fst (Location.set msgid segment self)) d, Raise e) /\
     forall tmp_data rest,
       bytes_eqb (bslice tmp_data 0 1) [x24] = true ->
       Data.read_lines now (tmp_data :: rest) lines d
       = (Data.with_data (fst (Location.set msgid segment self)) d, Raise e)).
Proof.
  split; [| split].
  - apply set_without_handler.
  - intros e He. destruct (accepts msgid (split "," segment)) eqn:Ha; [reflexivity |].
    rewrite (set_without_handler _ _ _ Ha) in He. discriminate He.
  - intros e now lines d He Hd Hlen Hlf Hid Hpay.
    assert (Hup : Data.update now lines d
                  = (Data.with_data (fst (Location.set msgid segment self)) d, Raise e)).
    { rewrite (update_runs_set now lines d Hlen Hlf). rewrite Hid, Hpay.
      unfold bind, Data.on_data. rewrite Hd.
      destruct (Location.set msgid segment self) as [l r]. simpl in He. subst r.
      reflexivity. }
    split; [exact Hup |].
    intros tmp_data rest Htmp. cbn [Data.read_lines]. rewrite Htmp.
    apply bind_eq_raise. exact Hup.
Qed.

(** *** Buffers without terminator, and with CR only *)

Lemma last_byte_snoc (d : bytes) (b : byte) : Data.last_byte (d ++ [b])%list = [b].
Proof.
  unfold Data.last_byte, bslice, clip.
  rewrite length_app, Nat2Z.inj_add. cbn [List.length].
  change (Z.of_nat 1) with 1.
  destruct (Z.ltb_spec (Z.of_nat (List.length d) + 1 - 1) 0) as [Hneg | _]; [lia |].
  destruct (Z.ltb_spec (Z.of_nat (List.length d) + 1) 0) as [Hneg | _]; [lia |].
  rewrite !Z.min_l by lia.
  replace (Z.to_nat (Z.of_nat (List.length d) + 1 - 1)) with (List.length d) by lia.
  replace (Z.to_nat (Z.of_nat (List.length d) + 1 - (Z.of_nat (List.length d) + 1 - 1)))
    with 1%nat by lia.
  rewrite skipn_app, skipn_all, Nat.sub_diag. reflexivity.
Qed.

(** C6.  A flushed buffer whose last byte is neither CR nor LF is reported
    (the line False data: ... is printed) and dropped: [__update] returns
    False, the location is untouched, and the loop of [new_location] goes
    on with the next sentence.  A buffer whose last byte is CR has an LF
    appended and is then handled as the buffer that arrived with the LF:
    [set] receives its first six bytes and the payload between byte 7 and
    the two terminator bytes, the time of the update is stored when [set]
    returns True, and the loop of [new_location] sees no difference. *)
Theorem update_unterminated_and_cr_only (now : Q) (lines : list bytes) (d : Data.obj) :
  (List.length lines =? 0)%nat = false ->
  (bytes_in (Data.last_byte (List.concat lines)) [[LF]; [CR]] = false ->
   Data.update now lines d
   = (Data.make (Data._data d) (Data._last_update d)
        (Data.printed d
         ++ [Text (String.append "False data: " (bytes_str (List.concat lines)))])%list,
      Return false) /\
   forall tmp_data rest,
     bytes_eqb (bslice tmp_data 0 1) [x24] = true ->
     Data.read_lines now (tmp_data :: rest) lines d
     = Data.read_lines now rest [tmp_data]
         (Data.make (Data._data d) (Data._last_update d)
            (Data.printed d
             ++ [Text (String.append "False data: " (bytes_str (List.concat lines)))])%list)) /\
  (Data.last_byte (List.concat lines) = [CR] ->
   Data.update now lines d
   = (ok <- Data.on_data (Location.set (bslice (List.concat lines ++ [LF])%list 0 6)
                            (payload (List.concat lines ++ [LF])%list)) ;;
      when ok (modify (Data.with_last_update now)) ;;
      ret false) d /\
   Data.update now lines d = Data.update now [(List.concat lines ++ [LF])%list] d /\
   forall tmp_data rest,
     bytes_eqb (bslice tmp_data 0 1) [x24] = true ->
     Data.read_lines now (tmp_data :: rest) lines d
     = Data.read_lines now (tmp_data :: rest) [(List.concat lines ++ [LF])%list] d).
Proof.
  intros Hlen. split.
  - intros Hbad.
    assert (Hup : Data.update now lines d
      = (Data.make (Data._data d) (Data._last_update d)
           (Data.printed d
            ++ [Text (String.append "False data: " (bytes_str (List.concat lines)))])%list,
         Return false)).
    { unfold Data.update. rewrite Hlen, Hbad. reflexivity. }
    split; [exact Hup |].
    intros tmp_data rest Htmp. cbn [Data.read_lines]. rewrite Htmp.
    unfold bind. rewrite Hup. reflexivity.
  - intros Hcr.
    assert (Hrun : Data.update now lines d
      = (ok <- Data.on_data (Location.set (bslice (List.concat lines ++ [LF])%list 0 6)
                               (payload (List.concat lines ++ [LF])%list)) ;;
         when ok (modify (Data.with_last_update now)) ;;
         ret false) d).
    { unfold Data.update. rewrite Hlen, Hcr. reflexivity. }
    assert (Hsame : Data.update now lines d
                    = Data.update now [(List.concat lines ++ [LF])%list] d).
    { rewrite Hrun. symmetry.
      assert (Hcat : List.concat [(List.concat lines ++ [LF])%list]
                     = (List.concat lines ++ [LF])%list)
        by (cbn [List.concat]; apply app_nil_r).
      rewrite (update_runs_set now [(List.concat lines ++ [LF])%list] d eq_refl).
      - rewrite Hcat. reflexivity.
      - rewrite Hcat, last_byte_snoc. reflexivity. }
    split; [exact Hrun |]. split; [exact Hsame |].
    intros tmp_data rest Htmp. cbn [Data.read_lines]. rewrite Htmp.
    unfold bind. rewrite Hsame. reflexivity.
Qed.

(** ** Further properties of the code *)

(** *** Relations kept by the handlers *)

Lemma set_dispatch msgid segment s :
  Location.set msgid segment s
  = (dispatch msgid (split "," segment) ;;
     modify revalidated ;;
     self <- get ;;
     ret (Location.valid self)) s.
Proof. reflexivity. Qed.

Lemma keeps_bind_lift {S X Y : Type} (R : S -> S -> Prop) (o : outcome X)
    (k : X -> M S Y) :
  (forall s, R s s) ->
  (forall x, o = Return x -> keeps R (k x)) ->
  keeps R (bind (lift o) k).
Proof.
  intros Hrefl Hk s. unfold bind, lift. destruct o as [x | e].
  - apply (Hk x eq_refl).
  - apply Hrefl.
Qed.

Lemma Position_cls v u t x : Position v u t = Return x -> Value.cls x = Value.IsPosition.
Proof.
  unfold Position. destruct (str_in u ["N"; "E"]).
  - intros E. apply init_returns in E. destruct E as [_ ->]. reflexivity.
  - destruct v as [s | q]; [discriminate |].
    intros E. apply init_returns in E. destruct E as [_ ->]. reflexivity.
Qed.

Lemma init_cls k v u t x : Value.init k v u t = Return x -> Value.cls x = k.
Proof. intros E. apply init_returns in E. destruct E as [_ ->]. reflexivity. Qed.

Section Kept.

Variable R : Location.obj -> Location.obj -> Prop.
Hypothesis R_refl : forall s, R s s.
Hypothesis R_trans : forall a b c, R a b -> R b c -> R a c.

Lemma kept_set_lat v d t :
  (forall x s, Value.cls x = Value.IsPosition -> R s (Location.with_lat (Some x) s)) ->
  keeps R (Location.set_lat v d t).
Proof.
  intros Hx s. unfold Location.set_lat.
  destruct (String.length v =? 0)%nat; [apply R_refl |].
  cbv [bind get when lift modify ret].
  destruct (Location.unset_or_older (Location._lat s) t); [| apply R_refl].
  destruct (Value.float (Value.Str (substr v 0 2))) as [deg | e]; [| apply R_refl].
  destruct (Value.float (Value.Str (substr_from v 2))) as [mnt | e]; [| apply R_refl].
  destruct (Position _ d t) as [x | e] eqn:Hp; [| apply R_refl].
  apply Hx. exact (Position_cls _ _ _ _ Hp).
Qed.

Lemma kept_set_long v d t :
  (forall x s, Value.cls x = Value.IsPosition -> R s (Location.with_long (Some x) s)) ->
  keeps R (Location.set_long v d t).
Proof.
  intros Hx s. unfold Location.set_long.
  destruct (String.length v =? 0)%nat; [apply R_refl |].
  cbv [bind get when lift modify ret].
  destruct (Location.unset_or_older (Location._long s) t); [| apply R_refl].
  destruct (Value.float (Value.Str (substr v 0 3))) as [deg | e]; [| apply R_refl].
  destruct (Value.float (Value.Str (substr_from v 3))) as [mnt | e]; [| apply R_refl].
  destruct (Position _ d t) as [x | e] eqn:Hp; [| apply R_refl].
  apply Hx. exact (Position_cls _ _ _ _ Hp).
Qed.

Lemma kept_set_speed v u t :
  (forall x s, Value.cls x = Value.IsSpeed -> R s (Location.with_speed (Some x) s)) ->
  keeps R (Location.set_speed v u t).
Proof.
  intros Hx s. unfold Location.set_speed.
  destruct (String.length v =? 0)%nat; [apply R_refl |].
  cbv [bind get when lift modify ret].
  destruct (Location.unset_or_older (Location._speed s) t); [| apply R_refl].
  destruct (Speed.init _ u t) as [x | e] eqn:Hp; [| apply R_refl].
  apply Hx. exact (init_cls _ _ _ _ _ Hp).
Qed.

Lemma kept_set_course v t :
  (forall x s, Value.cls x = Value.IsCourse -> R s (Location.with_course (Some x) s)) ->
  keeps R (Location.set_course v t).
Proof.
  intros Hx s. unfold Location.set_course.
  destruct (String.length v =? 0)%nat; [apply R_refl |].
  cbv [bind get when lift modify ret].
  destruct (Location.unset_or_older (Location._course s) t); [| apply R_refl].
  destruct (Course _ t) as [x | e] eqn:Hp; [| apply R_refl].
  apply Hx. exact (init_cls _ _ _ _ _ Hp).
Qed.

Lemma kept_set_hdop v t :
  (forall x s, Value.cls x = Value.IsHDOP -> R s (Location.with_hdop (Some x) s)) ->
  keeps R (Location.set_hdop v t).
Proof.
  intros Hx s. unfold Location.set_hdop.
  destruct (String.length v =? 0)%nat; [apply R_refl |].
  cbv [bind get when lift modify ret].
  destruct (Location.unset_or_older (Location._hdop s) t); [| apply R_refl].
  destruct (HDOP.init _ t) as [x | e] eqn:Hp; [| apply R_refl].
  apply Hx. exact (init_cls _ _ _ _ _ Hp).
Qed.

Lemma kept_modify (f : Location.obj -> Location.obj) :
  (forall s, R s (f s)) -> keeps R (modify f).
Proof. intros Hf s. apply Hf. Qed.

Ltac kept_walk leaf :=
  repeat first
    [ apply keeps_ret; exact R_refl
    | apply keeps_lift; exact R_refl
    | apply keeps_get0; exact R_refl
    | apply keeps_when; [exact R_refl | intros _]
    | leaf
    | apply keeps_bind_lift; [exact R_refl | intros ? ?]
    | apply keeps_bind; [exact R_trans | | intros ?]
    | match goal with
      | |- keeps _ (if ?b then _ else _) => destruct b
      end ].

Ltac kept_leaf :=
  first [ apply kept_set_lat; assumption
        | apply kept_set_long; assumption
        | apply kept_set_speed; assumption
        | apply kept_set_course; assumption
        | apply kept_set_hdop; assumption
        | apply kept_modify; intros ?;
          match goal with
          | H : forall n s, R s (Location.with_satellites n s) |- _ => apply H
          | H : forall x s, _ -> R s (Location.with_alt (Some x) s) |- _ =>
              apply H; eapply init_cls; eassumption
          | H : forall x s, _ -> R s (Location.with_height (Some x) s) |- _ =>
              apply H; eapply init_cls; eassumption
          end ].

Lemma kept_gga data :
  (forall x s, Value.cls x = Value.IsPosition -> R s (Location.with_lat (Some x) s)) ->
  (forall x s, Value.cls x = Value.IsPosition -> R s (Location.with_long (Some x) s)) ->
  (forall x s, Value.cls x = Value.IsHDOP -> R s (Location.with_hdop (Some x) s)) ->
  (forall n s, R s (Location.with_satellites n s)) ->
  (forall x s, Value.cls x = Value.IsDistance -> R s (Location.with_alt (Some x) s)) ->
  (forall x s, Value.cls x = Value.IsDistance -> R s (Location.with_height (Some x) s)) ->
  keeps R (Location.gga data).
Proof.
  intros Hlat Hlong Hhdop Hsat Halt Hheight. unfold Location.gga, Distance.
  kept_walk kept_leaf.
Qed.

Lemma kept_gll data :
  (forall x s, Value.cls x = Value.IsPosition -> R s (Location.with_lat (Some x) s)) ->
  (forall x s, Value.cls x = Value.IsPosition -> R s (Location.with_long (Some x) s)) ->
  keeps R (Location.gll data).
Proof. intros Hlat Hlong. unfold Location.gll. kept_walk kept_leaf. Qed.

Lemma kept_rmc data :
  (forall x s, Value.cls x = Value.IsPosition -> R s (Location.with_lat (Some x) s)) ->
  (forall x s, Value.cls x = Value.IsPosition -> R s (Location.with_long (Some x) s)) ->
  (forall x s, Value.cls x = Value.IsSpeed -> R s (Location.with_speed (Some x) s)) ->
  (forall x s, Value.cls x = Value.IsCourse -> R s (Location.with_course (Some x) s)) ->
  keeps R (Location.rmc data).
Proof. intros Hlat Hlong Hspeed Hcourse. unfold Location.rmc. kept_walk kept_leaf. Qed.

Lemma kept_vtg data :
  (forall x s, Value.cls x = Value.IsSpeed -> R s (Location.with_speed (Some x) s)) ->
  keeps R (Location.vtg data).
Proof.
  intros Hspeed. unfold Location.vtg, too_many_arguments, raise.
  kept_walk kept_leaf.
Qed.

Lemma kept_gsv data :
  (forall n s, R s (Location.with_satellites n s)) ->
  keeps R (Location.gsv data).
Proof. intros Hsat. unfold Location.gsv. kept_walk kept_leaf. Qed.

Lemma kept_dispatch msgid data :
  (forall x s, Value.cls x = Value.IsPosition -> R s (Location.with_lat (Some x) s)) ->
  (forall x s, Value.cls x = Value.IsPosition -> R s (Location.with_long (Some x) s)) ->
  (forall x s, Value.cls x = Value.IsSpeed -> R s (Location.with_speed (Some x) s)) ->
  (forall x s, Value.cls x = Value.IsCourse -> R s (Location.with_course (Some x) s)) ->
  (forall x s, Value.cls x = Value.IsHDOP -> R s (Location.with_hdop (Some x) s)) ->
  (forall n s, R s (Location.with_satellites n s)) ->
  (forall x s, Value.cls x = Value.IsDistance -> R s (Location.with_alt (Some x) s)) ->
  (forall x s, Value.cls x = Value.IsDistance -> R s (Location.with_height (Some x) s)) ->
  keeps R (dispatch msgid data).
Proof.
  intros Hlat Hlong Hspeed Hcourse Hhdop Hsat Halt Hheight. unfold dispatch.
  repeat match goal with
         | |- keeps _ (if ?b then _ else _) => destruct b
         end;
    first [ apply kept_gga; assumption | apply kept_gll; assumption
          | apply kept_rmc; assumption | apply kept_vtg; assumption
          | apply kept_gsv; assumption | apply keeps_ret; exact R_refl ].
Qed.

Lemma kept_set msgid segment :
  (forall x s, Value.cls x = Value.IsPosition -> R s (Location.with_lat (Some x) s)) ->
  (forall x s, Value.cls x = Value.IsPosition -> R s (Location.with_long (Some x) s)) ->
  (forall x s, Value.cls x = Value.IsSpeed -> R s (Location.with_speed (Some x) s)) ->
  (forall x s, Value.cls x = Value.IsCourse -> R s (Location.with_course (Some x) s)) ->
  (forall x s, Value.cls x = Value.IsHDOP -> R s (Location.with_hdop (Some x) s)) ->
  (forall n s, R s (Location.with_satellites n s)) ->
  (forall x s, Value.cls x = Value.IsDistance -> R s (Location.with_alt (Some x) s)) ->
  (forall x s, Value.cls x = Value.IsDistance -> R s (Location.with_height (Some x) s)) ->
  (forall s, R s (revalidated s)) ->
  keeps R (Location.set msgid segment).
Proof.
  intros Hlat Hlong Hspeed Hcourse Hhdop Hsat Halt Hheight Hval.
  change (keeps R (dispatch msgid (split "," segment) ;;
                   modify revalidated ;;
                   self <- get ;;
                   ret (Location.valid self))).
  kept_walk ltac:(first [ apply kept_dispatch; assumption
                        | apply kept_modify; assumption ]).
Qed.

Lemma kept_then_revalidated (handler : M Location.obj unit) :
  keeps R handler ->
  (forall s, R s (revalidated s)) ->
  keeps R (handler ;; modify revalidated ;; self <- get ;; ret (Location.valid self)).
Proof.
  intros Hh Hval.
  kept_walk ltac:(first [ exact Hh | apply kept_modify; assumption ]).
Qed.

End Kept.

(** *** The validity flag and the coordinates *)

Lemma dispatch_returns_or_raises msgid segment s :
  (exists s1, dispatch msgid (split "," segment) s = (s1, Return tt) /\
     Location.set msgid segment s
     = (revalidated s1, Return (Location.valid (revalidated s1)))) \/
  (exists s1 e, dispatch msgid (split "," segment) s = (s1, Raise e) /\
     Location.set msgid segment s = (s1, Raise e)).
Proof.
  rewrite set_dispatch.
  destruct (dispatch msgid (split "," segment) s) as [s1 [[] | e]] eqn:D.
  - left. exists s1. split; [reflexivity |]. unfold bind at 1. rewrite D. reflexivity.
  - right. exists s1, e. split; [reflexivity |]. unfold bind at 1. rewrite D. reflexivity.
Qed.

Lemma revalidated_valid s :
  Location._valid (revalidated s) = true <->
  Location._lat (revalidated s) <> None /\ Location._long (revalidated s) <> None.
Proof.
  unfold revalidated. simpl.
  destruct (Location._lat s), (Location._long s); simpl; split;
    try discriminate; try (intros [H1 H2]; congruence);
    intros _; split; discriminate.
Qed.

Lemma returned_flag msgid segment s s' b :
  Location.set msgid segment s = (s', Return b) ->
  b = Location.valid s' /\
  (b = true <-> Location._lat s' <> None /\ Location._long s' <> None).
Proof.
  intros H.
  destruct (dispatch_returns_or_raises msgid segment s)
    as [(s1 & _ & E) | (s1 & e & _ & E)]; rewrite E in H; [| discriminate H].
  inversion H. subst s' b. split; [reflexivity |]. apply revalidated_valid.
Qed.

(** X1.  When [Location.set] returns, the value it returns is the validity
    flag it has just computed, and the flag is True exactly when both
    latitude and longitude are set. *)
Theorem set_returns_validity (msgid : bytes) (segment : string)
    (self self' : Location.obj) (b : bool) :
  Location.set msgid segment self = (self', Return b) ->
  b = Location.valid self' /\
  (b = true <-> Location._lat self' <> None /\ Location._long self' <> None).
Proof.
  intros H.
  destruct (dispatch_returns_or_raises msgid segment self)
    as [(s1 & _ & E) | (s1 & e & _ & E)]; rewrite E in H; [| discriminate H].
  inversion H. subst self' b. split; [reflexivity |]. apply revalidated_valid.
Qed.

Lemma unchanged_refl {A : Type} (view : Location.obj -> A) s : unchanged view s s.
Proof. reflexivity. Qed.

Lemma unchanged_trans {A : Type} (view : Location.obj -> A) a b c :
  unchanged view a b -> unchanged view b c -> unchanged view a c.
Proof. unfold unchanged. intros Hab Hbc. rewrite Hbc. exact Hab. Qed.

Lemma dispatch_keeps_flag msgid data :
  keeps (unchanged Location._valid) (dispatch msgid data).
Proof.
  apply kept_dispatch;
    first [ exact (unchanged_refl _) | exact (unchanged_trans _)
          | intros; reflexivity ].
Qed.

Lemma raised_flag msgid segment s e :
  snd (Location.set msgid segment s) = Raise e ->
  Location.valid (fst (Location.set msgid segment s)) = Location.valid s /\
  fst (Location.set msgid segment s) = fst (dispatch msgid (split "," segment) s).
Proof.
  intros H. pose proof (dispatch_keeps_flag msgid (split "," segment) s) as Hflag.
  destruct (dispatch_returns_or_raises msgid segment s)
    as [(s1 & _ & E) | (s1 & e' & D & E)]; rewrite E in *.
  - discriminate H.
  - rewrite D in *. split; [exact Hflag | reflexivity].
Qed.

(** X2.  When [Location.set] raises, the validity flag is not computed
    again: it is the flag from before the call, and the location is as the
    handler left it.  So after a sentence that raises, latitude and
    longitude can both be set while [valid()] still returns False. *)
Theorem set_raise_keeps_flag (msgid : bytes) (segment : string)
    (self : Location.obj) (e : exn) :
  snd (Location.set msgid segment self) = Raise e ->
  Location.valid (fst (Location.set msgid segment self)) = Location.valid self /\
  fst (Location.set msgid segment self)
  = fst (dispatch msgid (split "," segment) self).
Proof.
  intros H. pose proof (dispatch_keeps_flag msgid (split "," segment) self) as Hflag.
  destruct (dispatch_returns_or_raises msgid segment self)
    as [(s1 & _ & E) | (s1 & e' & D & E)]; rewrite E in *.
  - discriminate H.
  - rewrite D in *. split; [exact Hflag | reflexivity].
Qed.

Lemma never_unset_refl s : never_unset s s.
Proof. repeat split; intros H; exact H. Qed.

Lemma never_unset_trans a b c : never_unset a b -> never_unset b c -> never_unset a c.
Proof.
  intros (A1 & A2 & A3 & A4 & A5 & A6 & A7) (B1 & B2 & B3 & B4 & B5 & B6 & B7).
  repeat split; auto.
Qed.

Lemma set_keeps_measurements msgid segment :
  keeps never_unset (Location.set msgid segment).
Proof.
  apply kept_set;
    first [ exact never_unset_refl | exact never_unset_trans
          | intros; unfold never_unset, revalidated; simpl;
            repeat split; intros Hset; first [exact Hset | discriminate] ].
Qed.

(** X3.  [Location.set] never unsets a measurement: latitude, longitude,
    altitude, height, speed, course and HDOP, once set, are still set after
    any sentence, whether [set] returns or raises. *)
Theorem set_never_unsets (msgid : bytes) (segment : string) (self : Location.obj) :
  (Location._lat self <> None ->
   Location._lat (fst (Location.set msgid segment self)) <> None) /\
  (Location._long self <> None ->
   Location._long (fst (Location.set msgid segment self)) <> None) /\
  (Location._alt self <> None ->
   Location._alt (fst (Location.set msgid segment self)) <> None) /\
  (Location._height self <> None ->
   Location._height (fst (Location.set msgid segment self)) <> None) /\
  (Location._speed self <> None ->
   Location._speed (fst (Location.set msgid segment self)) <> None) /\
  (Location._course self <> None ->
   Location._course (fst (Location.set msgid segment self)) <> None) /\
  (Location._hdop self <> None ->
   Location._hdop (fst (Location.set msgid segment self)) <> None).
Proof. exact (set_keeps_measurements msgid segment self). Qed.

Lemma set_keeps_coords_if_valid msgid segment s :
  coords_if_valid s -> coords_if_valid (fst (Location.set msgid segment s)).
Proof.
  intros Hs.
  destruct (dispatch_returns_or_raises msgid segment s)
    as [(s1 & _ & E) | (s1 & e & D & E)].
  - rewrite E. simpl fst. intros Hv. apply revalidated_valid. exact Hv.
  - pose proof (set_keeps_measurements msgid segment s) as (Hlat & Hlong & _).
    pose proof (dispatch_keeps_flag msgid (split "," segment) s) as Hflag.
    rewrite D in Hflag. rewrite E in *. simpl fst in *.
    intros Hv. rewrite Hflag in Hv. destruct (Hs Hv) as [H1 H2].
    split; [apply Hlat; exact H1 | apply Hlong; exact H2].
Qed.

(** X4.  A location whose validity flag is True has both latitude and
    longitude set: this holds for a new [Location()] and is kept by every
    call of [set], also by one that raises (where the converse can fail). *)
Theorem valid_flag_implies_coordinates (msgid : bytes) (segment : string)
    (self : Location.obj) :
  coords_if_valid Location.init /\
  (coords_if_valid self -> coords_if_valid (fst (Location.set msgid segment self))).
Proof.
  split.
  - intros H. discriminate H.
  - apply set_keeps_coords_if_valid.
Qed.

(** *** Classes of the stored measurements *)

Lemma set_keeps_classes msgid segment :
  keeps (fun s s' => classes_ok s -> classes_ok s') (Location.set msgid segment).
Proof.
  apply kept_set;
    first [ (intros s H; exact H)
          | (intros a b c Hab Hbc H; exact (Hbc (Hab H)))
          | (intros x s Hx (H1 & H2 & H3 & H4 & H5 & H6 & H7);
             repeat split; simpl; assumption)
          | (intros n s (H1 & H2 & H3 & H4 & H5 & H6 & H7);
             repeat split; simpl; assumption)
          | (intros s (H1 & H2 & H3 & H4 & H5 & H6 & H7);
             unfold revalidated; repeat split; simpl; assumption) ].
Qed.

(** X5.  Every measurement stored in a location is an instance of the class
    of its field -- Position for latitude and longitude, Distance for
    altitude and height, Speed, Course and HDOP for the fields of these
    names: a new [Location()] holds none, and [set] stores no other, whether
    it returns or raises. *)
Theorem set_keeps_field_classes (msgid : bytes) (segment : string)
    (self : Location.obj) :
  classes_ok Location.init /\
  (classes_ok self -> classes_ok (fst (Location.set msgid segment self))).
Proof.
  split.
  - repeat split.
  - exact (set_keeps_classes msgid segment self).
Qed.

(** *** What each handler leaves alone *)

Ltac frame_of lemma :=
  apply kept_then_revalidated;
    first [ exact (unchanged_refl _) | exact (unchanged_trans _)
          | apply lemma;
              first [ exact (unchanged_refl _) | exact (unchanged_trans _)
                    | intros; reflexivity ]
          | intros; reflexivity ].

(** X6.  Each handler leaves alone the fields that are not its own.  A
    $GPGGA sentence never changes speed or course; a $GPGLL sentence never
    changes altitude, height, speed, course, satellite count or HDOP; a
    $GPRMC sentence never changes altitude, height, satellite count or
    HDOP; a $GPVTG sentence changes nothing but the speed; a $GPGSV sentence
    changes no measurement, only the satellite count (and the validity
    flag).  This holds whether [set] returns or raises. *)
Theorem handlers_leave_other_fields (segment : string) (self : Location.obj) :
  (let s' := fst (Location.set GPGGA segment self) in
   Location._speed s' = Location._speed self /\
   Location._course s' = Location._course self) /\
  (let s' := fst (Location.set GPGLL segment self) in
   Location._alt s' = Location._alt self /\
   Location._height s' = Location._height self /\
   Location._speed s' = Location._speed self /\
   Location._course s' = Location._course self /\
   Location._satellites s' = Location._satellites self /\
   Location._hdop s' = Location._hdop self) /\
  (let s' := fst (Location.set GPRMC segment self) in
   Location._alt s' = Location._alt self /\
   Location._height s' = Location._height self /\
   Location._satellites s' = Location._satellites self /\
   Location._hdop s' = Location._hdop self) /\
  (let s' := fst (Location.set GPVTG segment self) in
   Location._lat s' = Location._lat self /\
   Location._long s' = Location._long self /\
   Location._alt s' = Location._alt self /\
   Location._height s' = Location._height self /\
   Location._course s' = Location._course self /\
   Location._satellites s' = Location._satellites self /\
   Location._hdop s' = Location._hdop self) /\
  (let s' := fst (Location.set GPGSV segment self) in
   Location._lat s' = Location._lat self /\
   Location._long s' = Location._long self /\
   Location._alt s' = Location._alt self /\
   Location._height s' = Location._height self /\
   Location._speed s' = Location._speed self /\
   Location._course s' = Location._course self /\
   Location._hdop s' = Location._hdop self).
Proof.
  assert (Hgga : keeps (unchanged (fun s => (Location._speed s, Location._course s)))
                   (Location.set GPGGA segment)).
  { change (Location.set GPGGA segment)
      with (Location.gga (split "," segment) ;; modify revalidated ;;
            self <- get ;; ret (Location.valid self)).
    frame_of kept_gga. }
  assert (Hgll : keeps (unchanged (fun s =>
                     (Location._alt s, Location._height s, Location._speed s,
                      Location._course s, Location._satellites s, Location._hdop s)))
                   (Location.set GPGLL segment)).
  { change (Location.set GPGLL segment)
      with (Location.gll (split "," segment) ;; modify revalidated ;;
            self <- get ;; ret (Location.valid self)).
    frame_of kept_gll. }
  assert (Hrmc : keeps (unchanged (fun s =>
                     (Location._alt s, Location._height s,
                      Location._satellites s, Location._hdop s)))
                   (Location.set GPRMC segment)).
  { change (Location.set GPRMC segment)
      with (Location.rmc (split "," segment) ;; modify revalidated ;;
            self <- get ;; ret (Location.valid self)).
    frame_of kept_rmc. }
  assert (Hvtg : keeps (unchanged (fun s =>
                     (Location._lat s, Location._long s, Location._alt s,
                      Location._height s, Location._course s,
                      Location._satellites s, Location._hdop s)))
                   (Location.set GPVTG segment)).
  { change (Location.set GPVTG segment)
      with (Location.vtg (split "," segment) ;; modify revalidated ;;
            self <- get ;; ret (Location.valid self)).
    frame_of kept_vtg. }
  assert (Hgsv : keeps (unchanged (fun s =>
                     (Location._lat s, Location._long s, Location._alt s,
                      Location._height s, Location._speed s, Location._course s,
                      Location._hdop s)))
                   (Location.set GPGSV segment)).
  { change (Location.set GPGSV segment)
      with (Location.gsv (split "," segment) ;; modify revalidated ;;
            self <- get ;; ret (Location.valid self)).
    frame_of kept_gsv. }
  specialize (Hgga self). specialize (Hgll self). specialize (Hrmc self).
  specialize (Hvtg self). specialize (Hgsv self).
  unfold unchanged in *. cbv zeta.
  repeat match goal with
         | H : (_, _) = (_, _) |- _ => apply pair_equal_spec in H; destruct H
         end.
  repeat split; assumption.
Qed.

(** *** RMC sentences that are too short *)

Lemma bind_always_raises {S X Y : Type} (m : M S X) (k : X -> M S Y) :
  (forall x s1, exists e, snd (k x s1) = Raise e) ->
  forall s, exists e, snd (bind m k s) = Raise e.
Proof.
  intros Hk s. unfold bind. destruct (m s) as [s1 [x | e]].
  - apply Hk.
  - exists e. reflexivity.
Qed.

Lemma rmc_ok_length d : Location.rmc_ok d = true -> (6 <= List.length d)%nat.
Proof.
  unfold Location.rmc_ok. intros H. apply andb_prop in H. destruct H as [H _].
  apply Nat.leb_le in H. exact H.
Qed.

Lemma gll_ok_length d : Location.gll_ok d = true -> (6 <= List.length d)%nat.
Proof.
  unfold Location.gll_ok. intros H. apply andb_prop in H. destruct H as [H _].
  apply Nat.leb_le in H. exact H.
Qed.

(** X7.  A $GPRMC sentence that passes the guard of its handler (at least 6
    fields, field[1] == A) but has fewer than 8 fields never lets [set]
    return: the handler reads field[6] and field[7] without testing that
    they exist, so the call raises (IndexError at the latest). *)
Theorem short_rmc_raises (segment : string) (self : Location.obj) :
  Location.rmc_ok (split "," segment) = true ->
  (List.length (split "," segment) <= 7)%nat ->
  exists e, snd (Location.set GPRMC segment self) = Raise e.
Proof.
  intros Hok Hlen.
  change (Location.set GPRMC segment)
    with (Location.rmc (split "," segment) ;; modify revalidated ;;
          self <- get ;; ret (Location.valid self)).
  assert (Hrmc : forall s, exists e, snd (Location.rmc (split "," segment) s) = Raise e).
  { unfold Location.rmc. rewrite Hok. unfold when.
    do 10 (apply bind_always_raises; intros ? ?).
    unfold bind, lift, item.
    rewrite (proj2 (nth_error_None (split "," segment) 7)) by lia.
    exists IndexError. reflexivity. }
  unfold bind at 1. destruct (Hrmc self) as [e He].
  destruct (Location.rmc (split "," segment) self) as [s1 [x | e']]; simpl in He.
  - discriminate He.
  - exists e'. reflexivity.
Qed.

(** *** Sentences that give a valid location *)

Lemma older_field_is_set field t :
  Location.unset_or_older field t = false -> field <> None.
Proof. destruct field; [discriminate | simpl; discriminate]. Qed.

Lemma set_lat_returns_set v d t s s' r :
  v <> EmptyString ->
  Location.set_lat v d t s = (s', Return r) -> Location._lat s' <> None.
Proof.
  intros Hv. unfold Location.set_lat. destruct v as [| c v']; [contradiction |].
  cbv [String.length Nat.eqb bind get when lift modify ret].
  destruct (Location.unset_or_older (Location._lat s) t) eqn:Hu.
  - destruct (Value.float _) as [deg | e]; cbv beta iota; [| discriminate].
    destruct (Value.float _) as [mnt | e]; cbv beta iota; [| discriminate].
    destruct (Position _ d t) as [x | e]; cbv beta iota; [| discriminate].
    intros E. inversion E. discriminate.
  - intros E. inversion E. subst s'. exact (older_field_is_set _ _ Hu).
Qed.

Lemma set_long_returns_set v d t s s' r :
  v <> EmptyString ->
  Location.set_long v d t s = (s', Return r) -> Location._long s' <> None.
Proof.
  intros Hv. unfold Location.set_long. destruct v as [| c v']; [contradiction |].
  cbv [String.length Nat.eqb bind get when lift modify ret].
  destruct (Location.unset_or_older (Location._long s) t) eqn:Hu.
  - destruct (Value.float _) as [deg | e]; cbv beta iota; [| discriminate].
    destruct (Value.float _) as [mnt | e]; cbv beta iota; [| discriminate].
    destruct (Position _ d t) as [x | e]; cbv beta iota; [| discriminate].
    intros E. inversion E. discriminate.
  - intros E. inversion E. subst s'. exact (older_field_is_set _ _ Hu).
Qed.

Lemma set_keeps_lat_of_long v d t s s' (r : outcome unit) :
  Location.set_long v d t s = (s', r) ->
  Location._lat s <> None -> Location._lat s' <> None.
Proof.
  intros E Hlat. pose proof (set_long_effect v d t s) as H.
  rewrite E in H. simpl fst in H.
  destruct H as [-> | [x [-> _]]]; exact Hlat.
Qed.

Ltac walk_lift Hrefl Htrans leaf :=
  repeat first
    [ apply keeps_ret; exact Hrefl
    | apply keeps_lift; exact Hrefl
    | apply keeps_get0; exact Hrefl
    | apply keeps_when; [exact Hrefl | intros _]
    | leaf
    | apply keeps_bind_lift; [exact Hrefl | intros ? ?]
    | apply keeps_bind; [exact Htrans | | intros ?]
    | match goal with
      | |- keeps _ (if ?b then _ else _) => destruct b
      end ].

Ltac never_unset_step :=
  intros; unfold never_unset; simpl;
  repeat split; intros Hset; first [exact Hset | discriminate].

Ltac never_unset_leaf :=
  first
    [ apply (kept_set_lat never_unset never_unset_refl); never_unset_step
    | apply (kept_set_long never_unset never_unset_refl); never_unset_step
    | apply (kept_set_speed never_unset never_unset_refl); never_unset_step
    | apply (kept_set_course never_unset never_unset_refl); never_unset_step
    | apply (kept_set_hdop never_unset never_unset_refl); never_unset_step
    | apply kept_modify; never_unset_step ].

Ltac tail_never_unsets H K :=
  match type of H with
  | ?m ?s = _ =>
      assert (K : keeps never_unset m)
        by (walk_lift never_unset_refl never_unset_trans never_unset_leaf);
      specialize (K s); rewrite H in K; simpl fst in K
  end.

Lemma coordinates_give_validity s1 s' b :
  Location._lat s1 <> None -> Location._long s1 <> None ->
  s' = revalidated s1 -> b = Location.valid (revalidated s1) ->
  b = true /\ Location._lat s' <> None /\ Location._long s' <> None.
Proof.
  intros Hlat Hlong -> ->. unfold revalidated, Location.valid. simpl.
  destruct (Location._lat s1); [| contradiction].
  destruct (Location._long s1); [| contradiction].
  repeat split; discriminate.
Qed.

(** X8.  A position sentence that is taken gives a valid location: when
    [set] returns on a $GPGGA, $GPGLL or $GPRMC sentence that passes the
    guard of its handler and whose latitude and longitude fields are not
    empty, it returns True, and latitude and longitude are set. *)
Theorem position_sentence_validates (segment : string) (self self' : Location.obj)
    (b : bool) :
  (Location.gga_ok (split "," segment) = true ->
   nth 1 (split "," segment) EmptyString <> EmptyString ->
   nth 3 (split "," segment) EmptyString <> EmptyString ->
   Location.set GPGGA segment self = (self', Return b) ->
   b = true /\ Location._lat self' <> None /\ Location._long self' <> None) /\
  (Location.gll_ok (split "," segment) = true ->
   nth 0 (split "," segment) EmptyString <> EmptyString ->
   nth 2 (split "," segment) EmptyString <> EmptyString ->
   Location.set GPGLL segment self = (self', Return b) ->
   b = true /\ Location._lat self' <> None /\ Location._long self' <> None) /\
  (Location.rmc_ok (split "," segment) = true ->
   nth 2 (split "," segment) EmptyString <> EmptyString ->
   nth 4 (split "," segment) EmptyString <> EmptyString ->
   Location.set GPRMC segment self = (self', Return b) ->
   b = true /\ Location._lat self' <> None /\ Location._long self' <> None).
Proof.
  set (data := split "," segment).
  split; [| split]; intros Hok Hv1 Hv2 H.
  - pose proof (gga_ok_length _ Hok) as Hlen.
    apply set_returns in H. destruct H as (s1 & H & Hs' & Hb). fold data in H.
    change (bytes_eqb GPGGA GPGGA) with true in H. cbv iota in H.
    unfold Location.gga in H. rewrite Hok in H. unfold when at 1 in H.
    step_item H ltac:(lia). step H t s2 Ht. apply lift_returns in Ht.
    destruct Ht as [-> _].
    step_item H ltac:(lia). step_item H ltac:(lia).
    step H r1 s3 Hlat. apply (set_lat_returns_set _ _ _ _ _ _ Hv1) in Hlat.
    step_item H ltac:(lia). step_item H ltac:(lia).
    step H r2 s4 Hlong.
    pose proof (set_keeps_lat_of_long _ _ _ _ _ _ Hlong Hlat) as Hlat4.
    apply (set_long_returns_set _ _ _ _ _ _ Hv2) in Hlong.
    tail_never_unsets H K. destruct K as (K1 & K2 & _).
    exact (coordinates_give_validity s1 self' b (K1 Hlat4) (K2 Hlong) Hs' Hb).
  - pose proof (gll_ok_length _ Hok) as Hlen.
    apply set_returns in H. destruct H as (s1 & H & Hs' & Hb). fold data in H.
    change (bytes_eqb GPGLL GPGGA) with false in H.
    change (bytes_eqb GPGLL GPGLL) with true in H. cbv iota in H.
    unfold Location.gll in H. rewrite Hok in H. unfold when at 1 in H.
    step_item H ltac:(lia). step H t s2 Ht. apply lift_returns in Ht.
    destruct Ht as [-> _].
    step_item H ltac:(lia). step_item H ltac:(lia).
    step H r1 s3 Hlat. apply (set_lat_returns_set _ _ _ _ _ _ Hv1) in Hlat.
    step_item H ltac:(lia). step_item H ltac:(lia).
    destruct r1.
    pose proof (set_keeps_lat_of_long _ _ _ _ _ _ H Hlat) as Hlat4.
    apply (set_long_returns_set _ _ _ _ _ _ Hv2) in H.
    exact (coordinates_give_validity s1 self' b Hlat4 H Hs' Hb).
  - pose proof (rmc_ok_length _ Hok) as Hlen.
    apply set_returns in H. destruct H as (s1 & H & Hs' & Hb). fold data in H.
    change (bytes_eqb GPRMC GPGGA) with false in H.
    change (bytes_eqb GPRMC GPGLL) with false in H.
    change (bytes_eqb GPRMC GPRMC) with true in H. cbv iota in H.
    unfold Location.rmc in H. rewrite Hok in H. unfold when at 1 in H.
    step_item H ltac:(lia). step H t s2 Ht. apply lift_returns in Ht.
    destruct Ht as [-> _].
    step_item H ltac:(lia). step_item H ltac:(lia).
    step H r1 s3 Hlat. apply (set_lat_returns_set _ _ _ _ _ _ Hv1) in Hlat.
    step_item H ltac:(lia). step_item H ltac:(lia).
    step H r2 s4 Hlong.
    pose proof (set_keeps_lat_of_long _ _ _ _ _ _ Hlong Hlat) as Hlat4.
    apply (set_long_returns_set _ _ _ _ _ _ Hv2) in Hlong.
    tail_never_unsets H K. destruct K as (K1 & K2 & _).
    exact (coordinates_give_validity s1 self' b (K1 Hlat4) (K2 Hlong) Hs' Hb).
Qed.

(** *** Repeated measurements and repeated conversions *)

Lemma time_lt_irrefl t : time_lt t t = false.
Proof.
  destruct (time_lt t t) eqn:E; [| reflexivity].
  apply time_lt_lex in E. destruct t as [[h m] sec]. unfold lex_lt in E.
  destruct E as [E | [_ [E | [_ E]]]]; try lia.
  exfalso. exact (Qlt_irrefl _ E).
Qed.

Lemma stored_is_not_older x t :
  Value.time x = t -> Location.unset_or_older (Some x) t = false.
Proof. intros <-. simpl. apply time_lt_irrefl. Qed.

(** X9.  A measurement delivered twice is stored once: calling one of the
    five setters a second time with the same arguments leaves the location
    as the first call left it (the time of the second is not strictly
    greater than the one just stored). *)
Theorem setters_idempotent (v u : string) (t : timestamp) (self : Location.obj) :
  fst (Location.set_lat v u t (fst (Location.set_lat v u t self)))
  = fst (Location.set_lat v u t self) /\
  fst (Location.set_long v u t (fst (Location.set_long v u t self)))
  = fst (Location.set_long v u t self) /\
  fst (Location.set_speed v u t (fst (Location.set_speed v u t self)))
  = fst (Location.set_speed v u t self) /\
  fst (Location.set_course v t (fst (Location.set_course v t self)))
  = fst (Location.set_course v t self) /\
  fst (Location.set_hdop v t (fst (Location.set_hdop v t self)))
  = fst (Location.set_hdop v t self).
Proof.
  split; [| split; [| split; [| split]]].
  - unfold Location.set_lat. destruct (String.length v =? 0)%nat; [reflexivity |].
    cbv [bind get when lift modify ret].
    destruct (Location.unset_or_older (Location._lat self) t) eqn:Hu;
      [| cbn [fst]; rewrite ?Hu; reflexivity].
    destruct (Value.float (Value.Str (substr v 0 2))) as [deg | e] eqn:Hd;
      [| cbn [fst]; rewrite ?Hu; reflexivity].
    destruct (Value.float (Value.Str (substr_from v 2))) as [mnt | e] eqn:Hm;
      [| cbn [fst]; rewrite ?Hu; reflexivity].
    destruct (Position _ u t) as [x | e] eqn:Hp;
      [| cbn [fst]; rewrite ?Hu; reflexivity].
    cbn [fst]. change (Location._lat (Location.with_lat (Some x) self)) with (Some x).
    rewrite (stored_is_not_older x t (Position_time _ _ _ _ Hp)). reflexivity.
  - unfold Location.set_long. destruct (String.length v =? 0)%nat; [reflexivity |].
    cbv [bind get when lift modify ret].
    destruct (Location.unset_or_older (Location._long self) t) eqn:Hu;
      [| cbn [fst]; rewrite ?Hu; reflexivity].
    destruct (Value.float (Value.Str (substr v 0 3))) as [deg | e] eqn:Hd;
      [| cbn [fst]; rewrite ?Hu; reflexivity].
    destruct (Value.float (Value.Str (substr_from v 3))) as [mnt | e] eqn:Hm;
      [| cbn [fst]; rewrite ?Hu; reflexivity].
    destruct (Position _ u t) as [x | e] eqn:Hp;
      [| cbn [fst]; rewrite ?Hu; reflexivity].
    cbn [fst]. change (Location._long (Location.with_long (Some x) self)) with (Some x).
    rewrite (stored_is_not_older x t (Position_time _ _ _ _ Hp)). reflexivity.
  - unfold Location.set_speed. destruct (String.length v =? 0)%nat; [reflexivity |].
    cbv [bind get when lift modify ret].
    destruct (Location.unset_or_older (Location._speed self) t) eqn:Hu;
      [| cbn [fst]; rewrite ?Hu; reflexivity].
    destruct (Speed.init _ u t) as [x | e] eqn:Hp;
      [| cbn [fst]; rewrite ?Hu; reflexivity].
    cbn [fst]. change (Location._speed (Location.with_speed (Some x) self)) with (Some x).
    rewrite (stored_is_not_older x t (init_time _ _ _ _ _ Hp)). reflexivity.
  - unfold Location.set_course. destruct (String.length v =? 0)%nat; [reflexivity |].
    cbv [bind get when lift modify ret].
    destruct (Location.unset_or_older (Location._course self) t) eqn:Hu;
      [| cbn [fst]; rewrite ?Hu; reflexivity].
    destruct (Course _ t) as [x | e] eqn:Hp;
      [| cbn [fst]; rewrite ?Hu; reflexivity].
    cbn [fst]. change (Location._course (Location.with_course (Some x) self)) with (Some x).
    rewrite (stored_is_not_older x t (init_time _ _ _ _ _ Hp)). reflexivity.
  - unfold Location.set_hdop. destruct (String.length v =? 0)%nat; [reflexivity |].
    cbv [bind get when lift modify ret].
    destruct (Location.unset_or_older (Location._hdop self) t) eqn:Hu;
      [| cbn [fst]; rewrite ?Hu; reflexivity].
    destruct (HDOP.init _ t) as [x | e] eqn:Hp;
      [| cbn [fst]; rewrite ?Hu; reflexivity].
    cbn [fst]. change (Location._hdop (Location.with_hdop (Some x) self)) with (Some x).
    rewrite (stored_is_not_older x t (init_time _ _ _ _ _ Hp)). reflexivity.
Qed.

(** X10.  The conversions of Speed never raise, keep the time of the
    measurement, and are idempotent: the result of [to_kmh] is not in knots
    any more and [to_kmh] returns it unchanged, and likewise for
    [to_knot]. *)
Theorem speed_conversions_idempotent (s : Value.obj) :
  (exists k, Speed.to_kmh s = Return k /\ Speed.to_kmh k = Return k /\
     str_in (Value.unit k) ["knot"; "N"] = false /\
     Value.time k = Value.time s) /\
  (exists k, Speed.to_knot s = Return k /\ Speed.to_knot k = Return k /\
     str_in (Value.unit k) ["kmh"; "K"] = false /\
     Value.time k = Value.time s).
Proof.
  split.
  - unfold Speed.to_kmh at 1.
    destruct (str_in (Value.unit s) ["knot"; "N"]) eqn:Hu.
    + eexists. split; [reflexivity |]. repeat split; reflexivity.
    + exists s. split; [reflexivity |]. unfold Speed.to_kmh. rewrite Hu.
      repeat split; reflexivity.
  - unfold Speed.to_knot at 1.
    destruct (str_in (Value.unit s) ["kmh"; "K"]) eqn:Hu.
    + eexists. split; [reflexivity |]. repeat split; reflexivity.
    + exists s. split; [reflexivity |]. unfold Speed.to_knot. rewrite Hu.
      repeat split; reflexivity.
Qed.

(** *** The decode cycle *)

Section Cycle.

Variable I : Location.obj -> Prop.
Hypothesis I_set : forall msgid segment s, I s -> I (fst (Location.set msgid segment s)).

Let on_location (d d' : Data.obj) : Prop := I (Data._data d) -> I (Data._data d').

Lemma on_location_refl d : on_location d d.
Proof. intros H. exact H. Qed.

Lemma on_location_trans a b c : on_location a b -> on_location b c -> on_location a c.
Proof. intros Hab Hbc H. exact (Hbc (Hab H)). Qed.

Lemma on_location_set msgid segment :
  keeps on_location (Data.on_data (Location.set msgid segment)).
Proof.
  intros d H. unfold Data.on_data.
  pose proof (I_set msgid segment (Data._data d) H) as Hs.
  destruct (Location.set msgid segment (Data._data d)) as [l r]. exact Hs.
Qed.

Ltac cycle_leaf :=
  first [ apply on_location_set
        | (intros ? ?; assumption) ].

Lemma update_keeps now data : keeps on_location (Data.update now data).
Proof.
  unfold Data.update. cbv zeta. unfold Data.print.
  walk_lift on_location_refl on_location_trans cycle_leaf.
Qed.

Lemma read_lines_keeps now lines :
  forall data, keeps on_location (Data.read_lines now lines data).
Proof.
  induction lines as [| tmp_data rest IH]; intros data; cbn [Data.read_lines].
  - apply keeps_ret. exact on_location_refl.
  - destruct (bytes_eqb (bslice tmp_data 0 1) [x24]).
    + apply keeps_bind; [exact on_location_trans | apply update_keeps |].
      intros _. apply IH.
    + destruct (negb (List.length data =? 0)%nat); apply IH.
Qed.

Lemma new_location_establishes now lines ttw d :
  I Location.init ->
  Qlt_bool (now - (Data._last_update d + ttw)) 0 = false ->
  I (Data._data (fst (Data.new_location now lines ttw d))).
Proof.
  intros Hinit Hthrottle. unfold Data.new_location.
  unfold bind at 1. unfold get at 1. rewrite Hthrottle.
  unfold bind at 1. unfold modify at 1.
  assert (K : keeps on_location
                (data <- Data.read_lines now lines [] ;;
                 Data.update now data ;;
                 self <- get ;;
                 when (Location.valid (Data._data self))
                   (Data.print (Repr (Data._data self))) ;;
                 self0 <- get ;;
                 ret (Location.valid (Data._data self0)))).
  { unfold Data.print.
    walk_lift on_location_refl on_location_trans
      ltac:(first [ apply read_lines_keeps | apply update_keeps
                  | (intros ? ?; assumption) ]). }
  apply K. exact Hinit.
Qed.

End Cycle.

Lemma new_location_returns now lines ttw d d' b :
  Data.new_location now lines ttw d = (d', Return b) ->
  (Qlt_bool (now - (Data._last_update d + ttw)) 0 = true /\ d' = d /\ b = false) \/
  (Qlt_bool (now - (Data._last_update d + ttw)) 0 = false /\
   b = Location.valid (Data._data d')).
Proof.
  unfold Data.new_location. unfold bind at 1. unfold get at 1.
  destruct (Qlt_bool (now - (Data._last_update d + ttw)) 0).
  - intros E. inversion E. left. repeat split; reflexivity.
  - intros H. right. split; [reflexivity |].
    step H x1 s1 H1. step H x2 s2 H2. step H x3 s3 H3.
    step H x4 s4 H4. apply get_returns in H4. destruct H4 as [-> ->].
    step H x5 s5 H5. step H x6 s6 H6. apply get_returns in H6.
    destruct H6 as [-> ->]. inversion H. reflexivity.
Qed.

(** X11.  [new_location] returns True only for a location that has both
    latitude and longitude: whatever the lines read and whatever the
    location of the cycle before, a cycle that returns True leaves in
    [get_location()] a location flagged valid whose two coordinates are
    set. *)
Theorem new_location_true_has_coordinates (now ttw : Q) (lines : list bytes)
    (d d' : Data.obj) :
  Data.new_location now lines ttw d = (d', Return true) ->
  Location.valid (Data.get_location d') = true /\
  Location._lat (Data.get_location d') <> None /\
  Location._long (Data.get_location d') <> None.
Proof.
  intros H. destruct (new_location_returns _ _ _ _ _ _ H) as [(_ & _ & E) | (Ht & E)];
    [discriminate E |].
  pose proof (new_location_establishes coords_if_valid set_keeps_coords_if_valid
                now lines ttw d) as K.
  assert (Hinit : coords_if_valid Location.init) by (intros E'; discriminate E').
  specialize (K Hinit Ht). rewrite H in K. simpl fst in K.
  unfold Data.get_location. split; [symmetry; exact E |].
  apply K. symmetry. exact E.
Qed.

Lemma bind_run_return {S X Y : Type} (m : M S X) (k : X -> M S Y) s s1 x :
  m s = (s1, Return x) -> bind m k s = k x s1.
Proof. unfold bind. intros ->. reflexivity. Qed.

Lemma bind_same_start {S X Y : Type} (m m' : M S X) (k : X -> M S Y) s s' :
  m s = m' s' -> bind m k s = bind m' k s'.
Proof. unfold bind. intros ->. reflexivity. Qed.

Lemma new_location_cases now lines ttw d :
  Data.new_location now lines ttw d
  = if Qlt_bool (now - (Data._last_update d + ttw)) 0 then (d, Return false)
    else (data <- Data.read_lines now lines [] ;;
          Data.update now data ;;
          self <- get ;;
          when (Location.valid (Data._data self))
            (Data.print (Repr (Data._data self))) ;;
          self <- get ;;
          ret (Location.valid (Data._data self)))
           (Data.with_data Location.init d).
Proof.
  unfold Data.new_location. unfold bind at 1. unfold get at 1.
  destruct (Qlt_bool (now - (Data._last_update d + ttw)) 0); reflexivity.
Qed.

(** X12.  The minimum interval and the fresh location.  A call of
    [new_location] made before [ttw] has passed since the last valid fix
    returns False and changes nothing, whatever lines are waiting.  A call
    that runs a cycle starts from a new [Location()]: what it returns and
    the location it leaves do not depend on the location of the cycle
    before. *)
Theorem new_location_throttled_or_fresh (now ttw : Q) (lines : list bytes)
    (d : Data.obj) :
  (Qlt_bool (now - (Data._last_update d + ttw)) 0 = true ->
   Data.new_location now lines ttw d = (d, Return false)) /\
  (Qlt_bool (now - (Data._last_update d + ttw)) 0 = false ->
   forall l, Data.new_location now lines ttw (Data.with_data l d)
             = Data.new_location now lines ttw d).
Proof.
  split; intros Hthrottle.
  - rewrite new_location_cases, Hthrottle. reflexivity.
  - intros l. rewrite !new_location_cases.
    change (Data._last_update (Data.with_data l d)) with (Data._last_update d).
    rewrite Hthrottle. reflexivity.
Qed.

(** *** Framing *)

Lemma bslice_first b (t : bytes) : bslice (b :: t) 0 1 = [b].
Proof.
  unfold bslice, clip. cbn [List.length].
  change (0 <? 0) with false. change (1 <? 0) with false. cbv iota.
  rewrite Nat2Z.inj_succ.
  replace (Z.to_nat (Z.min 0 (Z.succ (Z.of_nat (List.length t))))) with 0%nat by lia.
  replace (Z.to_nat (Z.min 1 (Z.succ (Z.of_nat (List.length t)))
                     - Z.min 0 (Z.succ (Z.of_nat (List.length t))))) with 1%nat by lia.
  reflexivity.
Qed.

Lemma is_start_cons line : is_start line = true <-> exists t, line = x24 :: t.
Proof.
  unfold is_start. split.
  - destruct line as [| b t]; [discriminate |].
    rewrite bslice_first. cbn [bytes_eqb]. rewrite andb_true_r.
    intros E. apply byte_dec_bl in E. subst b. exists t. reflexivity.
  - intros [t ->]. rewrite bslice_first. reflexivity.
Qed.

Lemma read_lines_start now line rest data d :
  is_start line = true ->
  Data.read_lines now (line :: rest) data d
  = (Data.update now data ;; Data.read_lines now rest [line]) d.
Proof. intros H. unfold is_start in H. cbn [Data.read_lines]. rewrite H. reflexivity. Qed.

Lemma read_lines_skips now junk :
  forallb (fun line => negb (is_start line)) junk = true ->
  forall rest d,
    Data.read_lines now (junk ++ rest) [] d = Data.read_lines now rest [] d.
Proof.
  induction junk as [| line junk IH]; intros Hjunk rest d; [reflexivity |].
  cbn [forallb] in Hjunk. apply andb_prop in Hjunk. destruct Hjunk as [Hline Hjunk].
  apply negb_true_iff in Hline. unfold is_start in Hline.
  cbn [app Data.read_lines]. rewrite Hline. cbn [List.length Nat.eqb negb].
  apply IH. exact Hjunk.
Qed.

Lemma read_lines_appends now conts :
  forallb (fun line => negb (is_start line)) conts = true ->
  forall data d, data <> [] ->
    Data.read_lines now conts data d = (d, Return (data ++ conts)%list).
Proof.
  induction conts as [| line conts IH]; intros Hconts data d Hdata.
  - cbn [Data.read_lines]. rewrite app_nil_r. reflexivity.
  - cbn [forallb] in Hconts. apply andb_prop in Hconts.
    destruct Hconts as [Hline Hconts].
    apply negb_true_iff in Hline. unfold is_start in Hline.
    cbn [Data.read_lines]. rewrite Hline.
    destruct data as [| x data']; [contradiction |].
    cbn [List.length Nat.eqb negb].
    rewrite (IH Hconts ((x :: data') ++ [line])%list d) by discriminate.
    rewrite <- app_assoc. reflexivity.
Qed.

Lemma update_joined now (data : list bytes) d :
  data <> [] -> Data.update now data d = Data.update now [List.concat data] d.
Proof.
  intros Hdata. unfold Data.update. destruct data as [| x data']; [contradiction |].
  cbn [List.length Nat.eqb].
  change (List.concat [List.concat (x :: data')])
    with (List.concat (x :: data') ++ [])%list.
  rewrite app_nil_r. reflexivity.
Qed.

Lemma update_nothing now d : Data.update now [] d = (d, Return false).
Proof. reflexivity. Qed.

(** X13.  Lines that arrive before the first line starting with $ are
    discarded: a cycle over such lines followed by others is the cycle over
    the others alone; and a cycle in which no line starts with $ returns
    False, prints nothing and leaves a new, empty location. *)
Theorem lines_before_first_start_discarded (now ttw : Q) (junk rest : list bytes)
    (d : Data.obj) :
  forallb (fun line => negb (is_start line)) junk = true ->
  Data.new_location now (junk ++ rest) ttw d = Data.new_location now rest ttw d /\
  (Qlt_bool (now - (Data._last_update d + ttw)) 0 = false ->
   Data.new_location now junk ttw d = (Data.with_data Location.init d, Return false)).
Proof.
  intros Hjunk. split.
  - rewrite !new_location_cases.
    destruct (Qlt_bool (now - (Data._last_update d + ttw)) 0); [reflexivity |].
    apply bind_same_start. apply read_lines_skips. exact Hjunk.
  - intros Hthrottle. rewrite new_location_cases, Hthrottle.
    pose proof (read_lines_skips now junk Hjunk [] (Data.with_data Location.init d))
      as E.
    rewrite app_nil_r in E.
    rewrite (bind_run_return _ _ _ _ _ E). reflexivity.
Qed.

(** X14.  A sentence that arrives in pieces is decoded like the whole
    sentence: a cycle over a line starting with $ followed by lines that do
    not start with $ does what the cycle over the one line made of all of
    them does. *)
Theorem fragmented_sentence_as_joined (now ttw : Q) (start : bytes)
    (conts : list bytes) (d : Data.obj) :
  is_start start = true ->
  forallb (fun line => negb (is_start line)) conts = true ->
  Data.new_location now (start :: conts) ttw d
  = Data.new_location now [List.concat (start :: conts)] ttw d.
Proof.
  intros Hstart Hconts.
  assert (Hjoined : is_start (List.concat (start :: conts)) = true).
  { apply is_start_cons in Hstart. destruct Hstart as [t ->].
    apply is_start_cons. eexists. cbn [List.concat app]. reflexivity. }
  rewrite !new_location_cases.
  destruct (Qlt_bool (now - (Data._last_update d + ttw)) 0); [reflexivity |].
  set (d0 := Data.with_data Location.init d).
  assert (Hpieces : Data.read_lines now (start :: conts) [] d0
                    = (d0, Return (start :: conts))).
  { etransitivity; [exact (read_lines_start now start conts [] d0 Hstart) |].
    rewrite (bind_run_return _ _ _ _ _ (update_nothing now d0)).
    apply (read_lines_appends now conts Hconts [start] d0). discriminate. }
  assert (Hwhole : Data.read_lines now [List.concat (start :: conts)] [] d0
                   = (d0, Return [List.concat (start :: conts)])).
  { etransitivity;
      [exact (read_lines_start now (List.concat (start :: conts)) [] [] d0 Hjoined) |].
    rewrite (bind_run_return _ _ _ _ _ (update_nothing now d0)). reflexivity. }
  rewrite (bind_run_return _ _ _ _ _ Hpieces), (bind_run_return _ _ _ _ _ Hwhole).
  apply bind_same_start. apply update_joined. discriminate.
Qed.

Lemma bind_assoc {S X Y Z : Type} (m : M S X) (f : X -> M S Y) (g : Y -> M S Z) s :
  bind (bind m f) g s = bind m (fun x => bind (f x) g) s.
Proof. unfold bind. destruct (m s) as [s1 [x | e]]; reflexivity. Qed.

Lemma read_lines_each {A : Type} now lines (K : M Data.obj A) :
  forallb is_start lines = true ->
  forall data d,
    (x <- Data.read_lines now lines data ;; Data.update now x ;; K) d
    = (Data.update now data ;; each_update now lines ;; K) d.
Proof.
  induction lines as [| line rest IH]; intros Hlines data d.
  - cbn [Data.read_lines each_update]. unfold bind, ret.
    destruct (Data.update now data d) as [d1 [x | e]]; reflexivity.
  - cbn [forallb] in Hlines. apply andb_prop in Hlines.
    destruct Hlines as [Hline Hlines].
    pose proof (read_lines_start now line rest data d Hline) as Hstep.
    destruct (Data.update now data d) as [d1 [x | e]] eqn:U.
    + rewrite (bind_run_return _ _ _ _ _ U) in Hstep.
      rewrite (bind_run_return _ _ _ _ _ U).
      etransitivity; [apply bind_same_start; exact Hstep |].
      rewrite (IH Hlines [line] d1). cbn [each_update].
      symmetry. apply bind_assoc.
    + rewrite (bind_eq_raise _ _ _ _ _ U) in Hstep.
      rewrite (bind_eq_raise _ _ _ _ _ U).
      apply bind_eq_raise. exact Hstep.
Qed.

(** X15.  A cycle over lines that each start with $ treats every line as a
    sentence of its own, in the order of arrival: [new_location] resets the
    location, runs [__update] on each line in turn, and returns the
    validity of the location then reached; the first [__update] that raises
    ends the cycle. *)
Theorem one_sentence_per_line (now ttw : Q) (lines : list bytes) (d : Data.obj) :
  forallb is_start lines = true ->
  Qlt_bool (now - (Data._last_update d + ttw)) 0 = false ->
  Data.new_location now lines ttw d
  = (each_update now lines ;;
     self <- get ;;
     when (Location.valid (Data._data self)) (Data.print (Repr (Data._data self))) ;;
     self <- get ;;
     ret (Location.valid (Data._data self)))
      (Data.with_data Location.init d).
Proof.
  intros Hlines Hthrottle. rewrite new_location_cases, Hthrottle.
  rewrite (read_lines_each now lines _ Hlines [] _).
  rewrite (bind_run_return _ _ _ _ _ (update_nothing now _)). reflexivity.
Qed.

(** *** What [__update] hands to [set] *)

Lemma clip_inside n i : 0 <= i <= n -> clip n i = i.
Proof. intros H. unfold clip. destruct (Z.ltb_spec i 0); lia. Qed.

Lemma skipn_length_app {A : Type} (l r : list A) : skipn (List.length l) (l ++ r) = r.
Proof. induction l as [| x l IH]; [reflexivity | exact IH]. Qed.

Lemma firstn_length_app {A : Type} (l r : list A) : firstn (List.length l) (l ++ r) = l.
Proof. induction l as [| x l IH]; [reflexivity | cbn; rewrite IH; reflexivity]. Qed.

Lemma bslice_middle (pre mid post : bytes) (a b : Z) :
  a = Z.of_nat (List.length pre) ->
  b = a + Z.of_nat (List.length mid) ->
  bslice (pre ++ mid ++ post)%list a b = mid.
Proof.
  intros Ha Hb. unfold bslice.
  rewrite !length_app, !Nat2Z.inj_add.
  rewrite !clip_inside by lia.
  replace (Z.to_nat (b - a)) with (List.length mid) by lia.
  replace (Z.to_nat a) with (List.length pre) by lia.
  rewrite skipn_length_app. apply firstn_length_app.
Qed.

Lemma take_length_append (s r : string) : take (String.length s) (s ++ r) = s.
Proof. induction s as [| c s IH]; [destruct r; reflexivity | cbn; rewrite IH; reflexivity]. Qed.

Lemma length_append_one (s : string) (c : ascii) :
  String.length (s ++ String c EmptyString) = S (String.length s).
Proof. induction s as [| x s IH]; [reflexivity | cbn; rewrite IH; reflexivity]. Qed.

Lemma substr_between_quotes (c1 c2 c3 : ascii) (s : string) :
  substr (String c1 (String c2 (s ++ String c3 EmptyString))) 2 (-1) = s.
Proof.
  unfold substr, clip. cbn [String.length]. rewrite length_append_one.
  change (2 <? 0) with false. change (-1 <? 0) with true. cbv iota.
  rewrite !Nat2Z.inj_succ.
  replace (Z.to_nat (Z.min 2 (Z.succ (Z.succ (Z.succ (Z.of_nat (String.length s)))))))
    with 2%nat by lia.
  replace (Z.to_nat
             (Z.max 0 (Z.succ (Z.succ (Z.succ (Z.of_nat (String.length s)))) + -1)
              - Z.min 2 (Z.succ (Z.succ (Z.succ (Z.of_nat (String.length s)))))))
    with (String.length s) by lia.
  cbn [drop]. apply take_length_append.
Qed.

Lemma plain_not_quote b : plain_byte b = true -> Byte.eqb quote1 b = false.
Proof. destruct b; intros H; try reflexivity; vm_compute in H; discriminate H. Qed.

Lemma plain_repr b :
  plain_byte b = true -> repr_byte quote1 b = String (ascii_of_byte b) EmptyString.
Proof. destruct b; intros H; try reflexivity; vm_compute in H; discriminate H. Qed.

Lemma plain_no_quote body :
  forallb plain_byte body = true -> existsb (Byte.eqb quote1) body = false.
Proof.
  induction body as [| b body IH]; [reflexivity |].
  cbn [forallb existsb]. intros H. apply andb_prop in H. destruct H as [Hb Hbody].
  rewrite (plain_not_quote b Hb), (IH Hbody). reflexivity.
Qed.

Lemma plain_concat body :
  forallb plain_byte body = true ->
  String.concat EmptyString (map (repr_byte quote1) body) = string_of_list_byte body.
Proof.
  induction body as [| b body IH]; [reflexivity |].
  cbn [forallb]. intros H. apply andb_prop in H. destruct H as [Hb Hbody].
  specialize (IH Hbody). cbn [map]. rewrite (plain_repr b Hb).
  destruct body as [| b' body'].
  - reflexivity.
  - cbn [map] in *. cbn [String.concat]. cbn [String.concat] in IH.
    rewrite IH. reflexivity.
Qed.

Lemma plain_bytes_str body :
  forallb plain_byte body = true ->
  bytes_str body
  = String "b" (String (ascii_of_byte quote1)
      (string_of_list_byte body ++ String (ascii_of_byte quote1) EmptyString)).
Proof.
  intros H. unfold bytes_str. rewrite (plain_no_quote body H). cbn [andb].
  rewrite (plain_concat body H). reflexivity.
Qed.

(** X16.  What [__update] hands to [set].  For a buffer made of a six-byte
    identifier, one more byte (the comma), a body of printable bytes without
    single quote and backslash, and two final bytes of which the last is LF,
    [__update] calls [set] with the identifier and with exactly the body as
    text, then stamps the time of the update if [set] returned True.  The
    byte before the LF is dropped whatever it is: it is the CR of a sentence
    ending in CR LF, and the last character of the payload when the sentence
    ends in LF alone. *)
Theorem update_hands_body_to_set (now : Q) (lines : list bytes)
    (ident body : bytes) (comma final : byte) (d : Data.obj)
    (l : Location.obj) (b : bool) :
  List.concat lines = (ident ++ comma :: body ++ [final; LF])%list ->
  List.length ident = 6%nat ->
  forallb plain_byte body = true ->
  Location.set ident (string_of_list_byte body) (Data._data d) = (l, Return b) ->
  Data.update now lines d
  = (Data.make l (if b then now else Data._last_update d) (Data.printed d),
     Return false).
Proof.
  intros Hlines Hident Hbody Hset.
  assert (Hlen : (List.length lines =? 0)%nat = false).
  { destruct lines as [| x lines']; [| reflexivity].
    destruct ident; discriminate. }
  assert (Hlast : Data.last_byte (List.concat lines) = [LF]).
  { unfold Data.last_byte. rewrite Hlines.
    replace (ident ++ comma :: body ++ [final; LF])%list
      with ((ident ++ comma :: body ++ [final]) ++ [LF] ++ [])%list
      by (rewrite <- !app_assoc; cbn [app]; rewrite <- !app_assoc; reflexivity).
    apply bslice_middle; rewrite !length_app; cbn [List.length];
      rewrite ?length_app; cbn [List.length]; lia. }
  assert (Hid : bslice (List.concat lines) 0 6 = ident).
  { rewrite Hlines.
    change (ident ++ comma :: body ++ [final; LF])%list
      with ([] ++ ident ++ comma :: body ++ [final; LF])%list.
    apply bslice_middle; [reflexivity | rewrite Hident; reflexivity]. }
  assert (Hpay : payload (List.concat lines) = string_of_list_byte body).
  { unfold payload. rewrite Hlines.
    replace (bslice (ident ++ comma :: body ++ [final; LF])%list
               7 (Z.of_nat (List.length (ident ++ comma :: body ++ [final; LF])%list) - 2))
      with body.
    - rewrite (plain_bytes_str body Hbody). apply substr_between_quotes.
    - symmetry.
      replace (ident ++ comma :: body ++ [final; LF])%list
        with ((ident ++ [comma]) ++ body ++ [final; LF])%list
        by (rewrite <- !app_assoc; reflexivity).
      apply bslice_middle; rewrite !length_app; cbn [List.length];
        rewrite ?length_app; cbn [List.length]; lia. }
  rewrite (update_runs_set now lines d Hlen) by (rewrite Hlast; reflexivity).
  rewrite Hid, Hpay. unfold bind, Data.on_data. rewrite Hset.
  destruct b; reflexivity.
Qed.

(** *** The time of the last valid fix *)

Section Stamp.

Variable now : Q.
Variable before : Q.

Let stamped (d : Data.obj) : Prop :=
  coords_if_valid (Data._data d) /\
  (Location.valid (Data._data d) = true -> Data._last_update d = now) /\
  (Location.valid (Data._data d) = false -> Data._last_update d = before).

Let stays_stamped (d d' : Data.obj) : Prop := stamped d -> stamped d'.

Lemma stays_stamped_refl d : stays_stamped d d.
Proof. intros H. exact H. Qed.

Lemma stays_stamped_trans a b c :
  stays_stamped a b -> stays_stamped b c -> stays_stamped a c.
Proof. intros Hab Hbc H. exact (Hbc (Hab H)). Qed.

Lemma stamp_after_set msgid segment :
  keeps stays_stamped
    (ok <- Data.on_data (Location.set msgid segment) ;;
     when ok (modify (Data.with_last_update now)) ;;
     ret false).
Proof.
  intros d (Hcoords & Hnow & Hbefore).
  pose proof (set_keeps_coords_if_valid msgid segment (Data._data d) Hcoords) as Hc.
  unfold bind, Data.on_data.
  destruct (Location.set msgid segment (Data._data d)) as [l [b | e]] eqn:Hset.
  - destruct (returned_flag _ _ _ _ _ Hset) as [Hb Hiff].
    simpl fst in Hc.
    destruct b.
    + split; [exact Hc |]. split; [intros _; reflexivity |].
      intros E. change (Location.valid l = false) in E.
      rewrite <- Hb in E. discriminate E.
    + split; [exact Hc |].
      split; [intros E; change (Location.valid l = true) in E;
              rewrite <- Hb in E; discriminate E |].
      intros _. change (Data._last_update d = before).
      destruct (Location.valid (Data._data d)) eqn:Hv.
      * exfalso. destruct (Hcoords Hv) as [Hlat Hlong].
        pose proof (set_keeps_measurements msgid segment (Data._data d))
          as (Klat & Klong & _).
        rewrite Hset in Klat, Klong. simpl fst in Klat, Klong.
        assert (Habs : false = true) by (apply Hiff; split; auto).
        discriminate Habs.
      * apply Hbefore. reflexivity.
  - assert (He : snd (Location.set msgid segment (Data._data d)) = Raise e)
      by (rewrite Hset; reflexivity).
    destruct (raised_flag _ _ _ _ He) as [Hflag _].
    rewrite Hset in Hflag. simpl fst in Hflag, Hc.
    split; [exact Hc |].
    change ((Location.valid l = true -> Data._last_update d = now) /\
            (Location.valid l = false -> Data._last_update d = before)).
    rewrite Hflag. split; assumption.
Qed.

Lemma stamp_update data : keeps stays_stamped (Data.update now data).
Proof.
  unfold Data.update. cbv zeta. unfold Data.print.
  walk_lift stays_stamped_refl stays_stamped_trans
    ltac:(first [ apply stamp_after_set | (intros ? ?; assumption) ]).
Qed.

Lemma stamp_read_lines lines :
  forall data, keeps stays_stamped (Data.read_lines now lines data).
Proof.
  induction lines as [| tmp_data rest IH]; intros data; cbn [Data.read_lines].
  - apply keeps_ret. exact stays_stamped_refl.
  - destruct (bytes_eqb (bslice tmp_data 0 1) [x24]).
    + apply keeps_bind; [exact stays_stamped_trans | apply stamp_update |].
      intros _. apply IH.
    + destruct (negb (List.length data =? 0)%nat); apply IH.
Qed.

Lemma stamp_cycle lines d :
  Data._last_update d = before ->
  stamped (fst ((data <- Data.read_lines now lines [] ;;
                 Data.update now data ;;
                 self <- get ;;
                 when (Location.valid (Data._data self))
                   (Data.print (Repr (Data._data self))) ;;
                 self <- get ;;
                 ret (Location.valid (Data._data self)))
                  (Data.with_data Location.init d))).
Proof.
  intros Hbefore.
  assert (K : keeps stays_stamped
                (data <- Data.read_lines now lines [] ;;
                 Data.update now data ;;
                 self <- get ;;
                 when (Location.valid (Data._data self))
                   (Data.print (Repr (Data._data self))) ;;
                 self0 <- get ;;
                 ret (Location.valid (Data._data self0)))).
  { unfold Data.print.
    walk_lift stays_stamped_refl stays_stamped_trans
      ltac:(first [ apply stamp_read_lines | apply stamp_update
                  | (intros ? ?; assumption) ]). }
  apply K. repeat split; try discriminate. intros _. exact Hbefore.
Qed.

End Stamp.

(** X17.  The time of the last update moves exactly with the cycles that
    find a valid fix: when [new_location] returns True the time stored is
    the time of this cycle, and when it returns False the time stored is the
    one from before the call. *)
Theorem last_update_follows_valid_fix (now ttw : Q) (lines : list bytes)
    (d d' : Data.obj) (b : bool) :
  Data.new_location now lines ttw d = (d', Return b) ->
  Data._last_update d' = if b then now else Data._last_update d.
Proof.
  intros H.
  destruct (new_location_returns _ _ _ _ _ _ H) as [(_ & -> & ->) | (Ht & Hb)];
    [reflexivity |].
  pose proof (stamp_cycle now (Data._last_update d) lines d eq_refl) as K.
  rewrite new_location_cases, Ht in H. rewrite H in K. simpl fst in K.
  destruct K as (_ & Know & Kbefore).
  destruct b; [apply Know | apply Kbefore]; symmetry; exact Hb.
Qed.

End Properties.

(** ** The decoder on concrete sentences

    From here on [int] and [float] are the decimal readers [decimal]. *)

(** C1, as the code has it.  One decode cycle over the single sentence
    $GPGGA,123519,4807.038,N,01131.000,E,1,08,0.9,545.4,M,46.9,M,,*47 CR LF
    gives a valid location with 8 satellites and altitude 545.4, whose
    stored latitude is 48.1173 and stored longitude 11 + 31/60; but the
    accessors are crossed: [latitude()] returns the stored longitude
    (11.5167) and [longitude()] the stored latitude (48.1173). *)
Theorem gga_example_cycle (d : Data.obj) (now ttw : Q) :
  Qlt_bool (now - (Data._last_update d + ttw)) 0 = false ->
  let r := Data.new_location now [gga_example] ttw d in
  let l := Data.get_location (fst r) in
  snd r = Return true /\ Location.valid l = true /\
  option_map Value.value (Location._lat l) = Some (1443519 # 30000) /\
  option_map Value.value (Location._long l) = Some (691 # 60) /\
  Location.latitude l = Got (691 # 60) /\
  Location.longitude l = Got (1443519 # 30000) /\
  Location.satellites l = Got 8 /\
  Location.altitude l = Got (2727 # 5) /\
  (1443519 # 30000 == 48.1173)%Q /\ (691 # 60 == 11 + 31 / 60)%Q /\
  (2727 # 5 == 545.4)%Q.
Proof.
  intros Hthrottle. unfold Data.new_location. cbv [bind get].
  rewrite Hthrottle. vm_compute. repeat split; reflexivity.
Qed.

Lemma gga_example_cycle_witness :
  Qlt_bool (10 - (Data._last_update fresh + 5)) 0 = false /\
  Location.latitude (Data.get_location (fst (Data.new_location 10 [gga_example] 5 fresh)))
  = Got (691 # 60).
Proof.
  split; [reflexivity |].
  apply (gga_example_cycle fresh 10 5). reflexivity.
Defined.

Lemma vtg_raises_before_course_witness :
  Location.vtg_ok (split "," vtg_fields) = true /\
  snd (Location.set GPVTG vtg_fields Location.init) = Raise TypeError /\
  Location._course (fst (Location.set GPVTG vtg_fields Location.init)) = None.
Proof.
  split; [reflexivity |].
  destruct (vtg_raises_before_course vtg_fields Location.init eq_refl)
    as [Hraise [Hcourse _]].
  split; [| exact Hcourse].
  destruct Hraise as [H | H]; [exact H | discriminate H].
Defined.

(** C3 fails as stated: a GGA sentence whose altitude field is garbled
    makes [set] raise ValueError, after latitude, longitude, satellite count
    and HDOP of that sentence have been stored. *)
Lemma set_raises_on_garbled_altitude :
  snd (Location.set GPGGA gga_garbled Location.init) = Raise ValueError /\
  Location._satellites (fst (Location.set GPGGA gga_garbled Location.init)) = 8 /\
  Location._lat (fst (Location.set GPGGA gga_garbled Location.init)) <> None /\
  Location._alt (fst (Location.set GPGGA gga_garbled Location.init)) = None.
Proof. vm_compute. repeat split; discriminate. Qed.

Lemma set_raises_only_in_handlers_witness :
  (accepts GPMSS (split "," gga_fields) = false /\
   Location.set GPMSS gga_fields Location.init = (Location.init, Return false)) /\
  (snd (Location.set GPGGA gga_garbled Location.init) = Raise ValueError /\
   (List.length [gga_garbled_line] =? 0)%nat = false /\
   bytes_eqb (Data.last_byte (List.concat [gga_garbled_line])) [LF] = true /\
   bslice (List.concat [gga_garbled_line]) 0 6 = GPGGA /\
   payload (List.concat [gga_garbled_line]) = gga_garbled /\
   snd (Data.update 10 [gga_garbled_line] fresh) = Raise ValueError).
Proof.
  split.
  - split; [reflexivity |].
    exact (proj1 (set_raises_only_in_handlers GPMSS gga_fields Location.init) eq_refl).
  - assert (Hraise : snd (Location.set GPGGA gga_garbled Location.init) = Raise ValueError)
      by (vm_compute; reflexivity).
    assert (Hid : bslice (List.concat [gga_garbled_line]) 0 6 = GPGGA)
      by (vm_compute; reflexivity).
    assert (Hpay : payload (List.concat [gga_garbled_line]) = gga_garbled)
      by (vm_compute; reflexivity).
    repeat (split; [first [exact Hraise | exact Hid | exact Hpay | reflexivity] |]).
    rewrite (proj1 (proj2 (proj2 (set_raises_only_in_handlers GPGGA gga_garbled
                                    Location.init))
                      ValueError 10%Q [gga_garbled_line] fresh
                      Hraise eq_refl eq_refl eq_refl Hid Hpay)).
    reflexivity.
Defined.

(** C4 fails as stated: after the GGA sentence has set the count to 8, a
    GSV sentence that is the only one of its group sets it to 5. *)
Lemma gsv_overwrites_count :
  Location.satellites (fst (Location.set GPGGA gga_fields Location.init)) = Got 8 /\
  Location.satellites
    (fst (Location.set GPGSV "1,1,05"
            (fst (Location.set GPGGA gga_fields Location.init)))) = Got 5.
Proof. split; reflexivity. Qed.

Lemma satellites_kept_except_gsv_witness :
  (bytes_eqb GPGLL GPGSV = false /\
   0 <= Location._satellites (fst (Location.set GPGGA gga_fields Location.init)) /\
   Location._satellites
     (fst (Location.set GPGLL "4916.45,N,12311.12,W,225444,A"
             (fst (Location.set GPGGA gga_fields Location.init)))) = 8) /\
  (Location.gsv_ok (split "," "1,1,05") = true /\
   py_int (nth 2 (split "," "1,1,05") EmptyString) = Some 5 /\
   Location._satellites
     (fst (Location.set GPGSV "1,1,05"
             (fst (Location.set GPGGA gga_fields Location.init)))) = 5).
Proof.
  assert (Hset : 0 <= Location._satellites
                         (fst (Location.set GPGGA gga_fields Location.init)))
    by (vm_compute; discriminate).
  split.
  - split; [reflexivity |]. split; [exact Hset |].
    rewrite (proj1 (satellites_kept_except_gsv GPGLL "4916.45,N,12311.12,W,225444,A"
                      (fst (Location.set GPGGA gga_fields Location.init)))
               eq_refl Hset).
    reflexivity.
  - split; [reflexivity |]. split; [reflexivity |].
    exact (proj2 (satellites_kept_except_gsv GPGSV "1,1,05"
                    (fst (Location.set GPGGA gga_fields Location.init)))
             5 eq_refl eq_refl).
Defined.

(** C5 fails as stated: with field[10] present and field[11] absent the
    unit of the height is M, not field[10]. *)
Lemma height_unit_without_field_11 :
  Location.seg_set (split "," gga_short) 10 = true /\
  Location.seg_set (split "," gga_short) 11 = false /\
  nth 10 (split "," gga_short) EmptyString = "46.9" /\
  option_map Value.unit
    (Location._height (fst (Location.set GPGGA gga_short Location.init))) = Some "M".
Proof. repeat split; reflexivity. Qed.

Lemma gga_altitude_height_witness :
  Location.gga_ok (split "," gga_fields) = true /\
  Location.seg_set (split "," gga_fields) 8 = true /\
  Location.seg_set (split "," gga_fields) 10 = true /\
  exists t,
    Location.time_from_seg (nth 0 (split "," gga_fields) EmptyString) = Return t /\
    (exists a,
       Location._alt (fst (Location.set GPGGA gga_fields Location.init))
       = Some (Value.make Value.IsDistance a "M" t)) /\
    (exists h,
       Location._height (fst (Location.set GPGGA gga_fields Location.init))
       = Some (Value.make Value.IsDistance h "46.9" t)).
Proof.
  split; [reflexivity |]. split; [reflexivity |]. split; [reflexivity |].
  assert (Hrun : Location.set GPGGA gga_fields Location.init
                 = (fst (Location.set GPGGA gga_fields Location.init), Return true))
    by (vm_compute; reflexivity).
  destruct (gga_altitude_height gga_fields Location.init
              (fst (Location.set GPGGA gga_fields Location.init)) true
              eq_refl Hrun) as (t & Ht & Ha & _ & Hh & _).
  exists t. split; [exact Ht |]. split.
  - destruct (Ha eq_refl) as (a & _ & Halt). exists a. exact Halt.
  - destruct (Hh eq_refl) as (h & _ & Hheight). exists h. exact Hheight.
Defined.

Lemma update_unterminated_and_cr_only_witness :
  (List.length [cr_only_line] =? 0)%nat = false /\
  (Data.last_byte (List.concat [cr_only_line]) = [CR] /\
   Data.update 10 [cr_only_line] fresh = Data.update 10 [gga_example] fresh /\
   snd (Data.update 10 [cr_only_line] fresh) = Return false /\
   Location.valid (Data._data (fst (Data.update 10 [cr_only_line] fresh))) = true /\
   Location.satellites (Data._data (fst (Data.update 10 [cr_only_line] fresh)))
   = Got 8 /\
   Data._last_update (fst (Data.update 10 [cr_only_line] fresh)) = 10%Q) /\
  (bytes_in (Data.last_byte (List.concat [unterminated_line])) [[LF]; [CR]] = false /\
   snd (Data.update 10 [unterminated_line] fresh) = Return false /\
   Data._data (fst (Data.update 10 [unterminated_line] fresh)) = Data._data fresh).
Proof.
  split; [reflexivity |]. split.
  - split; [reflexivity |].
    assert (Hsame : Data.update 10 [cr_only_line] fresh
                    = Data.update 10 [gga_example] fresh)
      by exact (proj1 (proj2 (proj2 (update_unterminated_and_cr_only 10 [cr_only_line]
                                       fresh eq_refl) eq_refl))).
    split; [exact Hsame |]. rewrite Hsame.
    split; [vm_compute; reflexivity |]. split; [vm_compute; reflexivity |].
    split; vm_compute; reflexivity.
  - split; [reflexivity |].
    rewrite (proj1 (proj1 (update_unterminated_and_cr_only 10 [unterminated_line]
                             fresh eq_refl) eq_refl)).
    split; reflexivity.
Defined.

(** C8 fails as stated: the label for 0.99 is the abbreviation Ide., and
    likewise Exe. and Mod. stand where the claim has whole words. *)
Lemma hdop_label_is_abbreviated :
  HDOP.str (Value.make Value.IsHDOP 0.99 EmptyString zero_time) <> "Ideal" /\
  HDOP.str (Value.make Value.IsHDOP 1.0 EmptyString zero_time) <> "Excellent" /\
  HDOP.str (Value.make Value.IsHDOP 10.0 EmptyString zero_time) <> "Moderate".
Proof. repeat split; discriminate. Qed.

Lemma hdop_str_thresholds_witness :
  (2 < 2.01)%Q /\ (2.01 <= 5)%Q /\
  HDOP.str (Value.make Value.IsHDOP 2.01 EmptyString zero_time) = "Good".
Proof.
  split; [reflexivity |]. split; [discriminate |].
  apply (proj1 (proj2 (proj2
           (hdop_str_thresholds (Value.make Value.IsHDOP 2.01 EmptyString zero_time))))).
  - reflexivity.
  - discriminate.
Defined.

(** C9 fails as stated: beyond that magnitude the conversion there and
    back can miss the value by more than 1e-6.  9e15 km/h comes back as
    9000000000000001, 123456789012.3 knots comes back 2^-16 lower, and the
    test abs(r - v) <= 1e-6 is False for 9e15 km/h, for an infinite speed
    and for NaN. *)
Lemma round_trip_beyond_tolerance :
  (str_in (Speed64.unit kmh_9e15) ["kmh"; "K"] = true /\
   is_finite (Speed64.value kmh_9e15) = true /\
   Speed64.to_kmh (Speed64.to_knot kmh_9e15)
   = Speed64.make 9000000000000001 "kmh" zero_time /\
   (to_Q (Speed64.value (Speed64.to_kmh (Speed64.to_knot kmh_9e15)))
    - to_Q (Speed64.value kmh_9e15) == 1)%Q /\
   ~ (Qabs (to_Q (Speed64.value (Speed64.to_kmh (Speed64.to_knot kmh_9e15)))
            - to_Q (Speed64.value kmh_9e15)) <= 1 # 1000000)%Q) /\
  (str_in (Speed64.unit knots_123456789012) ["knot"; "N"] = true /\
   is_finite (Speed64.value knots_123456789012) = true /\
   (to_Q (Speed64.value (Speed64.to_knot (Speed64.to_kmh knots_123456789012)))
    - to_Q (Speed64.value knots_123456789012) == - (1 # 65536))%Q /\
   ~ (Qabs (to_Q (Speed64.value (Speed64.to_knot (Speed64.to_kmh knots_123456789012)))
            - to_Q (Speed64.value knots_123456789012)) <= 1 # 1000000)%Q) /\
  (forall v, In v [Speed64.value kmh_9e15; infinity; nan] ->
     (abs (Speed64.value (Speed64.to_kmh (Speed64.to_knot (Speed64.make v "kmh" zero_time)))
           - v) <=? 1e-6)%float = false).
Proof.
  split; [| split].
  - split; [reflexivity |]. split; [vm_compute; reflexivity |].
    split; [vm_compute; reflexivity |]. split; [vm_compute; reflexivity |].
    vm_compute. intros H. apply H. reflexivity.
  - split; [reflexivity |]. split; [vm_compute; reflexivity |].
    split; [vm_compute; reflexivity |].
    vm_compute. intros H. apply H. reflexivity.
  - intros v [<- | [<- | [<- | []]]]; vm_compute; reflexivity.
Qed.

Lemma speed_conversion_witness :
  (str_in (Speed64.unit kmh_10) ["kmh"; "K"] = true /\
   str_in (Speed64.unit kmh_10) ["knot"; "N"] = false /\
   is_finite (Speed64.value kmh_10) = true /\
   (Qabs (to_Q (Speed64.value kmh_10)) <= 4000000000)%Q /\
   Speed64.to_kmh kmh_10 = kmh_10 /\
   (Qabs (to_Q (Speed64.value (Speed64.to_kmh (Speed64.to_knot kmh_10)))
          - to_Q (Speed64.value kmh_10)) <= 1 # 1000000)%Q) /\
  (str_in (Speed64.unit knots_22) ["knot"; "N"] = true /\
   str_in (Speed64.unit knots_22) ["kmh"; "K"] = false /\
   is_finite (Speed64.value knots_22) = true /\
   (Qabs (to_Q (Speed64.value knots_22)) <= 4000000000)%Q /\
   Speed64.to_knot knots_22 = knots_22 /\
   Speed64.to_kmh knots_22
   = Speed64.make (22.4 * 1.85200)%float "kmh" (12, 35, 19%Q) /\
   (Qabs (to_Q (Speed64.value (Speed64.to_knot (Speed64.to_kmh knots_22)))
          - to_Q (Speed64.value knots_22)) <= 1 # 1000000)%Q).
Proof.
  assert (Hk : (Qabs (to_Q (Speed64.value kmh_10)) <= 4000000000)%Q)
    by (vm_compute; discriminate).
  assert (Hn : (Qabs (to_Q (Speed64.value knots_22)) <= 4000000000)%Q)
    by (vm_compute; discriminate).
  assert (Hkf : is_finite (Speed64.value kmh_10) = true) by (vm_compute; reflexivity).
  assert (Hnf : is_finite (Speed64.value knots_22) = true) by (vm_compute; reflexivity).
  destruct (speed_conversion kmh_10) as (_ & _ & A3 & _ & A5 & _).
  destruct (speed_conversion knots_22) as (B1 & _ & _ & B4 & _ & B6).
  split.
  - split; [reflexivity |]. split; [reflexivity |]. split; [exact Hkf |].
    split; [exact Hk |]. split; [exact (A3 eq_refl) |].
    exact (proj2 (proj2 (A5 eq_refl Hkf Hk))).
  - split; [reflexivity |]. split; [reflexivity |]. split; [exact Hnf |].
    split; [exact Hn |]. split; [exact (B4 eq_refl) |]. split; [exact (B1 eq_refl) |].
    exact (proj2 (proj2 (B6 eq_refl Hnf Hn))).
Defined.

Lemma position_negated_unless_N_or_E_witness :
  EmptyString <> "N" /\ EmptyString <> "E" /\
  Position (Value.Num 48.1173) EmptyString (12, 35, 19%Q)
  = Return (Value.make Value.IsPosition (- 48.1173) EmptyString (12, 35, 19%Q)) /\
  (Location.unset_or_older (Location._lat Location.init) (12, 35, 19%Q) = true /\
   py_float (substr "4807.038" 0 2) = Some 48%Q /\
   py_float (substr_from "4807.038" 2) = Some (3519 # 500) /\
   Location.set_lat "4807.038" EmptyString (12, 35, 19%Q) Location.init
   = (Location.with_lat
        (Some (Value.make Value.IsPosition (- (48 + (3519 # 500) / 60)) EmptyString
                 (12, 35, 19%Q))) Location.init,
      Return tt)).
Proof.
  assert (HN : EmptyString <> "N") by discriminate.
  assert (HE : EmptyString <> "E") by discriminate.
  destruct (position_negated_unless_N_or_E 48.1173 EmptyString (12, 35, 19%Q) HN HE)
    as (P1 & _ & _).
  destruct (position_negated_unless_N_or_E 0 EmptyString (12, 35, 19%Q) HN HE)
    as (_ & P2 & _).
  split; [exact HN |]. split; [exact HE |]. split; [exact P1 |].
  split; [reflexivity |]. split; [reflexivity |]. split; [reflexivity |].
  apply (P2 Location.init "4807.038" 48%Q (3519 # 500)).
  - discriminate.
  - reflexivity.
  - reflexivity.
  - reflexivity.
Defined.

(** ** The further properties on concrete sentences *)

Lemma set_returns_validity_witness :
  Location.set GPGGA gga_fields Location.init
  = (fst (Location.set GPGGA gga_fields Location.init), Return true) /\
  Location._lat (fst (Location.set GPGGA gga_fields Location.init)) <> None.
Proof.
  assert (Hrun : Location.set GPGGA gga_fields Location.init
                 = (fst (Location.set GPGGA gga_fields Location.init), Return true))
    by (vm_compute; reflexivity).
  split; [exact Hrun |].
  exact (proj1 (proj1 (proj2 (set_returns_validity _ _ _ _ _ Hrun)) eq_refl)).
Defined.

Lemma set_raise_keeps_flag_witness :
  snd (Location.set GPRMC rmc_short Location.init) = Raise IndexError /\
  Location.valid (fst (Location.set GPRMC rmc_short Location.init)) = false /\
  Location._lat (fst (Location.set GPRMC rmc_short Location.init)) <> None /\
  Location._long (fst (Location.set GPRMC rmc_short Location.init)) <> None.
Proof.
  assert (Hraise : snd (Location.set GPRMC rmc_short Location.init) = Raise IndexError)
    by (vm_compute; reflexivity).
  split; [exact Hraise |].
  split; [exact (proj1 (set_raise_keeps_flag _ _ _ _ Hraise)) |].
  split; vm_compute; discriminate.
Defined.

Lemma set_never_unsets_witness :
  Location._lat (fst (Location.set GPGGA gga_fields Location.init)) <> None /\
  Location._lat
    (fst (Location.set GPVTG vtg_fields
            (fst (Location.set GPGGA gga_fields Location.init)))) <> None.
Proof.
  assert (Hlat : Location._lat (fst (Location.set GPGGA gga_fields Location.init))
                 <> None) by (vm_compute; discriminate).
  split; [exact Hlat |].
  exact (proj1 (set_never_unsets GPVTG vtg_fields
                  (fst (Location.set GPGGA gga_fields Location.init))) Hlat).
Defined.

Lemma valid_flag_implies_coordinates_witness :
  coords_if_valid Location.init /\
  coords_if_valid (fst (Location.set GPRMC rmc_short Location.init)).
Proof.
  split.
  - exact (proj1 (valid_flag_implies_coordinates GPRMC rmc_short Location.init)).
  - apply (proj2 (valid_flag_implies_coordinates GPRMC rmc_short Location.init)).
    intros H. vm_compute in H. discriminate H.
Defined.

Lemma set_keeps_field_classes_witness :
  classes_ok Location.init /\
  classes_ok (fst (Location.set GPGGA gga_fields Location.init)).
Proof.
  split.
  - exact (proj1 (set_keeps_field_classes GPGGA gga_fields Location.init)).
  - apply (proj2 (set_keeps_field_classes GPGGA gga_fields Location.init)).
    vm_compute. repeat split.
Defined.

Lemma short_rmc_raises_witness :
  Location.rmc_ok (split "," rmc_short) = true /\
  (List.length (split "," rmc_short) <= 7)%nat /\
  exists e, snd (Location.set GPRMC rmc_short Location.init) = Raise e.
Proof.
  split; [reflexivity |]. split; [vm_compute; lia |].
  apply (short_rmc_raises rmc_short Location.init); [reflexivity | vm_compute; lia].
Defined.

Lemma position_sentence_validates_witness :
  Location.gga_ok (split "," gga_fields) = true /\
  nth 1 (split "," gga_fields) EmptyString <> EmptyString /\
  nth 3 (split "," gga_fields) EmptyString <> EmptyString /\
  Location._long (fst (Location.set GPGGA gga_fields Location.init)) <> None.
Proof.
  assert (Hrun : Location.set GPGGA gga_fields Location.init
                 = (fst (Location.set GPGGA gga_fields Location.init), Return true))
    by (vm_compute; reflexivity).
  assert (H1 : nth 1 (split "," gga_fields) EmptyString <> EmptyString)
    by (vm_compute; discriminate).
  assert (H3 : nth 3 (split "," gga_fields) EmptyString <> EmptyString)
    by (vm_compute; discriminate).
  split; [reflexivity |]. split; [exact H1 |]. split; [exact H3 |].
  exact (proj2 (proj2 (proj1 (position_sentence_validates gga_fields Location.init
                                (fst (Location.set GPGGA gga_fields Location.init)) true)
                         eq_refl H1 H3 Hrun))).
Defined.

Lemma new_location_true_has_coordinates_witness :
  Data.new_location 10 [gga_example] 5 fresh
  = (fst (Data.new_location 10 [gga_example] 5 fresh), Return true) /\
  Location._lat (Data.get_location (fst (Data.new_location 10 [gga_example] 5 fresh)))
  <> None.
Proof.
  assert (Hrun : Data.new_location 10 [gga_example] 5 fresh
                 = (fst (Data.new_location 10 [gga_example] 5 fresh), Return true))
    by (vm_compute; reflexivity).
  split; [exact Hrun |].
  exact (proj1 (proj2 (new_location_true_has_coordinates _ _ _ _ _ Hrun))).
Defined.

Lemma new_location_throttled_or_fresh_witness :
  (Qlt_bool (1 - (Data._last_update fresh + 5)) 0 = true /\
   Data.new_location 1 [gga_example] 5 fresh = (fresh, Return false)) /\
  (Qlt_bool (10 - (Data._last_update fresh + 5)) 0 = false /\
   Data.new_location 10 [gll_line] 5
     (Data.with_data (fst (Location.set GPGGA gga_fields Location.init)) fresh)
   = Data.new_location 10 [gll_line] 5 fresh).
Proof.
  split; (split; [reflexivity |]).
  - exact (proj1 (new_location_throttled_or_fresh 1 5 [gga_example] fresh) eq_refl).
  - exact (proj2 (new_location_throttled_or_fresh 10 5 [gll_line] fresh) eq_refl
             (fst (Location.set GPGGA gga_fields Location.init))).
Defined.

Lemma lines_before_first_start_discarded_witness :
  forallb (fun line => negb (is_start line)) [junk_line; gga_tail] = true /\
  Data.new_location 10 ([junk_line; gga_tail] ++ [gga_example]) 5 fresh
  = Data.new_location 10 [gga_example] 5 fresh /\
  Data.new_location 10 [junk_line; gga_tail] 5 fresh
  = (Data.with_data Location.init fresh, Return false).
Proof.
  split; [reflexivity |].
  destruct (lines_before_first_start_discarded 10 5 [junk_line; gga_tail]
              [gga_example] fresh eq_refl) as [H1 H2].
  split; [exact H1 | exact (H2 eq_refl)].
Defined.

Lemma fragmented_sentence_as_joined_witness :
  is_start gga_head = true /\
  forallb (fun line => negb (is_start line)) [gga_tail] = true /\
  List.concat [gga_head; gga_tail] = gga_example /\
  Data.new_location 10 [gga_head; gga_tail] 5 fresh
  = Data.new_location 10 [List.concat [gga_head; gga_tail]] 5 fresh.
Proof.
  split; [reflexivity |]. split; [reflexivity |]. split; [reflexivity |].
  exact (fragmented_sentence_as_joined 10 5 gga_head [gga_tail] fresh eq_refl eq_refl).
Defined.

Lemma one_sentence_per_line_witness :
  forallb is_start [gga_example; gll_line] = true /\
  Qlt_bool (10 - (Data._last_update fresh + 5)) 0 = false /\
  fst (Data.new_location 10 [gga_example; gll_line] 5 fresh)
  = fst ((Data.update 10 [gga_example] ;; Data.update 10 [gll_line] ;;
          Data.print (Repr (Data._data
            (fst ((Data.update 10 [gga_example] ;; Data.update 10 [gll_line])
                    (Data.with_data Location.init fresh))))))
           (Data.with_data Location.init fresh)).
Proof.
  split; [reflexivity |]. split; [reflexivity |].
  rewrite (one_sentence_per_line 10 5 [gga_example; gll_line] fresh eq_refl eq_refl).
  vm_compute. reflexivity.
Defined.

Lemma update_hands_body_to_set_witness :
  (List.concat [gga_example]
   = (GPGGA ++ x2c :: list_byte_of_string gga_fields ++ [CR; LF])%list /\
   forallb plain_byte (list_byte_of_string gga_fields) = true /\
   Data.update 10 [gga_example] fresh
   = (Data.make (fst (Location.set GPGGA gga_fields Location.init)) 10 [],
      Return false)) /\
  (List.concat [lf_only_line]
   = (GPGSV ++ x2c :: list_byte_of_string "1,1,0" ++ [x35; LF])%list /\
   Data.update 10 [lf_only_line] fresh
   = (Data.make (fst (Location.set GPGSV "1,1,0" Location.init)) 0 [],
      Return false)).
Proof.
  split.
  - split; [reflexivity |]. split; [reflexivity |].
    apply (update_hands_body_to_set 10 [gga_example] GPGGA
             (list_byte_of_string gga_fields) x2c CR fresh
             (fst (Location.set GPGGA gga_fields Location.init)) true);
      first [reflexivity | (vm_compute; reflexivity)].
  - split; [reflexivity |].
    apply (update_hands_body_to_set 10 [lf_only_line] GPGSV
             (list_byte_of_string "1,1,0") x2c x35 fresh
             (fst (Location.set GPGSV "1,1,0" Location.init)) false);
      first [reflexivity | (vm_compute; reflexivity)].
Defined.

Lemma last_update_follows_valid_fix_witness :
  Data.new_location 10 [gga_example] 5 fresh
  = (fst (Data.new_location 10 [gga_example] 5 fresh), Return true) /\
  (Data._last_update (fst (Data.new_location 10 [gga_example] 5 fresh)) == 10)%Q.
Proof.
  assert (Hrun : Data.new_location 10 [gga_example] 5 fresh
                 = (fst (Data.new_location 10 [gga_example] 5 fresh), Return true))
    by (vm_compute; reflexivity).
  split; [exact Hrun |].
  rewrite (last_update_follows_valid_fix _ _ _ _ _ _ Hrun). reflexivity.
Defined.
